(** * Zoey: a client-side WebSocket protocol engine

    A shallow embedding of [zoey/framing.py], [zoey/chain.py],
    [zoey/client.py], [zoey/handshake.py] and [zoey/utils.py], and the
    properties of the frame codec, the fragment assembler, the connection
    life cycle and the opening handshake that were checked against it.

    Conventions.
    - A Python [int] is a [Z]; a [bytes] or [bytearray] value is a list of
      [Z], each in [0, 256) when the value is well formed ([wf_bytes]).
    - A Python [str] is the list of its code points.
    - A Python exception is a constructor of [exn]; a call that can raise
      returns a [result].
    - A method that mutates [self] takes the object and returns it next to
      the result; a mutation made before a [raise] stays visible.

    What surrounds the sources.
    - The transport is a [Socket]: a connected flag, a closed flag and
      the chunks written so far.  Writing to a transport that is not
      connected, or is closed, raises [OSError].
    - [os.urandom] reads an unknown byte sequence ([Entropy]).
    - The HTTP reader is not modelled: [connect] takes the response it
      would return.  Neither are [urlparse], the creation of the socket
      and the TLS library: [Client.__init__] takes what they answer
      ([Libraries], [SSLContext]).
    - The read loop hands the transport to [Frame.load] as the
      [BinaryIO] that function is written for: [collect_frames] takes
      that stream beside the connection.  Tasks are not modelled:
      [spawn] is recorded in [calls], and [run_forever] is followed up
      to its wait.
    - The hooks of an extension, and the callbacks of [Client] whose body
      is [pass], are user code.  A call is recorded in [calls]; it is
      taken to return without touching the connection.
    - The interpreter is Python 3.8 to 3.11.  An [Enum] member is true
      in a condition, and [x in FrameOpcode] raises [TypeError] when [x]
      is not an enum member, as [None] is (up to 3.7 the answer was
      [False] with a warning; from 3.12 it is given by value, and is
      [True] for [None], the value of [RESERVED]).  [assert] statements
      are executed.
    - [should_set] is a query: its answer is a function of the
      extension, the bit and the class, and asking is not recorded in
      [calls]. *)

From Stdlib Require Import ZArith List String Ascii Bool Lia DecimalString.
Import ListNotations.
Local Open Scope Z_scope.

(* ================================================================= *)
(** ** Python values *)

Definition bytes := list Z.
Definition str := list Z.

Definition wf_byte (b : Z) : Prop := 0 <= b < 256.
Definition wf_bytes (bs : bytes) : Prop := Forall wf_byte bs.

(** A string literal of the source, as code points. *)
Definition lit (s : string) : str :=
  map (fun a => Z.of_N (N_of_ascii a)) (list_ascii_of_string s).

(** [len(x)] as a Python int. *)
Definition len {A : Type} (l : list A) : Z := Z.of_nat (List.length l).

Inductive exn : Type :=
| struct_error
| InterruptedError
| ValueError
| IndexError
| TypeError
| AttributeError
| KeyError
| AssertionError
| OSError
| UnicodeDecodeError
| UnicodeEncodeError
| HandshakeFail (msg : str)
| AlreadyClosed
| NotConnected (msg : str)
| InvalidExtension (msg : str)
| NotImplementedError.

Inductive result (A : Type) : Type :=
| Ok (a : A)
| Raise (e : exn).
Arguments Ok {A} a.
Arguments Raise {A} e.

Definition bind {A B : Type} (r : result A) (k : A -> result B) : result B :=
  match r with
  | Ok a => k a
  | Raise e => Raise e
  end.

Notation "x <- r ;; k" := (bind r (fun x => k))
  (at level 61, r at next level, right associativity).
Notation "' p <- r ;; k" := (bind r (fun x => let p := x in k))
  (at level 61, p pattern, r at next level, right associativity).

(** Python truthiness of the values the source tests. *)
Definition truthy_int (z : Z) : bool := negb (z =? 0).

(* ================================================================= *)
(** ** [struct]: the three formats the source uses *)

Inductive fmt : Type :=
| fmt_B   (* "!B" *)
| fmt_H   (* "!H" *)
| fmt_Q.  (* "!Q" *)

Definition calcsize (f : fmt) : nat :=
  match f with
  | fmt_B => 1
  | fmt_H => 2
  | fmt_Q => 8
  end.

(** The [n] low bytes of [v], most significant first. *)
Fixpoint be_bytes (n : nat) (v : Z) : bytes :=
  match n with
  | O => []
  | S n' => be_bytes n' (v / 256) ++ [v mod 256]
  end.

Definition be_value (bs : bytes) : Z :=
  fold_left (fun acc b => acc * 256 + b) bs 0.

(** [pack(fmt, v)]: [struct.error] when [v] does not fit the format. *)
Definition pack (f : fmt) (v : Z) : result bytes :=
  if (0 <=? v) && (v <? 2 ^ (8 * Z.of_nat (calcsize f)))
  then Ok (be_bytes (calcsize f) v)
  else Raise struct_error.

(** [unpack(fmt, data)]: a tuple of one int; [struct.error] when [data]
    has not exactly the size of the format. *)
Definition unpack (f : fmt) (data : bytes) : result (list Z) :=
  if Nat.eqb (List.length data) (calcsize f)
  then Ok [be_value data]
  else Raise struct_error.

(** [t[0]] on a tuple. *)
Definition item0 (t : list Z) : result Z :=
  match t with
  | x :: _ => Ok x
  | [] => Raise IndexError
  end.

(* ================================================================= *)
(** ** Binary streams *)

Record BinaryIO : Type := mkBinaryIO {
  closed : bool;
  buffer : bytes
}.

(** [stream.read(n)]: at most [n] bytes, fewer at the end of the data. *)
Definition read (n : Z) (s : BinaryIO) : result (bytes * BinaryIO) :=
  if closed s then Raise ValueError
  else Ok (firstn (Z.to_nat n) (buffer s),
           mkBinaryIO (closed s) (skipn (Z.to_nat n) (buffer s))).

Definition unpack_from (f : fmt) (stream : BinaryIO)
  : result (list Z * BinaryIO) :=
  let size := calcsize f in
  if closed stream then Raise InterruptedError
  else
    '(data, stream) <- read (Z.of_nat size) stream ;;
    t <- unpack f data ;;
    Ok (t, stream).

(* ================================================================= *)
(** ** [zoey/framing.py]: opcodes and frames *)

Record ExtensionRsvs : Type := mkExtensionRsvs {
  rsv1 : Z;
  rsv2 : Z;
  rsv3 : Z
}.

Inductive FrameOpcode : Type :=
| CONTINUATION
| TEXT
| BINARY
| CLOSE
| PING
| PONG
| RESERVED.

(** [enum.value]; [RESERVED] holds Python's [None]. *)
Definition value (o : FrameOpcode) : option Z :=
  match o with
  | CONTINUATION => Some 0
  | TEXT => Some 1
  | BINARY => Some 2
  | CLOSE => Some 8
  | PING => Some 9
  | PONG => Some 10
  | RESERVED => None
  end.

(** Iteration order of the enum class. *)
Definition FrameOpcode_members : list FrameOpcode :=
  [CONTINUATION; TEXT; BINARY; CLOSE; PING; PONG; RESERVED].

Definition FrameOpcode_eqb (a b : FrameOpcode) : bool :=
  match a, b with
  | CONTINUATION, CONTINUATION | TEXT, TEXT | BINARY, BINARY
  | CLOSE, CLOSE | PING, PING | PONG, PONG | RESERVED, RESERVED => true
  | _, _ => false
  end.

(** [FrameOpcode.from_value]: the first member whose value is [v]; the
    loop falls through to an implicit [return None] otherwise. *)
Definition from_value (v : Z) : option FrameOpcode :=
  find (fun e => match value e with
                 | Some x => x =? v
                 | None => false
                 end) FrameOpcode_members.

(** [frame.opcode == member], where [frame.opcode] may be [None]. *)
Definition opcode_is (o : option FrameOpcode) (m : FrameOpcode) : bool :=
  match o with
  | Some x => FrameOpcode_eqb x m
  | None => false
  end.

Record Frame : Type := mkFrame {
  final : bool;
  rsvs : ExtensionRsvs;
  opcode : option FrameOpcode;
  payload : bytes;
  mask : option bytes
}.

(** [Frame.apply_mask]: byte [i] is xored with [mask[i % 4]]; indexing a
    mask that is too short raises [IndexError]. *)
Fixpoint apply_mask_from (i : nat) (mask content : bytes) : result bytes :=
  match content with
  | [] => Ok []
  | chunk :: rest =>
      match nth_error mask (Nat.modulo i 4) with
      | Some m =>
          rest' <- apply_mask_from (S i) mask rest ;;
          Ok (Z.lxor chunk m :: rest')
      | None => Raise IndexError
      end
  end.

Definition apply_mask (mask content : bytes) : result bytes :=
  apply_mask_from 0 mask content.

Definition mask_flag (m : option bytes) : Z :=
  match m with None => 0 | Some _ => 128 end.

(** [self.opcode.value] inside the first header byte. *)
Definition opcode_operand (o : option FrameOpcode) : result Z :=
  match o with
  | None => Raise AttributeError
  | Some e =>
      match value e with
      | Some v => Ok v
      | None => Raise TypeError
      end
  end.

(** [Frame.build]. *)
Definition build (self : Frame) : result bytes :=
  op <- opcode_operand (opcode self) ;;
  b0 <- pack fmt_B
          (Z.lor (Z.lor (Z.lor (Z.lor
             (Z.shiftl (Z.b2z (final self)) 7)
             (Z.shiftl (rsv1 (rsvs self)) 6))
             (Z.shiftl (rsv2 (rsvs self)) 5))
             (Z.shiftl (rsv3 (rsvs self)) 4))
             op) ;;
  let frame := b0 in
  let payload_length := len (payload self) in
  frame <-
    (if payload_length <=? 125 then
       b1 <- pack fmt_B (Z.lor payload_length (mask_flag (mask self))) ;;
       Ok (frame ++ b1)
     else if payload_length <=? 65535 then
       b1 <- pack fmt_B (Z.lor 126 (mask_flag (mask self))) ;;
       l <- pack fmt_H payload_length ;;
       Ok ((frame ++ b1) ++ l)
     else
       b1 <- pack fmt_B (Z.lor 127 (mask_flag (mask self))) ;;
       l <- pack fmt_Q payload_length ;;
       Ok ((frame ++ b1) ++ l)) ;;
  match mask self with
  | Some m =>
      masked <- apply_mask m (payload self) ;;
      Ok ((frame ++ m) ++ masked)
  | None => Ok (frame ++ payload self)
  end.

Definition bit01 (r : Z) : Z := if truthy_int r then 1 else 0.

(** [Frame.load].  The extended length of class 126 is read with the
    one-byte format, as the source does. *)
Definition load (stream : BinaryIO) : result (Frame * BinaryIO) :=
  '(t, stream) <- unpack_from fmt_B stream ;;
  code_header <- item0 t ;;
  let final := truthy_int (Z.land code_header 128) in
  let rsvs := mkExtensionRsvs (bit01 (Z.land code_header 64))
                              (bit01 (Z.land code_header 32))
                              (bit01 (Z.land code_header 16)) in
  let opcode := from_value (Z.land code_header 15) in
  '(t, stream) <- unpack_from fmt_B stream ;;
  mask_length <- item0 t ;;
  let has_mask := Z.land mask_length 128 in
  let payload_length := Z.land mask_length (Z.lnot 128) in
  '(payload_length, stream) <-
    (if payload_length =? 126 then
       '(t, stream) <- unpack_from fmt_B stream ;;
       n <- item0 t ;;
       Ok (n, stream)
     else if payload_length =? 127 then
       '(t, stream) <- unpack_from fmt_Q stream ;;
       n <- item0 t ;;
       Ok (n, stream)
     else Ok (payload_length, stream)) ;;
  if truthy_int has_mask then
    '(mask, stream) <- read 4 stream ;;
    '(raw, stream) <- read payload_length stream ;;
    payload <- apply_mask mask raw ;;
    Ok (mkFrame final rsvs opcode payload (Some mask), stream)
  else
    '(payload, stream) <- read payload_length stream ;;
    Ok (mkFrame final rsvs opcode payload None, stream).

(** Decoding the bytes produced by encoding. *)
Definition decode_encoded (f : Frame) : result Frame :=
  data <- build f ;;
  '(g, _) <- load (mkBinaryIO false data) ;;
  Ok g.

(* ================================================================= *)
(** ** UTF-8, as [bytes.decode("utf8")] and [str.encode("utf8")] do it *)

Definition between (lo x hi : Z) : bool := (lo <=? x) && (x <=? hi).

Definition is_cont (b : Z) : bool := between 128 b 191.

(** Strict decoding: no overlong form, no surrogate, nothing above
    U+10FFFF, no truncated sequence. *)
Fixpoint utf8_decode (bs : bytes) : result str :=
  match bs with
  | [] => Ok []
  | b0 :: r0 =>
      if between 0 b0 127 then
        s <- utf8_decode r0 ;; Ok (b0 :: s)
      else if between 194 b0 223 then
        match r0 with
        | b1 :: r1 =>
            if is_cont b1 then
              s <- utf8_decode r1 ;;
              Ok (((b0 - 192) * 64 + (b1 - 128)) :: s)
            else Raise UnicodeDecodeError
        | _ => Raise UnicodeDecodeError
        end
      else if between 224 b0 239 then
        match r0 with
        | b1 :: b2 :: r2 =>
            if between (if b0 =? 224 then 160 else 128) b1
                       (if b0 =? 237 then 159 else 191)
               && is_cont b2 then
              s <- utf8_decode r2 ;;
              Ok (((b0 - 224) * 4096 + (b1 - 128) * 64 + (b2 - 128)) :: s)
            else Raise UnicodeDecodeError
        | _ => Raise UnicodeDecodeError
        end
      else if between 240 b0 244 then
        match r0 with
        | b1 :: b2 :: b3 :: r3 =>
            if between (if b0 =? 240 then 144 else 128) b1
                       (if b0 =? 244 then 143 else 191)
               && is_cont b2 && is_cont b3 then
              s <- utf8_decode r3 ;;
              Ok (((b0 - 240) * 262144 + (b1 - 128) * 4096
                   + (b2 - 128) * 64 + (b3 - 128)) :: s)
            else Raise UnicodeDecodeError
        | _ => Raise UnicodeDecodeError
        end
      else Raise UnicodeDecodeError
  end.

Definition utf8_encode_char (c : Z) : result bytes :=
  if between 0 c 127 then Ok [c]
  else if between 128 c 2047 then Ok [192 + c / 64; 128 + c mod 64]
  else if between 55296 c 57343 then Raise UnicodeEncodeError
  else if between 2048 c 65535 then
    Ok [224 + c / 4096; 128 + (c / 64) mod 64; 128 + c mod 64]
  else if between 65536 c 1114111 then
    Ok [240 + c / 262144; 128 + (c / 4096) mod 64;
        128 + (c / 64) mod 64; 128 + c mod 64]
  else Raise UnicodeEncodeError.

Fixpoint utf8_encode (s : str) : result bytes :=
  match s with
  | [] => Ok []
  | c :: rest =>
      b <- utf8_encode_char c ;;
      bs <- utf8_encode rest ;;
      Ok (b ++ bs)
  end.

(* ================================================================= *)
(** ** [zoey/framing.py]: messages and control frames *)

(** [Message.data] is a [str] for a text message and [bytes] otherwise;
    [data_type] is then the class [str] or the class [bytes]. *)
Inductive PyData : Type :=
| data_str (s : str)
| data_bytes (b : bytes).

Inductive PyDataType : Type :=
| class_str
| class_bytes.

Record Message : Type := mkMessage {
  data_type : PyDataType;
  data : PyData
}.

(** [Message.__init__]. *)
Definition Message_init (chain : list Frame) : result Message :=
  match chain with
  | [] => Raise IndexError
  | first :: _ =>
      let data_type :=
        if opcode_is (opcode first) TEXT then class_str else class_bytes in
      let data := List.concat (map payload chain) in
      match data_type with
      | class_bytes => Ok (mkMessage data_type (data_bytes data))
      | class_str =>
          s <- utf8_decode data ;;
          Ok (mkMessage data_type (data_str s))
      end
  end.

(** The classes a hook can be handed, and their [OPCODE] attribute. *)
Inductive FrameClass : Type :=
| class_Frame
| class_ControlFrame
| class_Ping
| class_Pong
| class_Close.

Definition OPCODE (cls : FrameClass) : option FrameOpcode :=
  match cls with
  | class_Frame => None
  | class_ControlFrame => Some RESERVED
  | class_Ping => Some PING
  | class_Pong => Some PONG
  | class_Close => Some CLOSE
  end.

(** A [Ping] or [Pong] object: [ControlFrame.__init__] with the empty
    [load]. *)
Record ControlFrame : Type := mkControlFrame {
  type : option FrameOpcode;
  raw_data : bytes
}.

Definition ControlFrame_init (frame : Frame) : ControlFrame :=
  mkControlFrame (opcode frame) (payload frame).

(** A [Close] object; [code] holds what [unpack] returned, a tuple. *)
Record Close : Type := mkClose {
  close_type : option FrameOpcode;
  close_raw_data : bytes;
  code : option (list Z);
  reason : option str
}.

(** [Close.load]. *)
Definition Close_load (self : Close) : result Close :=
  let raw_data := close_raw_data self in
  if len raw_data >? 2 then
    c <- unpack fmt_H (firstn 2 raw_data) ;;
    r <- utf8_decode (firstn 2 raw_data) ;;
    Ok (mkClose (close_type self) raw_data (Some c) (Some r))
  else if len raw_data =? 2 then
    c <- unpack fmt_H raw_data ;;
    Ok (mkClose (close_type self) raw_data (Some c) (reason self))
  else Ok self.

(** [Close.__init__]. *)
Definition Close_init (frame : Frame) : result Close :=
  Close_load (mkClose (opcode frame) (payload frame) None None).

(* ================================================================= *)
(** ** [zoey/chain.py]: extensions *)

Record Extension : Type := mkExtension {
  RSV1 : bool;
  RSV2 : bool;
  RSV3 : bool;
  NAME : option str;
  NEGOTIATE : bool;
  should_set : Z -> FrameClass -> bool
}.

(** [Extension.__init__]. *)
Definition Extension_init (e : Extension) : result Extension :=
  if NEGOTIATE e && match NAME e with None => true | Some _ => false end
  then Raise (InvalidExtension
                (lit "Negotiable extensions must specify a name"))
  else Ok e.

(* ================================================================= *)
(** ** [os.urandom] *)

(** The random source of the operating system: an unknown sequence of
    bytes and the number of bytes already handed out. *)
Record Entropy : Type := mkEntropy {
  source : nat -> Z;
  consumed : nat
}.

Definition urandom (n : nat) (e : Entropy) : bytes * Entropy :=
  (map (fun i => source e (consumed e + i)%nat mod 256) (seq 0 n),
   mkEntropy (source e) (consumed e + n)).

(* ================================================================= *)
(** ** [zoey/framing.py]: building control frames *)

(** The inner loop of [ControlFrame.build]: every extension overwrites
    [rsvs[i]], so the last one decides. *)
Definition set_by_extensions (extensions : list Extension) (i : Z)
                             (cls : FrameClass) : bool :=
  fold_left (fun _ extension => should_set extension i cls)
            extensions false.

(** [ControlFrame.build(cls, extensions, mask, payload)]. *)
Definition ControlFrame_build (cls : FrameClass)
    (extensions : list Extension) (mask : option bytes)
    (payload : option bytes) (e : Entropy) : result bytes * Entropy :=
  let rsvs := mkExtensionRsvs
                (Z.b2z (set_by_extensions extensions 0 cls))
                (Z.b2z (set_by_extensions extensions 1 cls))
                (Z.b2z (set_by_extensions extensions 2 cls)) in
  let payload := match payload with Some p => p | None => [] end in
  let '(mask, e) :=
    match mask with
    | Some (_ :: _) => let '(m, e) := urandom 4 e in (Some m, e)
    | _ => (None, e)
    end in
  (build (mkFrame true rsvs (OPCODE cls) payload mask), e).

(** [Ping.build] and [Pong.build]. *)
Definition Ping_build (extensions : list Extension) (mask : option bytes)
  : Entropy -> result bytes * Entropy :=
  ControlFrame_build class_Ping extensions mask None.

Definition Pong_build (extensions : list Extension) (mask : option bytes)
  : Entropy -> result bytes * Entropy :=
  ControlFrame_build class_Pong extensions mask None.

(** The payload [Close.build] assembles before it calls
    [ControlFrame.build]. *)
Definition Close_payload (code : option Z) (reason : option str)
  : result bytes :=
  match code with
  | Some c =>
      if truthy_int c then
        p <- pack fmt_H c ;;
        match reason with
        | Some ((_ :: _) as r) => rb <- utf8_encode r ;; Ok (p ++ rb)
        | _ => Ok p
        end
      else Ok []
  | None => Ok []
  end.

(** [Close.build(cls, extensions, mask, code, reason)]. *)
Definition Close_build (extensions : list Extension) (mask : option bytes)
    (code : option Z) (reason : option str) (e : Entropy)
  : result bytes * Entropy :=
  match Close_payload code reason with
  | Ok payload => ControlFrame_build class_Close extensions mask
                                     (Some payload) e
  | Raise ex => (Raise ex, e)
  end.

(* ================================================================= *)
(** ** The connection and what surrounds it *)

(** [zoey/utils.py]. *)
Inductive ConnectionStatus : Type :=
| CLOSED        (* 0 *)
| CONNECTING    (* 1 *)
| CONNECTED     (* 2 *)
| CLOSING.      (* 3 *)

(** The transport: whether it was connected, whether it was closed, and
    the chunks written to it, oldest first. *)
Record Socket : Type := mkSocket {
  sock_connected : bool;
  sock_closed : bool;
  sock_sent : list bytes
}.

Definition writable (s : Socket) : bool :=
  sock_connected s && negb (sock_closed s).

(** The state of a [WSConstructor] object. *)
Record WSConstructor : Type := mkWSConstructor {
  frame_setup : list Frame;
  last_frame : option Frame
}.

(** What [urlparse] keeps of the URI. *)
Module ParseResult.

Record t : Type := mk {
  scheme : str;
  hostname : option str;
  path : str
}.

End ParseResult.

(** The attributes of a [Client] object. *)
Record Client : Type := mkClient {
  uri : ParseResult.t;
  extensions : list Extension;
  overwrites_origin : option str;
  overwrites_host : option str;
  status : ConnectionStatus;
  socket : Socket;
  constructor : WSConstructor;
  close_reason : option Close;
  connect_greenlet : bool
}.

(** The callbacks of [Extension] and [Client] whose body is [pass] are
    user code; a call of one of them is recorded, with its argument. *)
Inductive hook : Type :=
| on_connection
| on_message (msg : Message)
| on_ping (ping : ControlFrame)
| on_pong (pong : ControlFrame)
| on_close (close : Close)
| before_control_frame (frame : FrameClass)
| before_frame (frame : Frame).

Inductive event : Type :=
| extension_called (index : nat) (h : hook)
| client_called (h : hook)
| spawned_start.

Record World : Type := mkWorld {
  client : Client;
  calls : list event;
  entropy : Entropy
}.

(** State and exceptions. *)
Definition M (A : Type) : Type := World -> result A * World.

Definition ret {A : Type} (a : A) : M A := fun w => (Ok a, w).
Definition raise {A : Type} (e : exn) : M A := fun w => (Raise e, w).
Definition lift {A : Type} (r : result A) : M A := fun w => (r, w).

Definition bindM {A B : Type} (m : M A) (k : A -> M B) : M B :=
  fun w =>
    match m w with
    | (Ok a, w') => k a w'
    | (Raise e, w') => (Raise e, w')
    end.

Notation "x <~ m ;; k" := (bindM m (fun x => k))
  (at level 61, m at next level, right associativity).
Notation "m ;;; k" := (bindM m (fun _ => k))
  (at level 61, right associativity).

Definition get_client : M Client := fun w => (Ok (client w), w).

Definition modify_client (f : Client -> Client) : M unit :=
  fun w => (Ok tt, mkWorld (f (client w)) (calls w) (entropy w)).

Definition record_call (ev : event) : M unit :=
  fun w => (Ok tt, mkWorld (client w) (calls w ++ [ev]) (entropy w)).

Definition os_urandom (n : nat) : M bytes :=
  fun w => let '(b, e) := urandom n (entropy w) in
           (Ok b, mkWorld (client w) (calls w) e).

Definition with_entropy {A : Type} (f : Entropy -> result A * Entropy)
  : M A :=
  fun w => let '(r, e) := f (entropy w) in
           (r, mkWorld (client w) (calls w) e).

Definition set_status (s : ConnectionStatus) (c : Client) : Client :=
  mkClient (uri c) (extensions c) (overwrites_origin c) (overwrites_host c)
           s (socket c) (constructor c) (close_reason c)
           (connect_greenlet c).

Definition set_socket (s : Socket) (c : Client) : Client :=
  mkClient (uri c) (extensions c) (overwrites_origin c) (overwrites_host c)
           (status c) s (constructor c) (close_reason c)
           (connect_greenlet c).

Definition set_constructor (k : WSConstructor) (c : Client) : Client :=
  mkClient (uri c) (extensions c) (overwrites_origin c) (overwrites_host c)
           (status c) (socket c) k (close_reason c) (connect_greenlet c).

Definition set_close_reason (r : option Close) (c : Client) : Client :=
  mkClient (uri c) (extensions c) (overwrites_origin c) (overwrites_host c)
           (status c) (socket c) (constructor c) r (connect_greenlet c).

Definition set_connect_greenlet (g : bool) (c : Client) : Client :=
  mkClient (uri c) (extensions c) (overwrites_origin c) (overwrites_host c)
           (status c) (socket c) (constructor c) (close_reason c) g.

(** [socket.send], [socket.close] and [socket.connect]: writing to a
    transport that is not connected, or is closed, raises [OSError]. *)
Definition socket_send (data : bytes) : M unit :=
  c <~ get_client ;;
  if writable (socket c) then
    modify_client (set_socket (mkSocket (sock_connected (socket c))
                                        (sock_closed (socket c))
                                        (sock_sent (socket c) ++ [data])))
  else raise OSError.

Definition socket_close : M unit :=
  c <~ get_client ;;
  modify_client (set_socket (mkSocket (sock_connected (socket c)) true
                                      (sock_sent (socket c)))).

Definition socket_connect : M unit :=
  c <~ get_client ;;
  if sock_connected (socket c) || sock_closed (socket c) then raise OSError
  else modify_client (set_socket (mkSocket true false
                                           (sock_sent (socket c)))).

(* ================================================================= *)
(** ** [zoey/client.py]: sending control frames and closing *)

Definition str_eqb (a b : str) : bool :=
  if list_eq_dec Z.eq_dec a b then true else false.

(** The property [Client.is_secure]. *)
Definition is_secure (c : Client) : bool :=
  str_eqb (ParseResult.scheme (uri c)) (lit "wss").

(** [Client.trigger]: the hook of every extension, in registration
    order. *)
Definition trigger (h : hook) : M unit :=
  fun w =>
    (Ok tt,
     mkWorld (client w)
             (calls w ++ map (fun i => extension_called i h)
                             (seq 0 (List.length (extensions (client w)))))
             (entropy w)).

(** [Client.send_control]; [build] is [frame.build] with the keyword
    arguments of the call already supplied. *)
Definition send_control (frame : FrameClass)
    (build : list Extension -> Entropy -> result bytes * Entropy)
  : M unit :=
  trigger (before_control_frame frame) ;;;
  c <~ get_client ;;
  data <~ with_entropy (build (extensions c)) ;;
  socket_send data.

(** The truth value of an enum member in an [if]: [Enum] defines no
    [__bool__], so every member is true. *)
Definition enum_truthy (member : ConnectionStatus) : bool := true.

(** [Client.close]. *)
Definition close (code : Z) (reason : option str) : M unit :=
  if enum_truthy CONNECTED then
    c <~ get_client ;;
    mask <~ (if negb (is_secure c)
             then m <~ os_urandom 4 ;; ret (Some m)
             else ret None) ;;
    send_control class_Close
      (fun extensions =>
         Close_build extensions mask (Some code) reason) ;;;
    modify_client (set_status CLOSING)
  else if enum_truthy CONNECTING then
    socket_close
  else if enum_truthy CLOSING then
    socket_close
  else
    raise AlreadyClosed.

(** [close()] with the defaults of its signature. *)
Definition close_default : M unit := close 1000 None.

(** [Client.on_close]. *)
Definition Client_on_close (close : Close) : M unit :=
  modify_client (set_close_reason (Some close)) ;;;
  modify_client (set_status CLOSING) ;;;
  close_default.

(* ================================================================= *)
(** ** [zoey/chain.py]: the fragment assembler *)

(** [get(key)] on a [ChainMap] of the given maps: the first map that has
    the key decides; [None] when no map has it. *)
Fixpoint assoc_get {V : Type} (m : list (string * V)) (key : string)
  : option V :=
  match m with
  | [] => None
  | (k, v) :: rest => if String.eqb k key then Some v else assoc_get rest key
  end.

Fixpoint ChainMap_get {V : Type} (maps : list (list (string * V)))
                      (key : string) : option V :=
  match maps with
  | [] => None
  | m :: rest =>
      match assoc_get m key with
      | Some v => Some v
      | None => ChainMap_get rest key
      end
  end.

Definition truthy_opt_bool (o : option bool) : bool :=
  match o with Some b => b | None => false end.

(** [x in FrameOpcode] for the value of [frame.opcode]: a member is in
    its class; for [None], which is not an enum member,
    [EnumType.__contains__] raises [TypeError]. *)
Definition in_FrameOpcode (o : option FrameOpcode) : result bool :=
  match o with
  | Some _ => Ok true
  | None => Raise TypeError
  end.

(** The dictionary [verify] builds for one extension. *)
Definition rsv_dict (r : Extension) : list (string * bool) :=
  [("R1"%string, RSV1 r); ("R2"%string, RSV2 r); ("R3"%string, RSV3 r)].

(** [WSConstructor.verify]; [self.client] is [c] and [self] is
    [constructor c]. *)
Definition verify (c : Client) (frame : Frame)
  : result (bool * option str) :=
  let self := constructor c in
  let sequencing :=
    match last_frame self with
    | Some last =>
        if opcode_is (opcode frame) CONTINUATION
           && (opcode_is (opcode last) PING
               || opcode_is (opcode last) PONG
               || opcode_is (opcode last) CLOSE)
        then Some (lit "Ping, Pong, or Close frames cannot be fragmented.")
        else if opcode_is (opcode frame) CONTINUATION && final last
        then Some (lit "Sent continuation after final frame.")
        else None
    | None =>
        if opcode_is (opcode frame) CONTINUATION
        then Some (lit "Sent continuation without initial frame.")
        else None
    end in
  match sequencing with
  | Some reason => Ok (false, Some reason)
  | None =>
      known <- in_FrameOpcode (opcode frame) ;;
      if negb known then
        Ok (false, Some (lit "Unknown opcode used."))
      else
        let used_rsv := map rsv_dict (extensions c) in
        if negb (truthy_opt_bool (ChainMap_get used_rsv "R1"))
           && truthy_int (rsv1 (rsvs frame)) then
          Ok (false, Some (lit "Used frame-rsv1 without proper extension"))
        else if negb (truthy_opt_bool (ChainMap_get used_rsv "R2"))
                && truthy_int (rsv2 (rsvs frame)) then
          Ok (false, Some (lit "Used frame-rsv2 without proper extension"))
        else if negb (truthy_opt_bool (ChainMap_get used_rsv "R3"))
                && truthy_int (rsv3 (rsvs frame)) then
          Ok (false, Some (lit "Used frame-rsv3 without proper extension"))
        else Ok (true, None)
  end.

Definition append_frame (frame : Frame) (k : WSConstructor)
  : WSConstructor :=
  mkWSConstructor (frame_setup k ++ [frame]) (last_frame k).

Definition set_last_frame (frame : Frame) (k : WSConstructor)
  : WSConstructor :=
  mkWSConstructor (frame_setup k) (Some frame).

(** [WSConstructor.recv_frame]. *)
Definition recv_frame (frame : Frame) : M unit :=
  c <~ get_client ;;
  v <~ lift (verify c frame) ;;
  let '(good_frame, reason) := v in
  if negb good_frame then
    close 1002 reason
  else
    (if opcode_is (opcode frame) TEXT || opcode_is (opcode frame) BINARY
     then
       modify_client
         (fun c => set_constructor (append_frame frame (constructor c)) c) ;;;
       (if final frame then
          c <~ get_client ;;
          msg <~ lift (Message_init (frame_setup (constructor c))) ;;
          trigger (on_message msg) ;;;
          record_call (client_called (on_message msg))
        else ret tt)
     else if opcode_is (opcode frame) PING then
       let ping := ControlFrame_init frame in
       trigger (on_ping ping) ;;;
       record_call (client_called (on_ping ping))
     else if opcode_is (opcode frame) PONG then
       let pong := ControlFrame_init frame in
       trigger (on_pong pong) ;;;
       record_call (client_called (on_pong pong))
     else
       close <~ lift (Close_init frame) ;;
       trigger (on_close close) ;;;
       Client_on_close close) ;;;
    modify_client
      (fun c => set_constructor (set_last_frame frame (constructor c)) c).

(** A run of [recv_frame] over frames already decoded, as
    [collect_frames] feeds them; it stops at the first exception. *)
Fixpoint recv_frames (frames : list Frame) : M unit :=
  match frames with
  | [] => ret tt
  | frame :: rest => recv_frame frame ;;; recv_frames rest
  end.

(* ================================================================= *)
(** ** [hashlib.sha1] and [base64.b64encode] *)

Definition w32 (x : Z) : Z := x mod 2 ^ 32.

Definition rotl32 (n x : Z) : Z :=
  Z.lor (w32 (Z.shiftl x n)) (Z.shiftr x (32 - n)).

(** Consecutive groups of [n] elements; [fuel] bounds their number. *)
Fixpoint chunks (fuel n : nat) (bs : bytes) : list bytes :=
  match fuel with
  | O => []
  | S fuel' =>
      match bs with
      | [] => []
      | _ => firstn n bs :: chunks fuel' n (skipn n bs)
      end
  end.

Definition sha1_pad (msg : bytes) : bytes :=
  let l := List.length msg in
  let zeros := Nat.modulo (64 - Nat.modulo (l + 9) 64) 64 in
  msg ++ [128] ++ repeat 0 zeros ++ be_bytes 8 (8 * len msg).

Fixpoint sha1_schedule (n : nat) (w : list Z) : list Z :=
  match n with
  | O => w
  | S n' =>
      let t := List.length w in
      let x := Z.lxor (Z.lxor (Z.lxor (nth (t - 3) w 0) (nth (t - 8) w 0))
                              (nth (t - 14) w 0))
                      (nth (t - 16) w 0) in
      sha1_schedule n' (w ++ [rotl32 1 x])
  end.

Definition sha1_state : Type := (Z * Z * Z * Z * Z)%type.

Definition sha1_round (st : sha1_state) (tw : nat * Z) : sha1_state :=
  let '(a, b, c, d, e) := st in
  let '(t, w) := tw in
  let '(f, k) :=
    if Nat.ltb t 20 then
      (Z.lor (Z.land b c) (Z.land (Z.lxor b 4294967295) d), 1518500249)
    else if Nat.ltb t 40 then
      (Z.lxor (Z.lxor b c) d, 1859775393)
    else if Nat.ltb t 60 then
      (Z.lor (Z.lor (Z.land b c) (Z.land b d)) (Z.land c d), 2400959708)
    else
      (Z.lxor (Z.lxor b c) d, 3395469782) in
  (w32 (rotl32 5 a + f + e + k + w), a, rotl32 30 b, c, d).

Definition sha1_block (h : sha1_state) (block : bytes) : sha1_state :=
  let w := sha1_schedule 64 (map be_value (chunks 16 4 block)) in
  let '(a, b, c, d, e) :=
    fold_left sha1_round (combine (seq 0 80) w) h in
  let '(h0, h1, h2, h3, h4) := h in
  (w32 (h0 + a), w32 (h1 + b), w32 (h2 + c), w32 (h3 + d), w32 (h4 + e)).

(** [sha1(msg).digest()]: twenty bytes. *)
Definition sha1 (msg : bytes) : bytes :=
  let padded := sha1_pad msg in
  let '(h0, h1, h2, h3, h4) :=
    fold_left sha1_block (chunks (List.length padded) 64 padded)
              (1732584193, 4023233417, 2562383102, 271733878, 3285377520) in
  be_bytes 4 h0 ++ be_bytes 4 h1 ++ be_bytes 4 h2 ++ be_bytes 4 h3
  ++ be_bytes 4 h4.

Definition b64_alphabet : str :=
  lit "ABCDEFGHIJKLMNOPQRSTUVWXYZabcdefghijklmnopqrstuvwxyz0123456789+/".

Definition b64_char (i : Z) : Z := nth (Z.to_nat i) b64_alphabet 0.

Definition b64_group (g : bytes) : bytes :=
  match g with
  | [a; b; c] =>
      [b64_char (a / 4); b64_char ((a mod 4) * 16 + b / 16);
       b64_char ((b mod 16) * 4 + c / 64); b64_char (c mod 64)]
  | [a; b] =>
      [b64_char (a / 4); b64_char ((a mod 4) * 16 + b / 16);
       b64_char ((b mod 16) * 4); 61]
  | [a] =>
      [b64_char (a / 4); b64_char ((a mod 4) * 16); 61; 61]
  | _ => []
  end.

(** [b64encode]: the standard alphabet, padded with [=]. *)
Definition b64encode (bs : bytes) : bytes :=
  List.concat (map b64_group (chunks (List.length bs) 3 bs)).

(* ================================================================= *)
(** ** The [str] methods the handshake uses

    A code point above 127 is left as it is and counts as uncased.  For a
    string without a code point above U+00FF that agrees with Python
    whenever the result is compared with an ASCII literal. *)

Definition is_upper (c : Z) : bool := between 65 c 90.
Definition is_lower (c : Z) : bool := between 97 c 122.
Definition to_lower (c : Z) : Z := if is_upper c then c + 32 else c.
Definition to_upper (c : Z) : Z := if is_lower c then c - 32 else c.

Definition lower (s : str) : str := map to_lower s.

Fixpoint title_from (previous_is_cased : bool) (s : str) : str :=
  match s with
  | [] => []
  | c :: rest =>
      (if previous_is_cased then to_lower c else to_upper c)
      :: title_from (is_upper c || is_lower c) rest
  end.

Definition title (s : str) : str := title_from false s.

(** [sep.join(parts)]. *)
Fixpoint join (sep : str) (parts : list str) : str :=
  match parts with
  | [] => []
  | [p] => p
  | p :: rest => p ++ sep ++ join sep rest
  end.

(** [s.endswith(suffix)]. *)
Definition endswith (s suffix : str) : bool :=
  str_eqb (skipn (List.length s - List.length suffix) s) suffix
  && Nat.leb (List.length suffix) (List.length s).

(** [s.rstrip("/")]. *)
Definition rstrip_slash (s : str) : str :=
  rev ((fix strip (r : str) : str :=
          match r with
          | c :: r' => if c =? 47 then strip r' else r
          | [] => []
          end) (rev s)).

(** [a or b] on strings that may be [None]. *)
Definition or_else (a b : option str) : option str :=
  match a with
  | Some (_ :: _) => a
  | _ => b
  end.

(** ["{}".format(n)] for an int. *)
Definition format_int (n : Z) : str :=
  lit (NilZero.string_of_int (Z.to_int n)).

(* ================================================================= *)
(** ** [zoey/handshake.py] *)

Module ServerResponse.

(** What the HTTP reader yields: the status code and a mapping from
    header names to values that is looked up without regard to case. *)
Record t : Type := mk {
  code : Z;
  headers : list (str * str)
}.

(** [response.headers[name]]. *)
Fixpoint getitem (h : list (str * str)) (name : str) : result str :=
  match h with
  | [] => Raise KeyError
  | (n, v) :: rest =>
      if str_eqb (lower n) (lower name) then Ok v else getitem rest name
  end.

End ServerResponse.

Module WebsocketUpgrade.

Definition WS_VERSION : str := lit "13".
Definition WS_GUID : bytes := lit "258EAFA5-E914-47DA-95CA-C5AB0DC85B11".

(** A header value is [None] when neither the override nor the URI
    supplies a host. *)
Record t : Type := mk {
  method : str;
  path : str;
  protocol : str;
  key : str;
  secure : bool;
  headers : list (str * option str);
  extensions : list Extension
}.

(** [a + b] on strings, [b] possibly [None]. *)
Definition concat_opt (a : str) (b : option str) : result str :=
  match b with
  | Some s => Ok (a ++ s)
  | None => Raise TypeError
  end.

(** The names the [Sec-WebSocket-Extensions] header joins. *)
Fixpoint negotiable_names (extensions : list Extension)
  : result (list str) :=
  match extensions with
  | [] => Ok []
  | e :: rest =>
      names <- negotiable_names rest ;;
      if NEGOTIATE e then
        match NAME e with
        | Some n => Ok (n :: names)
        | None => Raise TypeError
        end
      else Ok names
  end.

(** [WebsocketUpgrade.__init__]; the key is made from sixteen random
    bytes. *)
Definition init (wss_uri : ParseResult.t) (extensions : list Extension)
    (host origin : option str) (e : Entropy) : result t * Entropy :=
  let path :=
    match rstrip_slash (ParseResult.path wss_uri) with
    | [] => lit "/"
    | p => p
    end in
  let '(random, e) := urandom 16 e in
  (key <- utf8_decode (b64encode random) ;;
   let secure := endswith (ParseResult.scheme wss_uri) (lit "ss") in
   origin <-
     match or_else origin None with
     | Some o => Ok o
     | None =>
         concat_opt (if secure then lit "https://" else lit "http://")
                    (ParseResult.hostname wss_uri)
     end ;;
   let headers :=
     [(lit "Host", or_else host (ParseResult.hostname wss_uri));
      (lit "Upgrade", Some (lit "websocket"));
      (lit "Connection", Some (lit "Upgrade"));
      (lit "Sec-Websocket-Key", Some key);
      (lit "Origin", Some origin);
      (lit "Sec-WebSocket-Version", Some WS_VERSION)] in
   headers <-
     match extensions with
     | [] => Ok headers
     | _ =>
         names <- negotiable_names extensions ;;
         Ok (headers ++ [(lit "Sec-WebSocket-Extensions",
                          Some (join (lit ", ") names))])
     end ;;
   Ok (mk (lit "GET") path (lit "HTTP/1.1") key secure headers
          extensions),
   e).

(** The property [expecting_key]. *)
Definition expecting_key (self : t) : result str :=
  k <- utf8_encode (key self) ;;
  utf8_decode (b64encode (sha1 (k ++ WS_GUID))).

Fixpoint header_lines (h : list (str * option str))
  : result (list str) :=
  match h with
  | [] => Ok []
  | (name, value) :: rest =>
      line <- concat_opt (name ++ lit ": ") value ;;
      lines <- header_lines rest ;;
      Ok (line :: lines)
  end.

Definition crlf : str := [13; 10].

(** [WebsocketUpgrade.build]. *)
Definition build (self : t) : result bytes :=
  first <- utf8_encode
             (join (lit " ") [method self; path self; protocol self]) ;;
  let msg := first ++ crlf in
  lines <- header_lines (headers self) ;;
  rest <- utf8_encode (join crlf lines) ;;
  Ok (msg ++ (rest ++ crlf ++ crlf)).

(** One [assert] of [confirm]: the [KeyError] of the lookup is kept,
    a false condition raises [AssertionError]. *)
Definition assert_header (response : ServerResponse.t) (name : str)
    (holds : str -> result bool) : result unit :=
  v <- ServerResponse.getitem (ServerResponse.headers response) name ;;
  ok <- holds v ;;
  if ok then Ok tt else Raise AssertionError.

(** [WebsocketUpgrade.confirm]: the [try] body, then the handler that
    turns [AssertionError] and [KeyError] into [False]. *)
Definition confirm_body (self : t) (response : ServerResponse.t)
  : result unit :=
  _ <- assert_header response (lit "Upgrade")
         (fun v => Ok (str_eqb (lower v) (lit "websocket"))) ;;
  _ <- assert_header response (lit "Connection")
         (fun v => Ok (str_eqb (title v) (lit "Upgrade"))) ;;
  assert_header response (lit "Sec-Websocket-Accept")
    (fun v => k <- expecting_key self ;; Ok (str_eqb v k)).

Definition confirm (self : t) (response : ServerResponse.t)
  : result bool :=
  match confirm_body self response with
  | Ok _ => Ok true
  | Raise AssertionError => Ok false
  | Raise KeyError => Ok false
  | Raise e => Raise e
  end.

End WebsocketUpgrade.

(* ================================================================= *)
(** ** [zoey/client.py]: construction and [connect] *)

(** A TLS context, known by what its [wrap_socket] does when it is asked
    to wrap a socket for a server host name: it returns the wrapped
    socket or raises. *)
Definition SSLContext : Type := option str -> result unit.

(** What [Client.__init__] gets from the libraries it calls: the parse
    of a URI, a new socket and the default TLS context, each of which
    can raise. *)
Record Libraries : Type := mkLibraries {
  urlparse : str -> result ParseResult.t;
  socket_socket : result unit;
  create_default_context : result SSLContext
}.

(** The classes passed as extensions are instantiated in order. *)
Fixpoint instantiate (extensions : list Extension)
  : result (list Extension) :=
  match extensions with
  | [] => Ok []
  | e :: rest =>
      e' <- Extension_init e ;;
      rest' <- instantiate rest ;;
      Ok (e' :: rest')
  end.

(** The body of [if self.is_secure:] in [Client.__init__]: the context
    given, or else the default one, wraps the socket for the server host
    name [host or self.uri.hostname]. *)
Definition wrap_socket (lib : Libraries) (uri : ParseResult.t)
    (host : option str) (context : option SSLContext) : result unit :=
  context <- match context with
             | Some given => Ok given
             | None => create_default_context lib
             end ;;
  context (or_else host (ParseResult.hostname uri)).

(** [Client.__init__]. *)
Definition Client_init (lib : Libraries) (ws_uri : str)
    (extensions : list Extension) (origin host : option str)
    (context : option SSLContext) : result Client :=
  uri <- urlparse lib ws_uri ;;
  if negb (str_eqb (ParseResult.scheme uri) (lit "wss")
           || str_eqb (ParseResult.scheme uri) (lit "ws"))
  then Raise NotImplementedError
  else
    extensions <- instantiate extensions ;;
    _ <- socket_socket lib ;;
    _ <- (if str_eqb (ParseResult.scheme uri) (lit "wss")
          then wrap_socket lib uri host context
          else Ok tt) ;;
    Ok (mkClient uri extensions origin host CLOSED
                 (mkSocket false false [])
                 (mkWSConstructor [] None) None false).

(** [Client.connect]; [response] is what [ServerResponse.load] reads
    from the transport. *)
Definition connect (response : ServerResponse.t) : M unit :=
  modify_client (set_status CONNECTING) ;;;
  socket_connect ;;;
  c <~ get_client ;;
  upgrade <~ with_entropy
               (WebsocketUpgrade.init (uri c) (extensions c)
                                      (overwrites_host c)
                                      (overwrites_origin c)) ;;
  data <~ lift (WebsocketUpgrade.build upgrade) ;;
  socket_send data ;;;
  if negb (ServerResponse.code response =? 101) then
    close_default ;;;
    raise (HandshakeFail
             (lit "Code: " ++ format_int (ServerResponse.code response)))
  else
    confirmed <~ lift (WebsocketUpgrade.confirm upgrade response) ;;
    if negb confirmed then
      close_default ;;;
      raise (HandshakeFail (lit "Invalid websocket response"))
    else
      modify_client (set_status CONNECTED) ;;;
      record_call spawned_start ;;;
      modify_client (set_connect_greenlet true) ;;;
      trigger on_connection ;;;
      record_call (client_called on_connection).

(* ================================================================= *)
(** ** [zoey/client.py]: sending messages and waiting *)

(** [Client.MAX_SIZE]. *)
Definition MAX_SIZE : Z := 2 ^ 64 - 1.

(** [range(start, stop, step)] for a positive step; [fuel] bounds the
    number of items. *)
Fixpoint range_step (fuel : nat) (start stop step : Z) : list Z :=
  match fuel with
  | O => []
  | S fuel' =>
      if start <? stop
      then start :: range_step fuel' (start + step) stop step
      else []
  end.

(** [b[lo:hi]] for [0 <= lo <= hi]; the upper index is cut down to the
    length, as slicing does. *)
Definition slice (lo hi : Z) (b : bytes) : bytes :=
  firstn (Z.to_nat (Z.min hi (len b) - lo)) (skipn (Z.to_nat lo) b).

(** The first loop of [send_message]: the chunks of the message. *)
Definition message_chunks (msg : bytes) : list bytes :=
  map (fun chunk => slice chunk (chunk + MAX_SIZE) msg)
      (range_step (List.length msg) 0 (len msg) MAX_SIZE).

(** The second loop of [send_message]: every extension is asked
    [should_set] for each of the three bits and overwrites the flags in
    turn.  It runs for every message, the empty one included. *)
Definition message_rsvs (extensions : list Extension)
  : bool * bool * bool :=
  fold_left (fun _ extension =>
               (should_set extension 0 class_Frame,
                should_set extension 1 class_Frame,
                should_set extension 2 class_Frame))
            extensions (false, false, false).

(** The third loop of [send_message]: part number [i] of [count]. *)
Fixpoint send_parts (i count : Z) (rsvs : ExtensionRsvs)
    (opcode : FrameOpcode) (parts : list bytes) : M unit :=
  match parts with
  | [] => ret tt
  | part :: rest =>
      c <~ get_client ;;
      mask <~ (if negb (is_secure c)
               then m <~ os_urandom 4 ;; ret (Some m)
               else ret None) ;;
      let frame := mkFrame (i =? count - 1) rsvs (Some opcode) part mask in
      trigger (before_frame frame) ;;;
      data <~ lift (build frame) ;;
      socket_send data ;;;
      send_parts (i + 1) count rsvs opcode rest
  end.

(** [Client.send_message]; the argument is a [str] or a [bytes]. *)
Definition send_message (msg : PyData) : M unit :=
  let is_text := match msg with data_str _ => true | data_bytes _ => false end in
  msg <~ lift (match msg with
               | data_str s => utf8_encode s
               | data_bytes b => Ok b
               end) ;;
  let msgs := message_chunks msg in
  c <~ get_client ;;
  let '(r1, r2, r3) := message_rsvs (extensions c) in
  send_parts 0 (len msgs)
             (mkExtensionRsvs (Z.b2z r1) (Z.b2z r2) (Z.b2z r3))
             (if is_text then TEXT else BINARY) msgs.

(** [a == b] on two members of [ConnectionStatus]. *)
Definition ConnectionStatus_eqb (a b : ConnectionStatus) : bool :=
  match a, b with
  | CLOSED, CLOSED | CONNECTING, CONNECTING | CONNECTED, CONNECTED
  | CLOSING, CLOSING => true
  | _, _ => false
  end.

(** [Client.run_forever], up to the wait: the guard, then the lookup of
    [join] on the reader task, which raises while the attribute is still
    [None].  What happens during the wait is the work of the reader
    task, [collect_frames] below. *)
Definition run_forever : M unit :=
  c <~ get_client ;;
  if negb (ConnectionStatus_eqb (status c) CONNECTING)
     && negb (ConnectionStatus_eqb (status c) CONNECTED)
  then raise (NotConnected (lit "Must connect before running forever."))
  else if connect_greenlet c then ret tt
  else raise AttributeError.

(* ================================================================= *)
(** ** [zoey/chain.py]: the read loop *)

(** [WSConstructor.collect_frames].  [Frame.load] is handed the
    transport as the [BinaryIO] it is written for; [stream] is that
    receiving side.  [struct.error] ends the loop, any other exception
    leaves it.  [None] when [fuel] rounds were not enough. *)
Fixpoint collect_frames (fuel : nat) (stream : BinaryIO) (w : World)
  : option (result unit * World) :=
  match fuel with
  | O => None
  | S fuel' =>
      match load stream with
      | Raise struct_error => Some (Ok tt, w)
      | Raise e => Some (Raise e, w)
      | Ok (frame, stream') =>
          match recv_frame frame w with
          | (Ok _, w') => collect_frames fuel' stream' w'
          | (Raise e, w') => Some (Raise e, w')
          end
      end
  end.

(* ================================================================= *)
(** * Vocabulary of the properties, and sample inputs *)

(** A reserved bit as a frame stores it. *)
Definition bit (r : Z) : Prop := r = 0 \/ r = 1.

(** A frame that can be put on the wire: reserved bits 0 or 1, one of
    the six opcodes, payload and mask made of bytes, a mask of four
    bytes. *)
Definition valid_Frame (f : Frame) : Prop :=
  bit (rsv1 (rsvs f)) /\ bit (rsv2 (rsvs f)) /\ bit (rsv3 (rsvs f))
  /\ (exists o, opcode f = Some o /\ o <> RESERVED)
  /\ wf_bytes (payload f)
  /\ match mask f with
     | None => True
     | Some m => List.length m = 4%nat /\ wf_bytes m
     end.

(** [load] reads the frame [g] from a stream that holds [data]. *)
Definition decodes_to (data : bytes) (g : Frame) : Prop :=
  exists rest, load (mkBinaryIO false data) = Ok (g, rest).

(** The hook calls [send_control] makes for a Close frame. *)
Definition before_close_calls (w : World) : list event :=
  map (fun i => extension_called i (before_control_frame class_Close))
      (seq 0 (List.length (extensions (client w)))).

(** [w'] is [w] after one Close frame with payload [p] was written and
    nothing else happened to the connection but the move to [CLOSING]. *)
Definition sent_close (p : bytes) (w w' : World) : Prop :=
  exists data g,
    sock_sent (socket (client w')) = sock_sent (socket (client w)) ++ [data]
    /\ decodes_to data g
    /\ final g = true /\ opcode g = Some CLOSE /\ payload g = p
    /\ status (client w') = CLOSING
    /\ sock_closed (socket (client w')) = sock_closed (socket (client w))
    /\ constructor (client w') = constructor (client w)
    /\ extensions (client w') = extensions (client w)
    /\ close_reason (client w') = close_reason (client w)
    /\ calls w' = calls w ++ before_close_calls w.

(** [m] leaves the observation [f] of the world as it was, whether it
    returns or raises. *)
Definition keeps {T A : Type} (f : World -> T) (m : M A) : Prop :=
  forall w, f (snd (m w)) = f w.

(** [m] never raises [e]. *)
Definition never_raises {A : Type} (e : exn) (m : M A) : Prop :=
  forall w, fst (m w) <> Raise e.

(** An observation of the client that ignores the status and the
    transport. *)
Definition beside_status_and_socket {T : Type} (g : Client -> T) : Prop :=
  (forall s c, g (set_status s c) = g c)
  /\ (forall s c, g (set_socket s c) = g c).

(** Exceptions of this library, which none of [struct], the codecs or
    the transport raises. *)
Definition zoey_exception (e : exn) : bool :=
  match e with
  | HandshakeFail _ | AlreadyClosed | NotConnected _
  | InvalidExtension _ => true
  | _ => false
  end.

(** [r] raises no exception of this library. *)
Definition foreign {A : Type} (r : result A) : Prop :=
  forall e, r = Raise e -> zoey_exception e = false.

(** [verify] returns and accepts the frame: the first item of the tuple
    is [True].  It is false when [verify] refuses the frame and when it
    raises. *)
Definition verified (c : Client) (frame : Frame) : bool :=
  match verify c frame with
  | Ok (good_frame, _) => good_frame
  | Raise _ => false
  end.

(** Three of the reasons [verify] has. *)
Definition unknown_opcode_reason : str := lit "Unknown opcode used.".
Definition first_continuation_reason : str :=
  lit "Sent continuation without initial frame.".
Definition control_continuation_reason : str :=
  lit "Ping, Pong, or Close frames cannot be fragmented.".

(** The payload of the Close frame that reports a protocol error. *)
Definition protocol_error_payload (reason : str) : bytes :=
  [3; 234] ++ reason.

(** What the hooks see when a Ping is accepted. *)
Definition ping_calls (w : World) (frame : Frame) : list event :=
  map (fun i => extension_called i (on_ping (ControlFrame_init frame)))
      (seq 0 (List.length (extensions (client w))))
  ++ [client_called (on_ping (ControlFrame_init frame))].

(** No reserved bit set. *)
Definition no_rsvs : ExtensionRsvs := mkExtensionRsvs 0 0 0.

(** A final, unmasked Text frame carrying [n] times the letter A. *)
Definition text_frame (n : nat) : Frame :=
  mkFrame true no_rsvs (Some TEXT) (repeat 65 n) None.

(** The URI ws://example.com/chat. *)
Definition sample_uri : ParseResult.t :=
  ParseResult.mk (lit "ws") (Some (lit "example.com")) (lit "/chat").

(** An extension that claims nothing, and one that claims RSV1. *)
Definition plain_extension : Extension :=
  mkExtension false false false None false (fun _ _ => false).

Definition rsv1_extension : Extension :=
  mkExtension true false false None false (fun _ _ => false).

(** A random source that yields zeros. *)
Definition quiet_entropy : Entropy := mkEntropy (fun _ => 0) 0.

(** A client as [Client.__init__] leaves it. *)
Definition new_client (extensions : list Extension) : Client :=
  mkClient sample_uri extensions None None CLOSED (mkSocket false false [])
           (mkWSConstructor [] None) None false.

(** That client, before any callback, with the quiet random source. *)
Definition new_world (extensions : list Extension) : World :=
  mkWorld (new_client extensions) [] quiet_entropy.

(** A client on a connected transport, in status [s], with assembler
    state [k]. *)
Definition connection (extensions : list Extension) (s : ConnectionStatus)
    (k : WSConstructor) : World :=
  mkWorld (mkClient sample_uri extensions None None s
                    (mkSocket true false []) k None false)
          [] quiet_entropy.

(** A connection after a successful handshake, before any frame. *)
Definition established (extensions : list Extension) : World :=
  connection extensions CONNECTED (mkWSConstructor [] None).

(** The three fragments of the text "Hello World". *)
Definition fragment_1 : Frame :=
  mkFrame false no_rsvs (Some TEXT) (lit "Hel") None.
Definition fragment_2 : Frame :=
  mkFrame false no_rsvs (Some CONTINUATION) (lit "lo ") None.
Definition fragment_3 : Frame :=
  mkFrame true no_rsvs (Some CONTINUATION) (lit "World") None.

(** The Close frame [close()] writes with its defaults when the random
    source yields zeros: FIN and opcode 8, mask flag and length 2, the
    mask, the code 1000. *)
Definition default_close_bytes : bytes := [136; 130; 0; 0; 0; 0; 3; 232].

(** A complete, unmasked text message in one frame. *)
Definition whole_text (s : string) : Frame :=
  mkFrame true no_rsvs (Some TEXT) (lit s) None.

(** A Close frame as received, with the given payload. *)
Definition close_frame (p : bytes) : Frame :=
  mkFrame true no_rsvs (Some CLOSE) p None.

(** A final Text frame with RSV1 set. *)
Definition rsv1_frame : Frame :=
  mkFrame true (mkExtensionRsvs 1 0 0) (Some TEXT) (lit "hi") None.

(** The client [c] with other extensions registered. *)
Definition set_extensions (extensions : list Extension) (c : Client)
  : Client :=
  mkClient (uri c) extensions (overwrites_origin c) (overwrites_host c)
           (status c) (socket c) (constructor c) (close_reason c)
           (connect_greenlet c).

(** A frame whose opcode field was 3, as [load] builds it. *)
Definition unknown_frame : Frame :=
  mkFrame true no_rsvs (from_value 3) (lit "x") None.

(** A Ping and a Continuation frame as received. *)
Definition ping_frame : Frame :=
  mkFrame true no_rsvs (Some PING) (lit "p") None.

Definition continuation_frame : Frame :=
  mkFrame true no_rsvs (Some CONTINUATION) (lit "more") None.

(** The six opcode values of the protocol. *)
Definition known_opcode_values : list Z := [0; 1; 2; 8; 9; 10].

(** A frame is turned down: [verify] says no, [recv_frame] returns
    normally, and what it did is to send a Close frame with code 1002
    and the reason. *)
Definition rejected_1002 (reason : str) (frame : Frame) (w : World)
  : Prop :=
  verify (client w) frame = Ok (false, Some reason)
  /\ exists w', recv_frame frame w = (Ok tt, w')
                /\ sent_close (protocol_error_payload reason) w w'.

(** The key and the accept value of the handshake example. *)
Definition sample_key : str := lit "dGhlIHNhbXBsZSBub25jZQ==".
Definition sample_accept : str := lit "s3pPLMBiTxaQ9kYGzzhZRbK+xOo=".

(** An upgrade object that holds the sample key. *)
Definition sample_upgrade : WebsocketUpgrade.t :=
  WebsocketUpgrade.mk (lit "GET") (lit "/chat") (lit "HTTP/1.1") sample_key
                      false [] [].

(** The three header conditions of the handshake, for the expected
    accept value [accept]. *)
Definition headers_match (accept : str) (response : ServerResponse.t)
  : Prop :=
  exists upgrade connection accepted,
    ServerResponse.getitem (ServerResponse.headers response) (lit "Upgrade")
    = Ok upgrade
    /\ lower upgrade = lit "websocket"
    /\ ServerResponse.getitem (ServerResponse.headers response)
                              (lit "Connection")
       = Ok connection
    /\ title connection = lit "Upgrade"
    /\ ServerResponse.getitem (ServerResponse.headers response)
                              (lit "Sec-WebSocket-Accept")
       = Ok accepted
    /\ accepted = accept.

(** The handshake fails: another status code than 101, or [confirm]
    says no. *)
Definition handshake_refused (u : WebsocketUpgrade.t)
    (response : ServerResponse.t) : Prop :=
  ServerResponse.code response <> 101
  \/ WebsocketUpgrade.confirm u response = Ok false.

(** The claim about a failed [connect], as the specification words it:
    a handshake error is raised, the transport is closed and the status
    is what it was before the call. *)
Definition failed_connect_as_claimed (w : World)
    (response : ServerResponse.t) : Prop :=
  (exists msg, fst (connect response w) = Raise (HandshakeFail msg))
  /\ sock_closed (socket (client (snd (connect response w)))) = true
  /\ status (client (snd (connect response w))) = status (client w).

(** The world in which [connect] calls [close]: the status is
    [CONNECTING], the transport is connected and the request [data] has
    been written to it. *)
Definition awaiting_response (w : World) (data : bytes) (e : Entropy)
  : World :=
  mkWorld (set_socket (mkSocket true false
                                (sock_sent (socket (client w)) ++ [data]))
                      (set_status CONNECTING (client w)))
          (calls w) e.

(** The upgrade request a new client sends to [sample_uri] when the
    random source yields zeros, and the random source afterwards. *)
Definition sample_handshake : result WebsocketUpgrade.t * Entropy :=
  WebsocketUpgrade.init sample_uri [] None None quiet_entropy.

(** The upgrade object of that request, and its bytes. *)
Definition sample_request_upgrade : WebsocketUpgrade.t :=
  match fst sample_handshake with
  | Ok u => u
  | Raise _ => sample_upgrade
  end.

Definition sample_request : bytes :=
  match WebsocketUpgrade.build sample_request_upgrade with
  | Ok data => data
  | Raise _ => []
  end.

(** A server that answers 404. *)
Definition not_found : ServerResponse.t := ServerResponse.mk 404 [].

(* ----------------------------------------------------------------- *)
(** ** Vocabulary of the properties of the codec, the receiving side,
    sending and the handshake *)

(** A mask of four bytes and a payload of five, for the examples. *)
Definition sample_mask : bytes := [55; 250; 33; 61].
Definition sample_payload : bytes := lit "Hello".

(** A Binary frame of three bytes, masked. *)
Definition masked_frame : Frame :=
  mkFrame true no_rsvs (Some BINARY) [1; 2; 3] (Some sample_mask).

(** The payload lengths for which the codec round-trips. *)
Definition codec_length (n : Z) : Prop :=
  n <= 125 \/ 65536 <= n < 2 ^ 64.

(** What [load] guarantees about a frame it returns. *)
Definition loaded_Frame (f : Frame) : Prop :=
  bit (rsv1 (rsvs f)) /\ bit (rsv2 (rsvs f)) /\ bit (rsv3 (rsvs f))
  /\ opcode f <> Some RESERVED
  /\ match mask f with
     | None => True
     | Some m => (List.length m <= 4)%nat
     end.

(** The reason [verify] gives for a Continuation that follows a final
    frame. *)
Definition after_final_reason : str :=
  lit "Sent continuation after final frame.".

(** The hook calls of [trigger] followed by the call of the client's own
    callback. *)
Definition dispatched (w : World) (h : hook) : list event :=
  map (fun i => extension_called i h)
      (seq 0 (List.length (extensions (client w))))
  ++ [client_called h].

(** The world after [frame] was accepted and the calls [evs] were made:
    [frame] is the last frame, and it joined the pending frames when
    [pending] says so. *)
Definition accepted (pending : bool) (frame : Frame) (evs : list event)
    (w : World) : World :=
  mkWorld
    (set_constructor
       (mkWSConstructor
          (if pending
           then frame_setup (constructor (client w)) ++ [frame]
           else frame_setup (constructor (client w)))
          (Some frame))
       (client w))
    (calls w ++ evs) (entropy w).

(** A frame that carries data. *)
Definition is_data (frame : Frame) : Prop :=
  opcode frame = Some TEXT \/ opcode frame = Some BINARY.

(** What a Ping or Pong frame is handed to. *)
Definition control_hook (frame : Frame) : hook :=
  if opcode_is (opcode frame) PING
  then on_ping (ControlFrame_init frame)
  else on_pong (ControlFrame_init frame).

Definition pong_frame : Frame :=
  mkFrame true no_rsvs (Some PONG) (lit "p") None.

(** A text frame whose payload is not UTF-8. *)
Definition broken_text : Frame :=
  mkFrame true no_rsvs (Some TEXT) [255] None.

(** A client on a connected transport whose last accepted frame was a
    complete text. *)
Definition after_text : World :=
  connection [] CONNECTED
             (mkWSConstructor [whole_text "a"] (Some (whole_text "a"))).

(** [m] relates every world to the world it leaves, whether it returns
    or raises. *)
Definition preserves {A : Type} (R : World -> World -> Prop) (m : M A)
  : Prop :=
  forall w, R w (snd (m w)).

(** From [w] to [w'] the transport was neither closed nor reconnected,
    the extensions and the URI are the same, and the status is the same
    or has become [CLOSING]. *)
Definition steady (w w' : World) : Prop :=
  (status (client w') = status (client w)
   \/ status (client w') = CLOSING)
  /\ sock_closed (socket (client w')) = sock_closed (socket (client w))
  /\ sock_connected (socket (client w'))
     = sock_connected (socket (client w))
  /\ extensions (client w') = extensions (client w)
  /\ uri (client w') = uri (client w).

(** The hook calls of a received Close frame and of the answer. *)
Definition close_calls (w : World) (c : Close) : list event :=
  map (fun i => extension_called i (on_close c))
      (seq 0 (List.length (extensions (client w))))
  ++ before_close_calls w.

(** A Close frame with code 1001 and no reason, as received. *)
Definition going_away : Frame := close_frame [3; 233].

(** The frames of a list on the wire, one after the other. *)
Fixpoint build_all (frames : list Frame) : result bytes :=
  match frames with
  | [] => Ok []
  | f :: rest =>
      d <- build f ;;
      ds <- build_all rest ;;
      Ok (d ++ ds)
  end.

(** A frame the codec carries faithfully. *)
Definition carried (f : Frame) : Prop :=
  valid_Frame f /\ codec_length (len (payload f)).

(** The bytes [send_message] puts on the wire for a message. *)
Definition message_bytes (msg : PyData) : result bytes :=
  match msg with
  | data_str s => utf8_encode s
  | data_bytes b => Ok b
  end.

Definition message_opcode (msg : PyData) : FrameOpcode :=
  match msg with
  | data_str _ => TEXT
  | data_bytes _ => BINARY
  end.

(** The message a receiver assembles from what was sent. *)
Definition message_of (msg : PyData) : Message :=
  mkMessage (match msg with
             | data_str _ => class_str
             | data_bytes _ => class_bytes
             end) msg.

(** A [bytes] argument is made of bytes. *)
Definition wf_data (msg : PyData) : Prop :=
  match msg with
  | data_str _ => True
  | data_bytes b => wf_bytes b
  end.

(** The reserved bits the extensions ask for on a frame of class
    [cls]. *)
Definition outgoing_rsvs (extensions : list Extension) (cls : FrameClass)
  : ExtensionRsvs :=
  mkExtensionRsvs (Z.b2z (set_by_extensions extensions 0 cls))
                  (Z.b2z (set_by_extensions extensions 1 cls))
                  (Z.b2z (set_by_extensions extensions 2 cls)).

(** The hook calls [send_message] makes for a frame. *)
Definition before_frame_calls (w : World) (frame : Frame) : list event :=
  map (fun i => extension_called i (before_frame frame))
      (seq 0 (List.length (extensions (client w)))).

(** The mask of an outgoing frame fits the scheme of the URI: none on
    wss, four bytes otherwise. *)
Definition mask_fits (c : Client) (mask : option bytes) : Prop :=
  match mask with
  | None => is_secure c = true
  | Some m => is_secure c = false /\ List.length m = 4%nat /\ wf_bytes m
  end.

(** An extension that sets RSV2 on data frames. *)
Definition rsv2_setter : Extension :=
  mkExtension false true false None false
              (fun i cls => (i =? 1) && match cls with
                                        | class_Frame => true
                                        | _ => false
                                        end).

(** [payload or b""]. *)
Definition payload_or_empty (payload : option bytes) : bytes :=
  match payload with
  | Some p => p
  | None => []
  end.

(** The truth value of the [mask] argument of [ControlFrame.build], as
    [close] passes it: [None] or a byte string. *)
Definition mask_requested (mask : option bytes) : bool :=
  match mask with
  | Some (_ :: _) => true
  | _ => false
  end.

(** The classes of control frame that have an opcode of the protocol. *)
Definition control_class (cls : FrameClass) : Prop :=
  cls = class_Ping \/ cls = class_Pong \/ cls = class_Close.

(** A close code that fits the two bytes of the wire format and is not
    skipped as false. *)
Definition sendable_code (code : Z) : Prop := 0 < code <= 65535.

(** A string of ASCII characters. *)
Definition ascii_str (s : str) : Prop := Forall (fun c => 0 <= c <= 127) s.

(** The hook calls [connect] makes once the handshake is accepted. *)
Definition connection_calls (w : World) : list event :=
  [spawned_start]
  ++ map (fun i => extension_called i on_connection)
         (seq 0 (List.length (extensions (client w))))
  ++ [client_called on_connection].

(** The accept value that answers [sample_request_upgrade]. *)
Definition sample_request_accept : str :=
  match WebsocketUpgrade.expecting_key sample_request_upgrade with
  | Ok k => k
  | Raise _ => []
  end.

(** A server that accepts the sample request; the header names and
    values are in the case some servers use. *)
Definition switching_protocols : ServerResponse.t :=
  ServerResponse.mk 101 [(lit "upgrade", lit "WebSocket");
                         (lit "connection", lit "upgrade");
                         (lit "sec-websocket-accept", sample_request_accept)].

(** Every extension that is to be negotiated has a name. *)
Definition named (e : Extension) : Prop :=
  NEGOTIATE e = true -> NAME e <> None.

(** The scheme is one of the two [Client] accepts. *)
Definition ws_scheme (u : ParseResult.t) : Prop :=
  ParseResult.scheme u = lit "ws" \/ ParseResult.scheme u = lit "wss".

(** The URI wss://example.com/chat///. *)
Definition slashed_uri : ParseResult.t :=
  ParseResult.mk (lit "wss") (Some (lit "example.com")) (lit "/chat///").

(** A TLS context that checks host names, as the default one does: it
    refuses to wrap a socket without a server host name. *)
Definition checking_context : SSLContext :=
  fun server_hostname =>
    match server_hostname with
    | Some (_ :: _) => Ok tt
    | _ => Raise ValueError
    end.

(** Libraries that parse every URI as [sample_uri], always have a socket
    and whose default context checks host names. *)
Definition sample_libraries : Libraries :=
  mkLibraries (fun _ => Ok sample_uri) (Ok tt) (Ok checking_context).

(** The ways [Client.__init__] can end, in the order in which the
    causes are looked at.  A client is returned only when nothing on the
    way raised; the TLS library is asked only for the scheme wss. *)
Inductive Client_init_outcome (lib : Libraries) (ws_uri : str)
    (extensions : list Extension) (origin host : option str)
    (context : option SSLContext)
  : result Client -> Prop :=
| init_unparsed (e : exn) :
    urlparse lib ws_uri = Raise e ->
    Client_init_outcome lib ws_uri extensions origin host context (Raise e)
| init_bad_scheme (uri : ParseResult.t) :
    urlparse lib ws_uri = Ok uri ->
    ~ ws_scheme uri ->
    Client_init_outcome lib ws_uri extensions origin host context
      (Raise NotImplementedError)
| init_bad_extension (uri : ParseResult.t) :
    urlparse lib ws_uri = Ok uri ->
    ws_scheme uri -> Exists (fun e => ~ named e) extensions ->
    Client_init_outcome lib ws_uri extensions origin host context
      (Raise (InvalidExtension
                (lit "Negotiable extensions must specify a name")))
| init_no_socket (uri : ParseResult.t) (e : exn) :
    urlparse lib ws_uri = Ok uri ->
    ws_scheme uri -> Forall named extensions ->
    socket_socket lib = Raise e ->
    Client_init_outcome lib ws_uri extensions origin host context (Raise e)
| init_not_wrapped (uri : ParseResult.t) (e : exn) :
    urlparse lib ws_uri = Ok uri ->
    ParseResult.scheme uri = lit "wss" -> Forall named extensions ->
    socket_socket lib = Ok tt ->
    wrap_socket lib uri host context = Raise e ->
    Client_init_outcome lib ws_uri extensions origin host context (Raise e)
| init_done (uri : ParseResult.t) :
    urlparse lib ws_uri = Ok uri ->
    ws_scheme uri -> Forall named extensions ->
    socket_socket lib = Ok tt ->
    (ParseResult.scheme uri = lit "wss" ->
     wrap_socket lib uri host context = Ok tt) ->
    Client_init_outcome lib ws_uri extensions origin host context
      (Ok (mkClient uri extensions origin host CLOSED
                    (mkSocket false false []) (mkWSConstructor [] None)
                    None false)).

(** [s] does not end with a slash. *)
Definition no_trailing_slash (s : str) : Prop := forall t, s <> t ++ [47].

(* ================================================================= *)
(** * Properties *)

(* ----------------------------------------------------------------- *)
(** ** Bytes, headers and masks *)

Lemma forallb_range (P : Z -> bool) (n : nat) :
  forallb P (map Z.of_nat (seq 0 n)) = true ->
  forall z, 0 <= z < Z.of_nat n -> P z = true.
Proof.
  intros H z Hz.
  rewrite forallb_forall in H. apply H.
  apply in_map_iff. exists (Z.to_nat z). split; [lia|].
  apply in_seq. lia.
Qed.

Lemma header_byte (b : bool) (r1 r2 r3 : Z) (o : FrameOpcode) (v : Z) :
  bit r1 -> bit r2 -> bit r3 -> value o = Some v ->
  let b0 := Z.lor (Z.lor (Z.lor (Z.lor (Z.shiftl (Z.b2z b) 7)
              (Z.shiftl r1 6)) (Z.shiftl r2 5)) (Z.shiftl r3 4)) v in
  0 <= b0 < 256
  /\ truthy_int (Z.land b0 128) = b
  /\ bit01 (Z.land b0 64) = r1
  /\ bit01 (Z.land b0 32) = r2
  /\ bit01 (Z.land b0 16) = r3
  /\ from_value (Z.land b0 15) = Some o.
Proof.
  intros [-> | ->] [-> | ->] [-> | ->] Hv; destruct b, o;
    inversion Hv; subst; vm_compute; repeat split; congruence.
Qed.

Lemma length_byte (n flag : Z) :
  0 <= n < 128 -> flag = 0 \/ flag = 128 ->
  let b1 := Z.lor n flag in
  0 <= b1 < 256
  /\ Z.land b1 128 = flag
  /\ Z.land b1 (Z.lnot 128) = n.
Proof.
  intros Hn Hf.
  assert (E : ((0 <=? Z.lor n flag) && (Z.lor n flag <? 256)
               && (Z.land (Z.lor n flag) 128 =? flag)
               && (Z.land (Z.lor n flag) (Z.lnot 128) =? n)) = true).
  { destruct Hf as [-> | ->].
    - apply (forallb_range
               (fun n => (0 <=? Z.lor n 0) && (Z.lor n 0 <? 256)
                         && (Z.land (Z.lor n 0) 128 =? 0)
                         && (Z.land (Z.lor n 0) (Z.lnot 128) =? n)) 128);
        [vm_compute; reflexivity | lia].
    - apply (forallb_range
               (fun n => (0 <=? Z.lor n 128) && (Z.lor n 128 <? 256)
                         && (Z.land (Z.lor n 128) 128 =? 128)
                         && (Z.land (Z.lor n 128) (Z.lnot 128) =? n)) 128);
        [vm_compute; reflexivity | lia]. }
  cbv zeta. repeat rewrite andb_true_iff in E. lia.
Qed.

Lemma be_value_snoc (bs : bytes) (b : Z) :
  be_value (bs ++ [b]) = be_value bs * 256 + b.
Proof. unfold be_value. rewrite fold_left_app. reflexivity. Qed.

Lemma be_bytes_length (n : nat) (v : Z) : List.length (be_bytes n v) = n.
Proof.
  revert v. induction n as [|n IH]; intros v; simpl; [reflexivity|].
  rewrite length_app, IH. simpl. lia.
Qed.

Lemma be_value_be_bytes (n : nat) (v : Z) :
  0 <= v -> be_value (be_bytes n v) = v mod 256 ^ Z.of_nat n.
Proof.
  revert v. induction n as [|n IH]; intros v Hv.
  - simpl. rewrite Z.mod_1_r. reflexivity.
  - cbn [be_bytes]. rewrite be_value_snoc, IH by (apply Z.div_pos; lia).
    rewrite Nat2Z.inj_succ, Z.pow_succ_r by lia.
    rewrite Z.rem_mul_r by lia. lia.
Qed.

Lemma be_bytes_wf (n : nat) (v : Z) : wf_bytes (be_bytes n v).
Proof.
  revert v. induction n as [|n IH]; intros v; simpl.
  - constructor.
  - apply Forall_app. split; [apply IH|].
    constructor; [|constructor]. unfold wf_byte.
    apply Z.mod_pos_bound. lia.
Qed.

Lemma pack_Ok (f : fmt) (v : Z) :
  0 <= v < 2 ^ (8 * Z.of_nat (calcsize f)) ->
  pack f v = Ok (be_bytes (calcsize f) v).
Proof.
  intros H. unfold pack.
  replace (0 <=? v) with true by (symmetry; apply Z.leb_le; lia).
  replace (v <? _) with true by (symmetry; apply Z.ltb_lt; lia).
  reflexivity.
Qed.

Lemma pack_B (v : Z) : 0 <= v < 256 -> pack fmt_B v = Ok [v].
Proof.
  intros H. rewrite pack_Ok by (simpl; lia). simpl.
  rewrite Z.mod_small by lia. reflexivity.
Qed.

Lemma read_app (a b : bytes) :
  read (len a) (mkBinaryIO false (a ++ b)) = Ok (a, mkBinaryIO false b).
Proof.
  unfold read, len. simpl. rewrite Nat2Z.id.
  rewrite firstn_app, skipn_app, Nat.sub_diag, firstn_all, skipn_all.
  simpl. rewrite app_nil_r. reflexivity.
Qed.

Lemma unpack_from_app (f : fmt) (v : Z) (rest : bytes) :
  0 <= v < 2 ^ (8 * Z.of_nat (calcsize f)) ->
  unpack_from f (mkBinaryIO false (be_bytes (calcsize f) v ++ rest))
  = Ok ([v], mkBinaryIO false rest).
Proof.
  intros H. unfold unpack_from. simpl closed. cbv iota.
  replace (Z.of_nat (calcsize f)) with (len (be_bytes (calcsize f) v))
    by (unfold len; rewrite be_bytes_length; reflexivity).
  rewrite read_app. cbn [bind]. unfold unpack.
  rewrite be_bytes_length, Nat.eqb_refl. cbn [bind].
  rewrite be_value_be_bytes by lia.
  rewrite Z.mod_small; [reflexivity|].
  replace (256 ^ Z.of_nat (calcsize f))
    with (2 ^ (8 * Z.of_nat (calcsize f))); [exact H|].
  rewrite Z.pow_mul_r by lia. reflexivity.
Qed.

Lemma unpack_from_B (v : Z) (rest : bytes) :
  0 <= v < 256 ->
  unpack_from fmt_B (mkBinaryIO false (v :: rest))
  = Ok ([v], mkBinaryIO false rest).
Proof.
  intros H.
  pose proof (unpack_from_app fmt_B v rest) as E.
  simpl in E. rewrite Z.mod_small in E by lia. apply E. lia.
Qed.

Lemma apply_mask_from_length (m : bytes) :
  List.length m = 4%nat ->
  forall content i,
  exists out, apply_mask_from i m content = Ok out
              /\ List.length out = List.length content.
Proof.
  intros Hm. induction content as [|c rest IH]; intros i.
  - exists []. split; reflexivity.
  - cbn [apply_mask_from].
    destruct (nth_error m (Nat.modulo i 4)) as [x|] eqn:E.
    + destruct (IH (S i)) as [out [-> Hl]]. cbn [bind].
      eexists. split; [reflexivity|]. cbn [List.length]. congruence.
    + apply nth_error_None in E.
      pose proof (Nat.mod_upper_bound i 4). lia.
Qed.

Lemma apply_mask_from_involutive (m : bytes) :
  forall content i out,
  apply_mask_from i m content = Ok out ->
  apply_mask_from i m out = Ok content.
Proof.
  induction content as [|c rest IH]; intros i out H.
  - cbn [apply_mask_from] in H. inversion H. reflexivity.
  - cbn [apply_mask_from] in H.
    destruct (nth_error m (Nat.modulo i 4)) as [x|] eqn:E; [|discriminate].
    destruct (apply_mask_from (S i) m rest) as [out'|] eqn:E'; [|discriminate].
    cbn [bind] in H. inversion H; subst. cbn [apply_mask_from]. rewrite E.
    rewrite (IH _ _ E'). cbn [bind].
    rewrite Z.lxor_assoc, Z.lxor_nilpotent, Z.lxor_0_r. reflexivity.
Qed.

Lemma apply_mask_involutive (m content out : bytes) :
  apply_mask m content = Ok out -> apply_mask m out = Ok content.
Proof. apply apply_mask_from_involutive. Qed.

(* ----------------------------------------------------------------- *)
(** ** The frame codec: short payloads *)

Lemma read_all (a : bytes) :
  read (len a) (mkBinaryIO false a) = Ok (a, mkBinaryIO false []).
Proof.
  pose proof (read_app a []) as E. rewrite app_nil_r in E. exact E.
Qed.

Lemma read_4 (m rest : bytes) :
  List.length m = 4%nat ->
  read 4 (mkBinaryIO false (m ++ rest)) = Ok (m, mkBinaryIO false rest).
Proof.
  intros H. replace 4 with (len m) by (unfold len; lia). apply read_app.
Qed.

Lemma mask_flag_cases (m : option bytes) : mask_flag m = 0 \/ mask_flag m = 128.
Proof. destruct m; [right | left]; reflexivity. Qed.

Lemma decode_encoded_short (f : Frame) :
  valid_Frame f -> len (payload f) <= 125 -> decode_encoded f = Ok f.
Proof.
  intros (H1 & H2 & H3 & (o & Ho & HR) & Hp & Hm) Hlen.
  destruct f as [fin [r1 r2 r3] op pl mk]. cbn [final rsvs rsv1 rsv2 rsv3 opcode payload mask] in *.
  subst op.
  destruct (value o) as [v|] eqn:Hv; [|destruct o; try discriminate; congruence].
  destruct (header_byte fin r1 r2 r3 o v H1 H2 H3 Hv)
    as (Hb0 & Hf & Hr1 & Hr2 & Hr3 & Hop).
  assert (Hl : 0 <= len pl < 128) by (unfold len in *; lia).
  destruct (length_byte (len pl) (mask_flag mk) Hl (mask_flag_cases mk))
    as (Hb1 & Hfl & Hn).
  unfold decode_encoded, build.
  cbn [final rsvs rsv1 rsv2 rsv3 opcode payload mask opcode_operand].
  rewrite Hv. cbn [bind].
  rewrite (pack_B _ Hb0). cbn [bind].
  replace (len pl <=? 125) with true by (symmetry; apply Z.leb_le; lia).
  rewrite (pack_B _ Hb1). cbn [bind app].
  assert (Hne126 : (len pl =? 126) = false) by (apply Z.eqb_neq; lia).
  assert (Hne127 : (len pl =? 127) = false) by (apply Z.eqb_neq; lia).
  destruct mk as [m|].
  - destruct Hm as [Hm4 Hmwf].
    destruct (apply_mask_from_length m Hm4 pl 0) as [masked [Hmasked Hlm]].
    unfold apply_mask. rewrite Hmasked. cbn [bind app].
    unfold load.
    rewrite (unpack_from_B _ _ Hb0). cbn [bind item0].
    rewrite (unpack_from_B _ _ Hb1). cbn [bind item0].
    rewrite Hfl, Hn, Hne126, Hne127. cbn [bind mask_flag].
    change (truthy_int 128) with true. cbv iota.
    rewrite (read_4 _ _ Hm4). cbn [bind].
    replace (len pl) with (len masked) by (unfold len; congruence).
    rewrite read_all. cbn [bind].
    unfold apply_mask.
    rewrite (apply_mask_from_involutive _ _ _ _ Hmasked). cbn [bind].
    rewrite Hf, Hr1, Hr2, Hr3, Hop. reflexivity.
  - cbn [bind app]. unfold load.
    rewrite (unpack_from_B _ _ Hb0). cbn [bind item0].
    rewrite (unpack_from_B _ _ Hb1). cbn [bind item0].
    rewrite Hfl, Hn, Hne126, Hne127. cbn [bind mask_flag].
    change (truthy_int 0) with false. cbv iota.
    rewrite read_all. cbn [bind].
    rewrite Hf, Hr1, Hr2, Hr3, Hop. reflexivity.
Qed.

(* ----------------------------------------------------------------- *)
(** ** The frame codec: long and medium payloads *)

Lemma length_class_byte (c flag : Z) :
  c = 126 \/ c = 127 -> flag = 0 \/ flag = 128 ->
  let b1 := Z.lor c flag in
  0 <= b1 < 256 /\ Z.land b1 128 = flag /\ Z.land b1 (Z.lnot 128) = c.
Proof. intros Hc Hf. apply length_byte; lia. Qed.

Lemma decode_encoded_long (f : Frame) :
  valid_Frame f -> 65536 <= len (payload f) < 2 ^ 64 ->
  decode_encoded f = Ok f.
Proof.
  intros (H1 & H2 & H3 & (o & Ho & HR) & Hp & Hm) Hlen.
  destruct f as [fin [r1 r2 r3] op pl mk].
  cbn [final rsvs rsv1 rsv2 rsv3 opcode payload mask] in *.
  subst op.
  destruct (value o) as [v|] eqn:Hv; [|destruct o; try discriminate; congruence].
  destruct (header_byte fin r1 r2 r3 o v H1 H2 H3 Hv)
    as (Hb0 & Hf & Hr1 & Hr2 & Hr3 & Hop).
  destruct (length_class_byte 127 (mask_flag mk) (or_intror eq_refl)
                              (mask_flag_cases mk))
    as (Hb1 & Hfl & Hn).
  assert (HQ : 0 <= len pl < 2 ^ (8 * Z.of_nat (calcsize fmt_Q)))
    by (change (2 ^ (8 * Z.of_nat (calcsize fmt_Q))) with (2 ^ 64); lia).
  unfold decode_encoded, build.
  cbn [final rsvs rsv1 rsv2 rsv3 opcode payload mask opcode_operand].
  rewrite Hv. cbn [bind].
  rewrite (pack_B _ Hb0). cbn [bind].
  replace (len pl <=? 125) with false by (symmetry; apply Z.leb_gt; lia).
  replace (len pl <=? 65535) with false by (symmetry; apply Z.leb_gt; lia).
  rewrite (pack_B _ Hb1). cbn [bind].
  rewrite (pack_Ok fmt_Q _ HQ). cbn [bind].
  destruct mk as [m|].
  - destruct Hm as [Hm4 Hmwf].
    destruct (apply_mask_from_length m Hm4 pl 0) as [masked [Hmasked Hlm]].
    unfold apply_mask. rewrite Hmasked. cbn [bind]. cbn [app].
    rewrite <- !app_assoc.
    unfold load.
    rewrite (unpack_from_B _ _ Hb0). cbn [bind item0].
    rewrite (unpack_from_B _ _ Hb1). cbn [bind item0].
    rewrite Hfl, Hn. change (127 =? 126) with false.
    change (127 =? 127) with true. cbv iota.
    rewrite (unpack_from_app fmt_Q _ _ HQ). cbn [bind item0 mask_flag].
    change (truthy_int 128) with true. cbv iota.
    rewrite (read_4 _ _ Hm4). cbn [bind].
    replace (len pl) with (len masked) by (unfold len; congruence).
    rewrite read_all. cbn [bind].
    unfold apply_mask.
    rewrite (apply_mask_from_involutive _ _ _ _ Hmasked). cbn [bind].
    rewrite Hf, Hr1, Hr2, Hr3, Hop. reflexivity.
  - cbn [bind]. cbn [app]. unfold load.
    rewrite (unpack_from_B _ _ Hb0). cbn [bind item0].
    rewrite (unpack_from_B _ _ Hb1). cbn [bind item0].
    rewrite Hfl, Hn. change (127 =? 126) with false.
    change (127 =? 127) with true. cbv iota.
    rewrite (unpack_from_app fmt_Q _ _ HQ). cbn [bind item0 mask_flag].
    change (truthy_int 0) with false. cbv iota.
    rewrite read_all. cbn [bind].
    rewrite Hf, Hr1, Hr2, Hr3, Hop. reflexivity.
Qed.

Lemma read_firstn (n : Z) (bs : bytes) :
  read n (mkBinaryIO false bs)
  = Ok (firstn (Z.to_nat n) bs, mkBinaryIO false (skipn (Z.to_nat n) bs)).
Proof. reflexivity. Qed.

(** A payload of 126 to 65535 bytes comes back cut to the high byte of
    its length. *)
Lemma decode_encoded_medium (f : Frame) :
  valid_Frame f -> 126 <= len (payload f) <= 65535 ->
  exists g, decode_encoded f = Ok g
            /\ final g = final f /\ rsvs g = rsvs f /\ opcode g = opcode f
            /\ len (payload g) = len (payload f) / 256.
Proof.
  intros (H1 & H2 & H3 & (o & Ho & HR) & Hp & Hm) Hlen.
  destruct f as [fin [r1 r2 r3] op pl mk].
  cbn [final rsvs rsv1 rsv2 rsv3 opcode payload mask] in *.
  subst op.
  destruct (value o) as [v|] eqn:Hv; [|destruct o; try discriminate; congruence].
  destruct (header_byte fin r1 r2 r3 o v H1 H2 H3 Hv)
    as (Hb0 & Hf & Hr1 & Hr2 & Hr3 & Hop).
  destruct (length_class_byte 126 (mask_flag mk) (or_introl eq_refl)
                              (mask_flag_cases mk))
    as (Hb1 & Hfl & Hn).
  assert (HH : 0 <= len pl < 2 ^ (8 * Z.of_nat (calcsize fmt_H)))
    by (change (2 ^ (8 * Z.of_nat (calcsize fmt_H))) with 65536; lia).
  set (hi := len pl / 256).
  assert (Hhi : 0 <= hi < 256)
    by (unfold hi; split;
        [apply Z.div_pos; lia | apply Z.div_lt_upper_bound; lia]).
  assert (Hhi_len : hi <= len pl)
    by (unfold hi; apply Z.div_le_upper_bound; lia).
  unfold decode_encoded, build.
  cbn [final rsvs rsv1 rsv2 rsv3 opcode payload mask opcode_operand].
  rewrite Hv. cbn [bind].
  rewrite (pack_B _ Hb0). cbn [bind].
  replace (len pl <=? 125) with false by (symmetry; apply Z.leb_gt; lia).
  replace (len pl <=? 65535) with true by (symmetry; apply Z.leb_le; lia).
  rewrite (pack_B _ Hb1). cbn [bind].
  rewrite (pack_Ok fmt_H _ HH). cbn [bind calcsize be_bytes].
  fold hi. rewrite (Z.mod_small hi 256) by lia.
  destruct mk as [m|].
  - destruct Hm as [Hm4 Hmwf].
    destruct (apply_mask_from_length m Hm4 pl 0) as [masked [Hmasked Hlm]].
    unfold apply_mask. rewrite Hmasked. cbn [bind]. cbn [app].
    unfold load.
    rewrite (unpack_from_B _ _ Hb0). cbn [bind item0].
    rewrite (unpack_from_B _ _ Hb1). cbn [bind item0].
    rewrite Hfl, Hn. change (126 =? 126) with true. cbv iota.
    rewrite (unpack_from_B _ _ Hhi). cbn [bind item0 mask_flag].
    change (truthy_int 128) with true. cbv iota.
    rewrite read_firstn. cbn [bind].
    rewrite read_firstn. cbn [bind].
    set (key := firstn (Z.to_nat 4) (len pl mod 256 :: m ++ masked)).
    set (raw := firstn (Z.to_nat hi)
                       (skipn (Z.to_nat 4) (len pl mod 256 :: m ++ masked))).
    assert (Hkey : List.length key = 4%nat).
    { unfold key. rewrite length_firstn. cbn [List.length].
      rewrite length_app. change (Z.to_nat 4) with 4%nat. lia. }
    destruct (apply_mask_from_length key Hkey raw 0) as [out [Hout Hlo]].
    unfold apply_mask. rewrite Hout. cbn [bind].
    eexists. split; [reflexivity|].
    cbn [final rsvs opcode payload].
    rewrite Hf, Hr1, Hr2, Hr3, Hop. repeat split; try reflexivity.
    unfold len at 1. rewrite Hlo. unfold raw.
    rewrite length_firstn, length_skipn. cbn [List.length].
    rewrite length_app. change (Z.to_nat 4) with 4%nat.
    unfold len in *. lia.
  - cbn [bind]. cbn [app]. unfold load.
    rewrite (unpack_from_B _ _ Hb0). cbn [bind item0].
    rewrite (unpack_from_B _ _ Hb1). cbn [bind item0].
    rewrite Hfl, Hn. change (126 =? 126) with true. cbv iota.
    rewrite (unpack_from_B _ _ Hhi). cbn [bind item0 mask_flag].
    change (truthy_int 0) with false. cbv iota.
    rewrite read_firstn. cbn [bind].
    eexists. split; [reflexivity|].
    cbn [final rsvs opcode payload].
    rewrite Hf, Hr1, Hr2, Hr3, Hop. repeat split; try reflexivity.
    unfold len at 1. rewrite length_firstn. cbn [List.length].
    unfold len in *. lia.
Qed.

(** Outside the lengths 126 to 65535 the codec gives back what it was
    given. *)
Lemma decode_encoded_roundtrip (f : Frame) :
  valid_Frame f ->
  len (payload f) <= 125 \/ 65536 <= len (payload f) < 2 ^ 64 ->
  decode_encoded f = Ok f.
Proof.
  intros Hv [Hl | Hl].
  - apply decode_encoded_short; assumption.
  - apply decode_encoded_long; assumption.
Qed.

(** Inside them it never does. *)
Lemma decode_encoded_medium_differs (f : Frame) :
  valid_Frame f -> 126 <= len (payload f) <= 65535 ->
  decode_encoded f <> Ok f.
Proof.
  intros Hv Hl E.
  destruct (decode_encoded_medium f Hv Hl) as (g & Hg & _ & _ & _ & Hlen).
  rewrite E in Hg. inversion Hg; subst g.
  assert (len (payload f) / 256 < len (payload f))
    by (apply Z.div_lt; lia).
  lia.
Qed.

(* ----------------------------------------------------------------- *)
(** ** Frames on the wire, and what a computation leaves alone *)

Lemma decode_encoded_load (f g : Frame) (data : bytes) :
  build f = Ok data -> decode_encoded f = Ok g -> decodes_to data g.
Proof.
  unfold decode_encoded, decodes_to. intros -> H. cbn [bind] in H.
  destruct (load (mkBinaryIO false data)) as [[g' rest]|]; [|discriminate].
  cbn [bind] in H. inversion H; subst. exists rest. reflexivity.
Qed.

Lemma valid_Frame_build (f : Frame) :
  valid_Frame f -> len (payload f) <= 125 ->
  exists data, build f = Ok data /\ decodes_to data f.
Proof.
  intros Hv Hl. pose proof (decode_encoded_short f Hv Hl) as E.
  destruct (build f) as [data|] eqn:B.
  - exists data. split; [reflexivity|].
    apply (decode_encoded_load f f data B E).
  - unfold decode_encoded in E. rewrite B in E. discriminate.
Qed.

Lemma urandom_wf (n : nat) (e : Entropy) : wf_bytes (fst (urandom n e)).
Proof.
  unfold urandom, wf_bytes. simpl. apply Forall_forall. intros x Hx.
  apply in_map_iff in Hx. destruct Hx as [i [<- _]].
  unfold wf_byte. apply Z.mod_pos_bound. lia.
Qed.

Lemma bit_b2z (b : bool) : bit (Z.b2z b).
Proof. destruct b; [right | left]; reflexivity. Qed.

Section Frame_rules.

Context {T : Type} (f : World -> T).

Lemma keeps_bind {A B : Type} (m : M A) (k : A -> M B) :
  keeps f m -> (forall a, keeps f (k a)) -> keeps f (bindM m k).
Proof.
  intros Hm Hk w. unfold bindM. specialize (Hm w).
  destruct (m w) as [[a|e] w1]; cbn [snd] in *.
  - rewrite (Hk a w1). exact Hm.
  - exact Hm.
Qed.

Lemma keeps_ret {A : Type} (a : A) : keeps f (ret a).
Proof. intros w. reflexivity. Qed.

Lemma keeps_raise {A : Type} (e : exn) : keeps f (@raise A e).
Proof. intros w. reflexivity. Qed.

Lemma keeps_lift {A : Type} (r : result A) : keeps f (lift r).
Proof. intros w. reflexivity. Qed.

Lemma keeps_get_client : keeps f get_client.
Proof. intros w. reflexivity. Qed.

Lemma keeps_if {A : Type} (b : bool) (m1 m2 : M A) :
  keeps f m1 -> keeps f m2 -> keeps f (if b then m1 else m2).
Proof. destruct b; auto. Qed.

End Frame_rules.

Section Raise_rules.

Variable e : exn.

Lemma never_bind {A B : Type} (m : M A) (k : A -> M B) :
  never_raises e m -> (forall a, never_raises e (k a)) ->
  never_raises e (bindM m k).
Proof.
  intros Hm Hk w. unfold bindM. specialize (Hm w).
  destruct (m w) as [[a|e'] w1]; cbn [fst] in *.
  - apply Hk.
  - intros E. apply Hm. inversion E. reflexivity.
Qed.

Lemma never_ret {A : Type} (a : A) : never_raises e (ret a).
Proof. intros w. discriminate. Qed.

Lemma never_if {A : Type} (b : bool) (m1 m2 : M A) :
  never_raises e m1 -> never_raises e m2 ->
  never_raises e (if b then m1 else m2).
Proof. destruct b; auto. Qed.

End Raise_rules.

Ltac frame_step :=
  first
    [ apply keeps_bind; [|intros ?]
    | apply keeps_ret | apply keeps_raise | apply keeps_lift
    | apply keeps_get_client
    | apply keeps_if ].

Lemma keeps_trigger {T : Type} (g : Client -> T) (h : hook) :
  keeps (fun w => g (client w)) (trigger h).
Proof. intros w. reflexivity. Qed.

Lemma keeps_record_call {T : Type} (g : Client -> T) (ev : event) :
  keeps (fun w => g (client w)) (record_call ev).
Proof. intros w. reflexivity. Qed.

Lemma keeps_os_urandom {T : Type} (g : Client -> T) (n : nat) :
  keeps (fun w => g (client w)) (os_urandom n).
Proof. intros w. reflexivity. Qed.

Lemma keeps_with_entropy {T A : Type} (g : Client -> T)
    (k : Entropy -> result A * Entropy) :
  keeps (fun w => g (client w)) (with_entropy k).
Proof.
  intros w. unfold with_entropy. destruct (k (entropy w)). reflexivity.
Qed.

Lemma keeps_modify_client {T : Type} (g : Client -> T)
    (h : Client -> Client) :
  (forall c, g (h c) = g c) ->
  keeps (fun w => g (client w)) (modify_client h).
Proof. intros H w. cbn. apply H. Qed.

Lemma keeps_socket_send {T : Type} (g : Client -> T) (data : bytes) :
  (forall s c, g (set_socket s c) = g c) ->
  keeps (fun w => g (client w)) (socket_send data).
Proof.
  intros H. unfold socket_send. frame_step; [frame_step|].
  frame_step; [|frame_step]. apply keeps_modify_client. intros c. apply H.
Qed.

Lemma keeps_send_control {T : Type} (g : Client -> T) (cls : FrameClass)
    (b : list Extension -> Entropy -> result bytes * Entropy) :
  (forall s c, g (set_socket s c) = g c) ->
  keeps (fun w => g (client w)) (send_control cls b).
Proof.
  intros H. unfold send_control.
  frame_step; [apply keeps_trigger|].
  frame_step; [frame_step|].
  frame_step; [apply keeps_with_entropy|].
  apply keeps_socket_send. exact H.
Qed.

(** [close] changes nothing of the client but its status and its
    transport. *)
Lemma keeps_close {T : Type} (g : Client -> T) (code : Z)
    (reason : option str) :
  beside_status_and_socket g ->
  keeps (fun w => g (client w)) (close code reason).
Proof.
  intros [Hs Hk]. unfold close, enum_truthy. cbv iota.
  frame_step; [frame_step|].
  frame_step.
  - frame_step.
    + frame_step; [apply keeps_os_urandom | frame_step].
    + frame_step.
  - frame_step; [apply keeps_send_control; exact Hk|].
    apply keeps_modify_client. intros c. apply Hs.
Qed.

Lemma keeps_close_constructor (code : Z) (reason : option str) :
  keeps (fun w => constructor (client w)) (close code reason).
Proof. apply keeps_close. split; reflexivity. Qed.

Lemma keeps_close_extensions (code : Z) (reason : option str) :
  keeps (fun w => extensions (client w)) (close code reason).
Proof. apply keeps_close. split; reflexivity. Qed.

(** The transport is written to, never closed. *)
Lemma keeps_close_sock_closed (code : Z) (reason : option str) :
  keeps (fun w => sock_closed (socket (client w))) (close code reason).
Proof.
  unfold close, enum_truthy. cbv iota.
  frame_step; [frame_step|].
  frame_step.
  - frame_step.
    + frame_step; [intros w; reflexivity | frame_step].
    + frame_step.
  - frame_step.
    + unfold send_control.
      frame_step; [intros w; reflexivity|].
      frame_step; [frame_step|].
      frame_step.
      * intros w. unfold with_entropy. destruct (Close_build _ _ _ _ _).
        reflexivity.
      * intros w. unfold socket_send, bindM, get_client. cbn [fst snd].
        destruct (writable (socket (client w))); reflexivity.
    + intros w. reflexivity.
Qed.

(* ----------------------------------------------------------------- *)
(** ** [close] *)

Lemma foreign_bind {A B : Type} (r : result A) (k : A -> result B) :
  foreign r -> (forall a, foreign (k a)) -> foreign (bind r k).
Proof.
  intros Hr Hk e. destruct r as [a|e']; cbn [bind].
  - apply Hk.
  - intros E. inversion E; subst. apply Hr. reflexivity.
Qed.

Lemma foreign_Ok {A : Type} (a : A) : foreign (Ok a).
Proof. intros e E. discriminate. Qed.

Lemma foreign_pack (f : fmt) (v : Z) : foreign (pack f v).
Proof.
  unfold pack. destruct (_ && _); intros e E; inversion E; reflexivity.
Qed.

Lemma foreign_apply_mask_from (m content : bytes) (i : nat) :
  foreign (apply_mask_from i m content).
Proof.
  revert i. induction content as [|c rest IH]; intros i;
    cbn [apply_mask_from].
  - apply foreign_Ok.
  - destruct (nth_error m (Nat.modulo i 4)).
    + apply foreign_bind; [apply IH | intros; apply foreign_Ok].
    + intros e E. inversion E. reflexivity.
Qed.

Lemma foreign_utf8_encode (s : str) : foreign (utf8_encode s).
Proof.
  induction s as [|c rest IH]; cbn [utf8_encode].
  - apply foreign_Ok.
  - apply foreign_bind.
    + unfold utf8_encode_char.
      repeat match goal with
             | |- foreign (if ?b then _ else _) => destruct b
             end; try apply foreign_Ok; intros e E; inversion E; reflexivity.
    + intros b. apply foreign_bind; [exact IH | intros; apply foreign_Ok].
Qed.

Lemma foreign_build (f : Frame) : foreign (build f).
Proof.
  unfold build. apply foreign_bind.
  - unfold opcode_operand. destruct (opcode f) as [o|];
      [destruct (value o)|]; try apply foreign_Ok;
      intros e E; inversion E; reflexivity.
  - intros op. apply foreign_bind; [apply foreign_pack|]. intros b0.
    apply foreign_bind.
    + destruct (_ <=? 125); [|destruct (_ <=? 65535)];
        repeat (apply foreign_bind; [apply foreign_pack | intros ?]);
        apply foreign_Ok.
    + intros frame. destruct (mask f).
      * apply foreign_bind; [apply foreign_apply_mask_from|].
        intros; apply foreign_Ok.
      * apply foreign_Ok.
Qed.

Lemma foreign_Close_payload (code : option Z) (reason : option str) :
  foreign (Close_payload code reason).
Proof.
  unfold Close_payload. destruct code as [c|]; [|apply foreign_Ok].
  destruct (truthy_int c); [|apply foreign_Ok].
  apply foreign_bind; [apply foreign_pack|]. intros p.
  destruct reason as [[|x r]|]; try apply foreign_Ok.
  apply foreign_bind; [apply foreign_utf8_encode|].
  intros; apply foreign_Ok.
Qed.

Lemma foreign_Close_build (extensions : list Extension)
    (mask : option bytes) (code : option Z) (reason : option str)
    (e : Entropy) :
  foreign (fst (Close_build extensions mask code reason e)).
Proof.
  unfold Close_build.
  pose proof (foreign_Close_payload code reason) as Hp.
  destruct (Close_payload code reason) as [p|ex]; cbn [fst].
  - unfold ControlFrame_build.
    destruct mask as [[|x m]|]; cbn [fst]; apply foreign_build.
  - exact Hp.
Qed.

(** [close] raises [AlreadyClosed] in no state at all. *)
Lemma close_never_AlreadyClosed (code : Z) (reason : option str) :
  never_raises AlreadyClosed (close code reason).
Proof.
  unfold close, enum_truthy. cbv iota.
  apply never_bind; [intros w; discriminate | intros c].
  apply never_bind.
  { apply never_if.
    - apply never_bind; [intros w; discriminate | intros m].
      apply never_ret.
    - apply never_ret. }
  intros mask. apply never_bind; [|intros ? w; discriminate].
  unfold send_control.
  apply never_bind; [intros w; discriminate | intros _].
  apply never_bind; [intros w; discriminate | intros c'].
  apply never_bind.
  - intros w E. unfold with_entropy in E.
    pose proof (foreign_Close_build (extensions c') mask (Some code)
                                    reason (entropy w)) as F.
    destruct (Close_build _ _ _ _ _) as [r e']. cbn [fst] in *.
    specialize (F AlreadyClosed E). discriminate.
  - intros data. unfold socket_send.
    apply never_bind; [intros w; discriminate | intros c''].
    apply never_if; intros w; discriminate.
Qed.

Ltac run :=
  unfold close_default, close, send_control, socket_send, socket_close,
    trigger, os_urandom, with_entropy, modify_client, record_call,
    get_client, bindM, ret, raise, lift, enum_truthy, Close_build,
    ControlFrame_build.

(** What [close] does on a writable transport. *)
Lemma close_sends (code : Z) (reason : option str) (p : bytes)
    (w : World) :
  writable (socket (client w)) = true ->
  Close_payload (Some code) reason = Ok p ->
  wf_bytes p -> len p <= 125 ->
  exists w', close code reason w = (Ok tt, w') /\ sent_close p w w'.
Proof.
  intros Hw Hp Hwf Hlen. run. destruct w as [c evs e].
  cbn [client calls entropy] in *.
  rewrite Hp.
  set (rs := mkExtensionRsvs
               (Z.b2z (set_by_extensions (extensions c) 0 class_Close))
               (Z.b2z (set_by_extensions (extensions c) 1 class_Close))
               (Z.b2z (set_by_extensions (extensions c) 2 class_Close))).
  destruct (negb (is_secure c)).
  - cbn [urandom fst snd map seq client calls entropy source
         consumed].
    set (e2 := mkEntropy (source e) (consumed e + 4)).
    set (m := fst (urandom 4 e2)).
    assert (Hv : valid_Frame (mkFrame true rs (Some CLOSE) p (Some m))).
    { unfold valid_Frame.
      cbn [rsvs rsv1 rsv2 rsv3 opcode payload mask rs].
      repeat split; try apply bit_b2z; try exact Hwf;
        try apply urandom_wf.
      exists CLOSE. split; [reflexivity | discriminate]. }
    destruct (valid_Frame_build _ Hv Hlen) as [data [Hb Hd]].
    match goal with
    | |- context [build ?f] =>
        change (build f)
          with (build (mkFrame true rs (Some CLOSE) p (Some m)))
    end.
    rewrite Hb. rewrite Hw.
    eexists. split; [reflexivity|].
    exists data, (mkFrame true rs (Some CLOSE) p (Some m)).
    cbn. repeat split; try reflexivity. exact Hd.
  - cbn [fst snd client calls entropy].
    assert (Hv : valid_Frame (mkFrame true rs (Some CLOSE) p None)).
    { unfold valid_Frame.
      cbn [rsvs rsv1 rsv2 rsv3 opcode payload mask rs].
      repeat split; try apply bit_b2z; try exact Hwf.
      exists CLOSE. split; [reflexivity | discriminate]. }
    destruct (valid_Frame_build _ Hv Hlen) as [data [Hb Hd]].
    match goal with
    | |- context [build ?f] =>
        change (build f) with (build (mkFrame true rs (Some CLOSE) p None))
    end.
    rewrite Hb. rewrite Hw.
    eexists. split; [reflexivity|].
    exists data, (mkFrame true rs (Some CLOSE) p None).
    cbn. repeat split; try reflexivity. exact Hd.
Qed.

(* ----------------------------------------------------------------- *)
(** ** [verify] and [recv_frame] *)

Lemma recv_frame_rejected (frame : Frame) (reason : option str)
    (w : World) :
  verify (client w) frame = Ok (false, reason) ->
  recv_frame frame w = close 1002 reason w.
Proof.
  intros H. unfold recv_frame, bindM, get_client, lift. rewrite H.
  reflexivity.
Qed.

(** An exception of [verify] leaves [recv_frame] before anything is
    done. *)
Lemma recv_frame_verify_raises (frame : Frame) (e : exn) (w : World) :
  verify (client w) frame = Raise e ->
  recv_frame frame w = (Raise e, w).
Proof.
  intros H. unfold recv_frame, bindM, get_client, lift. rewrite H.
  reflexivity.
Qed.

Lemma verify_unknown_opcode (c : Client) (frame : Frame) :
  opcode frame = None ->
  verify c frame = Raise TypeError.
Proof.
  intros H. unfold verify. rewrite H. cbn [opcode_is andb in_FrameOpcode].
  destruct (last_frame (constructor c)); reflexivity.
Qed.

Lemma verify_continuation_first (c : Client) (frame : Frame) :
  opcode frame = Some CONTINUATION ->
  last_frame (constructor c) = None ->
  verify c frame = Ok (false, Some first_continuation_reason).
Proof. intros H1 H2. unfold verify. rewrite H1, H2. reflexivity. Qed.

Lemma verify_continuation_after_ping (c : Client) (frame last : Frame) :
  opcode frame = Some CONTINUATION ->
  last_frame (constructor c) = Some last ->
  opcode last = Some PING ->
  verify c frame = Ok (false, Some control_continuation_reason).
Proof.
  intros H1 H2 H3. unfold verify. rewrite H1, H2, H3. reflexivity.
Qed.

Lemma recv_frame_ping (frame : Frame) (w : World) :
  opcode frame = Some PING ->
  verified (client w) frame = true ->
  recv_frame frame w
  = (Ok tt,
     mkWorld (set_constructor
                (set_last_frame frame (constructor (client w))) (client w))
             (calls w ++ ping_calls w frame)
             (entropy w)).
Proof.
  intros Ho Hv. unfold recv_frame, bindM, get_client, lift.
  unfold verified in Hv.
  destruct (verify (client w) frame) as [[good reason]|ex]; [|discriminate].
  subst good. cbn [negb]. rewrite Ho. cbn [opcode_is FrameOpcode_eqb orb].
  unfold trigger, record_call, modify_client, ping_calls.
  cbn [client calls entropy]. rewrite <- app_assoc. reflexivity.
Qed.

Lemma keeps_Client_on_close {T : Type} (g : Client -> T) (c : Close) :
  beside_status_and_socket g ->
  (forall r k, g (set_close_reason r k) = g k) ->
  keeps (fun w => g (client w)) (Client_on_close c).
Proof.
  intros Hg Hr. unfold Client_on_close, close_default.
  frame_step; [apply keeps_modify_client; intros; apply Hr|].
  frame_step; [apply keeps_modify_client; intros; apply Hg|].
  apply keeps_close. exact Hg.
Qed.

(** A frame that fails [verify] leaves the assembler as it was. *)
Lemma recv_frame_rejected_keeps (frame : Frame) (w : World) :
  verified (client w) frame = false ->
  constructor (client (snd (recv_frame frame w))) = constructor (client w)
  /\ extensions (client (snd (recv_frame frame w))) = extensions (client w).
Proof.
  intros H. unfold verified in H.
  destruct (verify (client w) frame) as [[good reason]|ex] eqn:E.
  - subst good. rewrite (recv_frame_rejected frame reason w E). split.
    + apply (keeps_close_constructor 1002 reason w).
    + apply (keeps_close_extensions 1002 reason w).
  - rewrite (recv_frame_verify_raises frame ex w E). split; reflexivity.
Qed.

(** [verify] reads the assembler and the extensions, nothing else. *)
Lemma verify_depends (c c' : Client) (frame : Frame) :
  constructor c' = constructor c -> extensions c' = extensions c ->
  verify c' frame = verify c frame.
Proof. intros H1 H2. unfold verify. rewrite H1, H2. reflexivity. Qed.

(** A Continuation frame is never added to the pending fragments. *)
Lemma recv_frame_continuation_pending (frame : Frame) :
  opcode frame = Some CONTINUATION ->
  keeps (fun w => frame_setup (constructor (client w))) (recv_frame frame).
Proof.
  intros Ho. unfold recv_frame.
  frame_step; [frame_step|].
  frame_step; [frame_step|].
  destruct a0 as [[|] reason]; cbn [negb].
  - rewrite Ho. cbn [opcode_is FrameOpcode_eqb orb].
    frame_step.
    + frame_step; [frame_step|].
      frame_step; [apply (keeps_trigger (fun c => frame_setup (constructor c)))|].
      apply (keeps_Client_on_close (fun c => frame_setup (constructor c))).
      * split; reflexivity.
      * reflexivity.
    + apply (keeps_modify_client (fun c => frame_setup (constructor c))).
      reflexivity.
  - apply (keeps_close (fun c => frame_setup (constructor c))).
    split; reflexivity.
Qed.

(** No frame ever empties the pending fragments: they stay, possibly
    with the frame added. *)
Lemma recv_frame_pending_grows (frame : Frame) (w : World) :
  let pending w := frame_setup (constructor (client w)) in
  pending (snd (recv_frame frame w)) = pending w
  \/ pending (snd (recv_frame frame w)) = pending w ++ [frame].
Proof.
  cbv zeta.
  destruct (opcode_is (opcode frame) TEXT || opcode_is (opcode frame) BINARY)
    eqn:Hd.
  2:{ left. revert w. change (keeps (fun w => frame_setup (constructor (client w)))
                                   (recv_frame frame)).
      unfold recv_frame. frame_step; [frame_step|].
      frame_step; [frame_step|].
      destruct a0 as [[|] reason]; cbn [negb].
      - rewrite Hd. frame_step.
        + repeat match goal with
                 | |- keeps _ (if ?b then _ else _) => destruct b
                 end.
          * frame_step; [apply (keeps_trigger (fun c => frame_setup (constructor c)))|].
            apply (keeps_record_call (fun c => frame_setup (constructor c))).
          * frame_step; [apply (keeps_trigger (fun c => frame_setup (constructor c)))|].
            apply (keeps_record_call (fun c => frame_setup (constructor c))).
          * frame_step; [frame_step|].
            frame_step; [apply (keeps_trigger (fun c => frame_setup (constructor c)))|].
            apply (keeps_Client_on_close (fun c => frame_setup (constructor c)));
              [split; reflexivity | reflexivity].
        + apply (keeps_modify_client (fun c => frame_setup (constructor c))).
          reflexivity.
      - apply (keeps_close (fun c => frame_setup (constructor c))).
        split; reflexivity. }
  remember (recv_frame frame w) as out eqn:E.
  unfold recv_frame in E. unfold bindM at 1 in E. unfold get_client in E.
  cbv beta iota in E. unfold bindM at 1 in E. unfold lift at 1 in E.
  destruct (verify (client w) frame) as [[[|] reason]|ex]; cbn [negb] in E.
  3:{ left. subst out. reflexivity. }
  - right. rewrite Hd in E.
    unfold bindM at 1 in E. unfold bindM at 1 in E.
    unfold modify_client at 1 in E. cbv beta iota in E.
    set (w1 := mkWorld (set_constructor
                          (append_frame frame (constructor (client w)))
                          (client w)) (calls w) (entropy w)) in *.
    assert (H1 : frame_setup (constructor (client w1))
                 = frame_setup (constructor (client w)) ++ [frame])
      by reflexivity.
    rewrite <- H1.
    match type of E with
    | context [match ?m w1 with _ => _ end] =>
        assert (K : keeps (fun w => frame_setup (constructor (client w))) m)
    end.
    { destruct (final frame); [|frame_step].
      frame_step; [frame_step|].
      frame_step; [frame_step|].
      frame_step; [apply (keeps_trigger (fun c => frame_setup (constructor c)))|].
      apply (keeps_record_call (fun c => frame_setup (constructor c))). }
    specialize (K w1).
    match type of E with
    | context [match ?m w1 with _ => _ end] => destruct (m w1) as [[u|e] w2]
    end; cbn [snd] in *; subst out; cbn [snd]; exact K.
  - left. subst out.
    apply (keeps_close (fun c => frame_setup (constructor c))).
    split; reflexivity.
Qed.

(** Two text messages of one frame each: the second callback receives
    both texts, and both frames are still pending. *)
Lemma pending_kept_after_message :
  let w' := snd (recv_frames [whole_text "a"; whole_text "b"]
                             (established [])) in
  calls w'
  = [client_called (on_message (mkMessage class_str (data_str (lit "a"))));
     client_called (on_message (mkMessage class_str (data_str (lit "ab"))))]
  /\ frame_setup (constructor (client w'))
     = [whole_text "a"; whole_text "b"].
Proof. vm_compute. split; reflexivity. Qed.

(* ----------------------------------------------------------------- *)
(** ** Where the code and the specification part *)

Lemma new_client_init (extensions : list Extension) :
  instantiate extensions = Ok extensions ->
  Client_init sample_libraries (lit "ws://example.com/chat") extensions
              None None None
  = Ok (new_client extensions).
Proof. intros H. unfold Client_init. cbn. rewrite H. reflexivity. Qed.

(** C1.  The code departs from the claim for every payload of 126 to
    65535 bytes.  A final Text frame of 126 bytes is encoded with the
    two-byte length 0, 126; [load] reads a single length byte, the 0,
    and so decodes the frame with an empty payload.  With 65535 bytes
    the decoded payload has 255 bytes. *)
Theorem load_build_loses_medium_payload :
  decode_encoded (text_frame 126) = Ok (text_frame 0)
  /\ (exists g, decode_encoded (text_frame (Z.to_nat 65535)) = Ok g
                /\ len (payload g) = 255).
Proof.
  split.
  - vm_compute. reflexivity.
  - assert (H : (g <- decode_encoded (text_frame (Z.to_nat 65535)) ;;
                 Ok (len (payload g))) = Ok 255)
      by (vm_compute; reflexivity).
    destruct (decode_encoded (text_frame (Z.to_nat 65535))) as [g|e];
      [|discriminate].
    exists g. split; [reflexivity|].
    cbn [bind] in H. inversion H. reflexivity.
Qed.

(** C2.  The code departs from the claim.  On an established connection
    with one extension, the three fragments of a text leave only the
    first fragment in the pending buffer; each Continuation frame is
    handed to [on_close] as if it were a Close frame, a Close frame is
    written back for each, no [on_message] call is made, and the buffer
    is not cleared. *)
Theorem recv_frame_fragments_not_assembled :
  let w' := snd (recv_frames [fragment_1; fragment_2; fragment_3]
                             (established [plain_extension])) in
  fst (recv_frames [fragment_1; fragment_2; fragment_3]
                   (established [plain_extension])) = Ok tt
  /\ frame_setup (constructor (client w')) = [fragment_1]
  /\ calls w'
     = [extension_called 0
          (on_close (mkClose (Some CONTINUATION) (lit "lo ")
                             (Some [27759]) (Some (lit "lo"))));
        extension_called 0 (before_control_frame class_Close);
        extension_called 0
          (on_close (mkClose (Some CONTINUATION) (lit "World")
                             (Some [22383]) (Some (lit "Wo"))));
        extension_called 0 (before_control_frame class_Close)]
  /\ status (client w') = CLOSING
  /\ sock_sent (socket (client w'))
     = [default_close_bytes; default_close_bytes].
Proof. vm_compute. repeat split; reflexivity. Qed.

(** C3.  The code departs from the claim.  [close] tests the enum
    members, not the status: in no state does it raise [AlreadyClosed]
    or close the transport, and on a connected transport it writes a
    Close frame and sets the status to [CLOSING] whatever the status
    was, [CONNECTING], [CLOSING] and [CLOSED] included.  On a client
    that was never connected the attempt to write raises [OSError]. *)
Theorem close_ignores_status :
  (forall w code reason,
      fst (close code reason w) <> Raise AlreadyClosed
      /\ sock_closed (socket (client (snd (close code reason w))))
         = sock_closed (socket (client w)))
  /\ (forall s,
         let w := connection [] s (mkWSConstructor [] None) in
         fst (close_default w) = Ok tt
         /\ status (client (snd (close_default w))) = CLOSING
         /\ socket (client (snd (close_default w)))
            = mkSocket true false [default_close_bytes])
  /\ fst (close_default (new_world [])) = Raise OSError.
Proof.
  split; [|split].
  - intros w code reason. split.
    + apply close_never_AlreadyClosed.
    + apply (keeps_close_sock_closed code reason w).
  - intros s; destruct s; vm_compute; repeat split; reflexivity.
  - vm_compute. reflexivity.
Qed.

(** C4.  The code departs from the claim when a reason follows the
    code: [Close.load] decodes the two code bytes again instead of the
    bytes after them.  For the payload 1000, "bye" those two bytes are
    not UTF-8 and building the Close object raises; for the payload
    4096, "bye" the reason is the two code bytes, not "bye". *)
Theorem Close_load_reason_is_code_bytes :
  Close_init (close_frame ([3; 232] ++ lit "bye"))
  = Raise UnicodeDecodeError
  /\ Close_init (close_frame ([16; 0] ++ lit "bye"))
     = Ok (mkClose (Some CLOSE) ([16; 0] ++ lit "bye") (Some [4096])
                   (Some [16; 0])).
Proof. split; vm_compute; reflexivity. Qed.

(** What does hold for Close payloads: two bytes give the code and no
    reason, none gives neither. *)
Lemma Close_load_two_bytes (hi lo : Z) :
  Close_init (close_frame [hi; lo])
  = Ok (mkClose (Some CLOSE) [hi; lo] (Some [hi * 256 + lo]) None).
Proof. reflexivity. Qed.

Lemma Close_load_empty :
  Close_init (close_frame [])
  = Ok (mkClose (Some CLOSE) [] None None).
Proof. reflexivity. Qed.

(** With more than two bytes, the reason never depends on the bytes
    after the code. *)
Lemma Close_load_ignores_tail (hi lo : Z) (tail tail' : bytes) :
  tail <> [] -> tail' <> [] ->
  match Close_init (close_frame (hi :: lo :: tail)),
        Close_init (close_frame (hi :: lo :: tail')) with
  | Ok c, Ok c' => reason c = reason c' /\ code c = code c'
  | Raise e, Raise e' => e = e'
  | _, _ => False
  end.
Proof.
  intros H H'. destruct tail as [|t ts]; [congruence|].
  destruct tail' as [|t' ts']; [congruence|].
  unfold Close_init, Close_load, close_frame.
  cbn [close_raw_data close_type payload opcode reason code].
  replace (len (hi :: lo :: t :: ts) >? 2) with true
    by (symmetry; apply Z.gtb_lt; unfold len; cbn [List.length]; lia).
  replace (len (hi :: lo :: t' :: ts') >? 2) with true
    by (symmetry; apply Z.gtb_lt; unfold len; cbn [List.length]; lia).
  cbn [firstn]. cbn [unpack List.length calcsize Nat.eqb bind].
  destruct (utf8_decode [hi; lo]); cbn [bind reason code]; auto.
Qed.

(** C5.  The code departs from the claim.  The lookup in the chained
    dictionaries stops at the first extension: with a plain extension
    registered before one that claims RSV1, a frame with RSV1 set is
    rejected and the connection is closed; with the two registered in
    the other order the same frame is accepted. *)
Theorem verify_asks_first_extension_only :
  let w := established [plain_extension; rsv1_extension] in
  verify (client w) rsv1_frame
  = Ok (false, Some (lit "Used frame-rsv1 without proper extension"))
  /\ status (client (snd (recv_frame rsv1_frame w))) = CLOSING
  /\ frame_setup (constructor (client (snd (recv_frame rsv1_frame w)))) = []
  /\ verify (client (established [rsv1_extension; plain_extension]))
            rsv1_frame
     = Ok (true, None).
Proof. vm_compute. repeat split; reflexivity. Qed.

(** Only the first registered extension is ever consulted. *)
Lemma verify_first_extension (c : Client) (e : Extension)
    (rest : list Extension) (frame : Frame) :
  verify (set_extensions (e :: rest) c) frame
  = verify (set_extensions [e] c) frame.
Proof. reflexivity. Qed.

(** What does hold for reserved bits: a bit that no extension claims is
    refused. *)
Lemma verify_unclaimed_rsv1 (c : Client) (frame : Frame) :
  forallb (fun e => negb (RSV1 e)) (extensions c) = true ->
  rsv1 (rsvs frame) <> 0 ->
  verified c frame = false.
Proof.
  intros Hn Hr. unfold verified, verify.
  destruct (match last_frame (constructor c) with
            | Some _ => _ | None => _ end); [reflexivity|].
  destruct (in_FrameOpcode (opcode frame)) as [[|]|ex]; cbn [bind negb];
    [|reflexivity|reflexivity].
  assert (E : truthy_opt_bool
                (ChainMap_get (map rsv_dict (extensions c)) "R1") = false).
  { destruct (extensions c) as [|e rest]; [reflexivity|].
    cbn in Hn. apply andb_true_iff in Hn. destruct Hn as [Hn _].
    cbn. destruct (RSV1 e); [discriminate | reflexivity]. }
  rewrite E. cbn [negb andb].
  replace (truthy_int (rsv1 (rsvs frame))) with true; [reflexivity|].
  unfold truthy_int. symmetry. apply negb_true_iff. apply Z.eqb_neq. exact Hr.
Qed.

(* ----------------------------------------------------------------- *)
(** ** Frames that are turned down *)

Lemma str_eqb_eq (a b : str) : str_eqb a b = true <-> a = b.
Proof.
  unfold str_eqb. destruct (list_eq_dec Z.eq_dec a b); split; congruence.
Qed.

Lemma from_value_unknown (v : Z) :
  0 <= v < 16 -> ~ In v known_opcode_values -> from_value v = None.
Proof.
  intros Hv Hn. unfold known_opcode_values in Hn. cbn [In] in Hn.
  assert (H : v = 3 \/ v = 4 \/ v = 5 \/ v = 6 \/ v = 7 \/ v = 11
              \/ v = 12 \/ v = 13 \/ v = 14 \/ v = 15) by lia.
  repeat (destruct H as [-> | H]; [reflexivity|]). subst. reflexivity.
Qed.

(** A frame that [verify] refuses with one of its reasons is answered
    by a Close frame with code 1002 and that reason. *)
Lemma rejected_sends_1002 (reason : str) (frame : Frame) (w : World) :
  verify (client w) frame = Ok (false, Some reason) ->
  writable (socket (client w)) = true ->
  Close_payload (Some 1002) (Some reason)
  = Ok (protocol_error_payload reason) ->
  wf_bytes (protocol_error_payload reason) ->
  len (protocol_error_payload reason) <= 125 ->
  rejected_1002 reason frame w.
Proof.
  intros Hv Hw Hp Hwf Hl. split; [exact Hv|].
  rewrite (recv_frame_rejected frame (Some reason) w Hv).
  apply (close_sends 1002 (Some reason) _ w Hw Hp Hwf Hl).
Qed.

Ltac reason_facts :=
  apply Forall_forall; intros x Hx; vm_compute in Hx;
  repeat (destruct Hx as [<- | Hx]; [unfold wf_byte; lia|]);
  contradiction.

(** The reason "Unknown opcode used." is never given: when the test of
    the opcode returns at all, it says that the opcode is known. *)
Lemma verify_never_unknown_opcode (c : Client) (frame : Frame) :
  verify c frame <> Ok (false, Some unknown_opcode_reason).
Proof.
  unfold verify.
  destruct (last_frame (constructor c)) as [last|].
  - destruct (opcode_is (opcode frame) CONTINUATION
              && (opcode_is (opcode last) PING
                  || opcode_is (opcode last) PONG
                  || opcode_is (opcode last) CLOSE));
      [intros H; vm_compute in H; discriminate|].
    destruct (opcode_is (opcode frame) CONTINUATION && final last);
      [intros H; vm_compute in H; discriminate|].
    destruct (opcode frame) as [o|]; cbn [in_FrameOpcode bind negb];
      [|discriminate].
    repeat match goal with
           | |- (if ?b then _ else _) <> _ => destruct b
           end; intros H; vm_compute in H; discriminate.
  - destruct (opcode_is (opcode frame) CONTINUATION);
      [intros H; vm_compute in H; discriminate|].
    destruct (opcode frame) as [o|]; cbn [in_FrameOpcode bind negb];
      [|discriminate].
    repeat match goal with
           | |- (if ?b then _ else _) <> _ => destruct b
           end; intros H; vm_compute in H; discriminate.
Qed.

(** C6.  The code departs from the claim.  A frame whose opcode field is
    none of the six known values reaches [recv_frame] with the opcode
    [None], and the test [frame.opcode not in FrameOpcode] of [verify]
    raises [TypeError] on it: [verify] and [recv_frame] raise in every
    state of the connection, so no Close frame is written, and the
    status, the assembler and the hooks are left alone.  The exception
    also leaves the read loop, which catches [struct.error] only.  The
    reason "Unknown opcode used." is never given to any frame. *)
Theorem unknown_opcode_raises_TypeError (v : Z) (frame : Frame)
    (w : World) :
  0 <= v < 16 -> ~ In v known_opcode_values ->
  opcode frame = from_value v ->
  verify (client w) frame = Raise TypeError
  /\ recv_frame frame w = (Raise TypeError, w)
  /\ (forall stream rest fuel,
        load stream = Ok (frame, rest) ->
        collect_frames (S fuel) stream w = Some (Raise TypeError, w))
  /\ forall c other, verify c other <> Ok (false, Some unknown_opcode_reason).
Proof.
  intros Hv Hn Ho. rewrite (from_value_unknown v Hv Hn) in Ho.
  pose proof (verify_unknown_opcode (client w) frame Ho) as Hr.
  pose proof (recv_frame_verify_raises frame TypeError w Hr) as Hf.
  split; [exact Hr|]. split; [exact Hf|]. split.
  - intros stream rest fuel Hl. cbn [collect_frames]. rewrite Hl, Hf.
    reflexivity.
  - apply verify_never_unknown_opcode.
Qed.

Lemma unknown_opcode_raises_TypeError_witness :
  verify (client (established [])) unknown_frame = Raise TypeError
  /\ recv_frame unknown_frame (established [])
     = (Raise TypeError, established [])
  /\ (forall stream rest fuel,
        load stream = Ok (unknown_frame, rest) ->
        collect_frames (S fuel) stream (established [])
        = Some (Raise TypeError, established []))
  /\ forall c other, verify c other <> Ok (false, Some unknown_opcode_reason).
Proof.
  apply (unknown_opcode_raises_TypeError 3 unknown_frame (established [])).
  - lia.
  - vm_compute. intuition discriminate.
  - reflexivity.
Defined.

(** The bytes 83 01 78, a final frame with opcode field 3 and the
    payload "x", on an established connection: the read loop ends with
    [TypeError], and nothing was written. *)
Lemma unknown_opcode_ends_read_loop :
  load (mkBinaryIO false [131; 1; 120])
  = Ok (unknown_frame, mkBinaryIO false [])
  /\ collect_frames 2 (mkBinaryIO false [131; 1; 120]) (established [])
     = Some (Raise TypeError, established []).
Proof. split; vm_compute; reflexivity. Qed.

(** C7.  A Continuation frame that arrives first, or right after an
    accepted Ping, is refused by [verify]; on a writable transport the
    connection is closed with a Close frame of code 1002. *)
Theorem continuation_out_of_place_closes_1002 (frame : Frame) (w : World) :
  opcode frame = Some CONTINUATION ->
  writable (socket (client w)) = true ->
  (last_frame (constructor (client w)) = None ->
   rejected_1002 first_continuation_reason frame w)
  /\ (forall ping,
         opcode ping = Some PING ->
         verified (client w) ping = true ->
         exists w1,
           recv_frame ping w = (Ok tt, w1)
           /\ last_frame (constructor (client w1)) = Some ping
           /\ rejected_1002 control_continuation_reason frame w1).
Proof.
  intros Ho Hw. split.
  - intros Hl. apply rejected_sends_1002; try assumption.
    + apply verify_continuation_first; assumption.
    + vm_compute. reflexivity.
    + reason_facts.
    + vm_compute. discriminate.
  - intros ping Hp Hv. eexists. split; [apply recv_frame_ping; assumption|].
    split; [reflexivity|].
    apply rejected_sends_1002.
    + apply (verify_continuation_after_ping _ frame ping);
        [exact Ho | reflexivity | exact Hp].
    + exact Hw.
    + vm_compute. reflexivity.
    + reason_facts.
    + vm_compute. discriminate.
Qed.

Lemma continuation_out_of_place_closes_1002_witness :
  rejected_1002 first_continuation_reason continuation_frame
                (established [])
  /\ exists w1,
       recv_frame ping_frame (established []) = (Ok tt, w1)
       /\ last_frame (constructor (client w1)) = Some ping_frame
       /\ rejected_1002 control_continuation_reason continuation_frame w1.
Proof.
  destruct (continuation_out_of_place_closes_1002
              continuation_frame (established []))
    as [H1 H2].
  - reflexivity.
  - reflexivity.
  - split.
    + apply H1. reflexivity.
    + apply (H2 ping_frame); reflexivity.
Defined.

(** C10.  A frame that fails [verify] changes neither the pending
    fragments nor [last_frame], so every later frame gets the verdict it
    would have got had the refused frame never arrived. *)
Theorem rejected_frame_leaves_assembler (frame : Frame) (w : World) :
  verified (client w) frame = false ->
  constructor (client (snd (recv_frame frame w))) = constructor (client w)
  /\ forall later,
       verify (client (snd (recv_frame frame w))) later
       = verify (client w) later.
Proof.
  intros H. destruct (recv_frame_rejected_keeps frame w H) as [Hc He].
  split; [exact Hc|].
  intros later. apply verify_depends; assumption.
Qed.

Lemma rejected_frame_leaves_assembler_witness :
  let w := connection [] CONNECTED (mkWSConstructor [fragment_1]
                                                    (Some fragment_1)) in
  constructor (client (snd (recv_frame rsv1_frame w)))
  = mkWSConstructor [fragment_1] (Some fragment_1)
  /\ forall later,
       verify (client (snd (recv_frame rsv1_frame w))) later
       = verify (client w) later.
Proof.
  apply (rejected_frame_leaves_assembler
           rsv1_frame
           (connection [] CONNECTED
                       (mkWSConstructor [fragment_1] (Some fragment_1)))).
  reflexivity.
Defined.

(* ----------------------------------------------------------------- *)
(** ** The handshake *)

Lemma getitem_cases (h : list (str * str)) (name : str) :
  (exists v, ServerResponse.getitem h name = Ok v)
  \/ ServerResponse.getitem h name = Raise KeyError.
Proof.
  induction h as [|[n v] rest IH]; cbn [ServerResponse.getitem].
  - right. reflexivity.
  - destruct (str_eqb (lower n) (lower name)); [left; eauto | exact IH].
Qed.

Lemma getitem_casefold (h : list (str * str)) (a b : str) :
  lower a = lower b ->
  ServerResponse.getitem h a = ServerResponse.getitem h b.
Proof.
  intros E. induction h as [|[n v] rest IH]; cbn [ServerResponse.getitem].
  - reflexivity.
  - rewrite E, IH. reflexivity.
Qed.

Lemma expecting_key_sample (u : WebsocketUpgrade.t) :
  WebsocketUpgrade.key u = sample_key ->
  WebsocketUpgrade.expecting_key u = Ok sample_accept.
Proof.
  intros H. unfold WebsocketUpgrade.expecting_key. rewrite H.
  vm_compute. reflexivity.
Qed.

Lemma confirm_iff (u : WebsocketUpgrade.t) (accept : str)
    (response : ServerResponse.t) :
  WebsocketUpgrade.expecting_key u = Ok accept ->
  exists b, WebsocketUpgrade.confirm u response = Ok b
            /\ (b = true <-> headers_match accept response).
Proof.
  intros Hk.
  unfold WebsocketUpgrade.confirm, WebsocketUpgrade.confirm_body,
    WebsocketUpgrade.assert_header, headers_match.
  rewrite <- (getitem_casefold (ServerResponse.headers response)
                (lit "Sec-Websocket-Accept") (lit "Sec-WebSocket-Accept"))
    by reflexivity.
  rewrite Hk.
  set (h := ServerResponse.headers response).
  destruct (getitem_cases h (lit "Upgrade")) as [[up ->] | ->]; cbn [bind].
  2:{ exists false. split; [reflexivity|]. split; [discriminate|].
      intros (x & y & z & H & _). discriminate. }
  destruct (str_eqb (lower up) (lit "websocket")) eqn:E1; cbn [bind].
  2:{ exists false. split; [reflexivity|]. split; [discriminate|].
      intros (x & y & z & H & H' & _). inversion H; subst.
      apply str_eqb_eq in H'. congruence. }
  apply str_eqb_eq in E1.
  destruct (getitem_cases h (lit "Connection")) as [[co ->] | ->];
    cbn [bind].
  2:{ exists false. split; [reflexivity|]. split; [discriminate|].
      intros (x & y & z & _ & _ & H & _). discriminate. }
  destruct (str_eqb (title co) (lit "Upgrade")) eqn:E2; cbn [bind].
  2:{ exists false. split; [reflexivity|]. split; [discriminate|].
      intros (x & y & z & _ & _ & H & H' & _). inversion H; subst.
      apply str_eqb_eq in H'. congruence. }
  apply str_eqb_eq in E2.
  destruct (getitem_cases h (lit "Sec-Websocket-Accept"))
    as [[ac ->] | ->]; cbn [bind].
  2:{ exists false. split; [reflexivity|]. split; [discriminate|].
      intros (x & y & z & _ & _ & _ & _ & H & _). discriminate. }
  destruct (str_eqb ac accept) eqn:E3; cbn [bind].
  - apply str_eqb_eq in E3. exists true. split; [reflexivity|].
    split; [|reflexivity]. intros _. exists up, co, ac. auto 10.
  - exists false. split; [reflexivity|]. split; [discriminate|].
    intros (x & y & z & _ & _ & _ & _ & H & H').
    assert (str_eqb ac accept = true) by (apply str_eqb_eq; congruence).
    congruence.
Qed.

(** C8.  With the key "dGhlIHNhbXBsZSBub25jZQ==" the expected accept
    value is "s3pPLMBiTxaQ9kYGzzhZRbK+xOo=", and [confirm] always
    returns a boolean, which is true exactly when the Upgrade header
    lower-cased is "websocket", the Connection header title-cased is
    "Upgrade" and the Sec-WebSocket-Accept header is that value; a
    missing header makes it false. *)
Theorem expecting_key_and_confirm (u : WebsocketUpgrade.t) :
  WebsocketUpgrade.key u = sample_key ->
  WebsocketUpgrade.expecting_key u = Ok sample_accept
  /\ forall response,
       exists b, WebsocketUpgrade.confirm u response = Ok b
                 /\ (b = true <-> headers_match sample_accept response).
Proof.
  intros H. pose proof (expecting_key_sample u H) as Hk.
  split; [exact Hk|].
  intros response. apply confirm_iff. exact Hk.
Qed.

Lemma expecting_key_and_confirm_witness :
  WebsocketUpgrade.expecting_key sample_upgrade = Ok sample_accept
  /\ forall response,
       exists b, WebsocketUpgrade.confirm sample_upgrade response = Ok b
                 /\ (b = true <-> headers_match sample_accept response).
Proof.
  apply (expecting_key_and_confirm sample_upgrade). reflexivity.
Defined.

(** A response that satisfies the three conditions, and some that do
    not. *)
Lemma confirm_examples :
  WebsocketUpgrade.confirm sample_upgrade
    (ServerResponse.mk 101 [(lit "upgrade", lit "WebSocket");
                            (lit "connection", lit "upgrade");
                            (lit "sec-websocket-accept", sample_accept)])
  = Ok true
  /\ WebsocketUpgrade.confirm sample_upgrade
       (ServerResponse.mk 101 [(lit "Upgrade", lit "websocket");
                               (lit "Connection", lit "Upgrade")])
     = Ok false
  /\ WebsocketUpgrade.confirm sample_upgrade
       (ServerResponse.mk 101 [(lit "Upgrade", lit "websocket");
                               (lit "Connection", lit "keep-alive");
                               (lit "Sec-WebSocket-Accept", sample_accept)])
     = Ok false
  /\ WebsocketUpgrade.confirm sample_upgrade
       (ServerResponse.mk 101 [(lit "Upgrade", lit "websocket");
                               (lit "Connection", lit "Upgrade");
                               (lit "Sec-WebSocket-Accept", sample_key)])
     = Ok false.
Proof. vm_compute. repeat split; reflexivity. Qed.

(* ----------------------------------------------------------------- *)
(** ** [connect] *)

Lemma close_default_sends (w : World) :
  writable (socket (client w)) = true ->
  exists w', close_default w = (Ok tt, w') /\ sent_close [3; 232] w w'.
Proof.
  intros Hw. apply (close_sends 1000 None [3; 232] w Hw).
  - reflexivity.
  - repeat constructor; unfold wf_byte; lia.
  - vm_compute. discriminate.
Qed.

Lemma bindM_ok {A B : Type} (m : M A) (k : A -> M B) (w w1 : World)
    (a : A) :
  m w = (Ok a, w1) -> bindM m k w = k a w1.
Proof. intros H. unfold bindM. rewrite H. reflexivity. Qed.

(** [connect] up to the point where the response is examined. *)
Lemma connect_refused (w : World) (response : ServerResponse.t)
    (u : WebsocketUpgrade.t) (e' : Entropy) (data : bytes) :
  sock_connected (socket (client w)) = false ->
  sock_closed (socket (client w)) = false ->
  WebsocketUpgrade.init (uri (client w)) (extensions (client w))
                        (overwrites_host (client w))
                        (overwrites_origin (client w)) (entropy w)
  = (Ok u, e') ->
  WebsocketUpgrade.build u = Ok data ->
  handshake_refused u response ->
  exists msg,
    connect response w
    = match close_default (awaiting_response w data e') with
      | (Ok _, w') => (Raise (HandshakeFail msg), w')
      | (Raise e, w') => (Raise e, w')
      end.
Proof.
  intros Hc Hk Hi Hb Hr. destruct w as [c evs e].
  cbn [client calls entropy] in *.
  unfold connect.
  erewrite bindM_ok by reflexivity.
  erewrite bindM_ok
    by (unfold socket_connect, bindM, get_client, modify_client;
        cbn [client set_status socket]; rewrite Hc, Hk; reflexivity).
  erewrite bindM_ok by reflexivity.
  erewrite bindM_ok
    by (unfold with_entropy;
        cbn [client entropy calls uri extensions overwrites_host
             overwrites_origin set_socket set_status];
        rewrite Hi; reflexivity).
  erewrite bindM_ok by (unfold lift; rewrite Hb; reflexivity).
  rewrite (bindM_ok _ _ _ (awaiting_response (mkWorld c evs e) data e') tt)
    by reflexivity.
  destruct (ServerResponse.code response =? 101) eqn:E101; cbn [negb].
  - destruct Hr as [Hr | Hr]; [apply Z.eqb_eq in E101; contradiction|].
    erewrite bindM_ok by (unfold lift; rewrite Hr; reflexivity).
    cbn [negb]. eexists. unfold bindM, raise.
    destruct (close_default _) as [[[]|ex] w']; reflexivity.
  - eexists. unfold bindM, raise.
    destruct (close_default _) as [[[]|ex] w']; reflexivity.
Qed.

(** C9, as amended.  On a transport that can be connected and with a
    URI from which the upgrade request can be built, a failed handshake
    (a status code other than 101, or [confirm] answering [False]) makes
    [connect] call [close()] while the status is [CONNECTING], which it
    had set before the handshake, and then raise [HandshakeFail];
    afterwards the status is not [CONNECTED]. *)
Theorem connect_failed_handshake (w : World) (response : ServerResponse.t)
    (u : WebsocketUpgrade.t) (e' : Entropy) (data : bytes) :
  sock_connected (socket (client w)) = false ->
  sock_closed (socket (client w)) = false ->
  WebsocketUpgrade.init (uri (client w)) (extensions (client w))
                        (overwrites_host (client w))
                        (overwrites_origin (client w)) (entropy w)
  = (Ok u, e') ->
  WebsocketUpgrade.build u = Ok data ->
  handshake_refused u response ->
  exists msg w',
    status (client (awaiting_response w data e')) = CONNECTING
    /\ close_default (awaiting_response w data e') = (Ok tt, w')
    /\ connect response w = (Raise (HandshakeFail msg), w')
    /\ status (client w') <> CONNECTED.
Proof.
  intros Hc Hk Hi Hb Hr.
  destruct (connect_refused w response u e' data Hc Hk Hi Hb Hr)
    as [msg Hm].
  destruct (close_default_sends (awaiting_response w data e'))
    as [w' [Hcl Hs]]; [reflexivity|].
  exists msg, w'. rewrite Hcl in Hm.
  split; [reflexivity|]. split; [exact Hcl|]. split; [exact Hm|].
  destruct Hs as (d & g & _ & _ & _ & _ & _ & Hst & _).
  rewrite Hst. discriminate.
Qed.

Lemma connect_failed_handshake_witness :
  exists msg w',
    status (client (awaiting_response (new_world []) sample_request
                                      (snd sample_handshake)))
    = CONNECTING
    /\ close_default (awaiting_response (new_world []) sample_request
                                        (snd sample_handshake))
       = (Ok tt, w')
    /\ connect not_found (new_world []) = (Raise (HandshakeFail msg), w')
    /\ status (client w') <> CONNECTED.
Proof.
  apply (connect_failed_handshake (new_world []) not_found
                                  sample_request_upgrade
                                  (snd sample_handshake) sample_request).
  - reflexivity.
  - reflexivity.
  - vm_compute. reflexivity.
  - vm_compute. reflexivity.
  - left. simpl. lia.
Defined.

(** C9, as the specification words it, fails for a new client whose
    server answers 404: [connect] raises [HandshakeFail], but the
    transport is still open and the status, [CLOSED] before the call, is
    [CLOSING] after it. *)
Lemma failed_connect_counterexample :
  fst (connect not_found (new_world []))
  = Raise (HandshakeFail (lit "Code: 404"))
  /\ status (client (new_world [])) = CLOSED
  /\ status (client (snd (connect not_found (new_world [])))) = CLOSING
  /\ sock_closed (socket (client (snd (connect not_found (new_world [])))))
     = false
  /\ ~ failed_connect_as_claimed (new_world []) not_found.
Proof.
  repeat split; try (vm_compute; reflexivity).
  intros (_ & H & _). vm_compute in H. discriminate.
Qed.

(* ----------------------------------------------------------------- *)
(** ** Opcodes and masks *)

(** X1.  An opcode number decodes to the member that carries this
    number, and to nothing when no member does; [RESERVED] is never the
    result. *)
Theorem from_value_inverts_value (v : Z) (o : FrameOpcode) :
  from_value v = Some o <-> value o = Some v.
Proof.
  split.
  - intros H. unfold from_value in H. apply find_some in H.
    destruct H as [_ H]. destruct (value o) as [x|]; [|discriminate].
    apply Z.eqb_eq in H. congruence.
  - intros H. destruct o; inversion H; reflexivity.
Qed.

Lemma lxor_byte (a b : Z) : wf_byte a -> wf_byte b -> wf_byte (Z.lxor a b).
Proof.
  unfold wf_byte. intros Ha Hb.
  assert (Hn : 0 <= Z.lxor a b) by (apply Z.lxor_nonneg; lia).
  split; [exact Hn|].
  destruct (Z.eq_dec (Z.lxor a b) 0) as [-> | Hz]; [lia|].
  change 256 with (2 ^ 8). apply Z.log2_lt_pow2; [lia|].
  pose proof (Z.log2_lxor a b (proj1 Ha) (proj1 Hb)) as Hl.
  assert (Ha8 : Z.log2 a < 8).
  { destruct (Z.eq_dec a 0) as [-> | Hz']; [reflexivity|].
    apply Z.log2_lt_pow2; lia. }
  assert (Hb8 : Z.log2 b < 8).
  { destruct (Z.eq_dec b 0) as [-> | Hz']; [reflexivity|].
    apply Z.log2_lt_pow2; lia. }
  lia.
Qed.

Lemma apply_mask_from_total (m : bytes) :
  (4 <= List.length m)%nat ->
  forall content i,
  exists out, apply_mask_from i m content = Ok out
              /\ List.length out = List.length content
              /\ (wf_bytes m -> wf_bytes content -> wf_bytes out).
Proof.
  intros Hm. induction content as [|c rest IH]; intros i.
  - exists []. repeat split; auto.
  - cbn [apply_mask_from].
    destruct (nth_error m (Nat.modulo i 4)) as [x|] eqn:E.
    + destruct (IH (S i)) as [out [-> [Hl Hw]]]. cbn [bind].
      eexists. split; [reflexivity|]. split.
      * cbn [List.length]. congruence.
      * intros Hwm Hwc. inversion Hwc; subst. constructor.
        -- apply lxor_byte; [assumption|].
           apply nth_error_In in E.
           unfold wf_bytes in Hwm. rewrite Forall_forall in Hwm. auto.
        -- apply Hw; assumption.
    + apply nth_error_None in E.
      pose proof (Nat.mod_upper_bound i 4). lia.
Qed.

(** X2.  With a mask of at least four bytes [apply_mask] never fails,
    keeps the length, keeps bytes bytes, and undoes itself. *)
Theorem apply_mask_involution (m content : bytes) :
  (4 <= List.length m)%nat ->
  exists out,
    apply_mask m content = Ok out
    /\ List.length out = List.length content
    /\ (wf_bytes m -> wf_bytes content -> wf_bytes out)
    /\ apply_mask m out = Ok content.
Proof.
  intros Hm. destruct (apply_mask_from_total m Hm content 0)
    as [out [H [Hl Hw]]].
  exists out. repeat split; try assumption.
  apply apply_mask_involutive. exact H.
Qed.

Lemma apply_mask_involution_witness :
  exists out,
    apply_mask sample_mask sample_payload = Ok out
    /\ List.length out = List.length sample_payload
    /\ (wf_bytes sample_mask -> wf_bytes sample_payload -> wf_bytes out)
    /\ apply_mask sample_mask out = Ok sample_payload.
Proof.
  apply (apply_mask_involution sample_mask sample_payload).
  simpl. lia.
Defined.

Lemma apply_mask_from_short (m : bytes) :
  (List.length m < 4)%nat ->
  forall content i,
  (i <= List.length m)%nat ->
  (List.length m < i + List.length content)%nat ->
  apply_mask_from i m content = Raise IndexError.
Proof.
  intros Hm. induction content as [|c rest IH]; intros i Hi Hl.
  - cbn [List.length] in Hl. lia.
  - cbn [apply_mask_from]. rewrite Nat.mod_small by lia.
    destruct (nth_error m i) as [x|] eqn:E.
    + assert (Hlt : (i < List.length m)%nat)
        by (apply nth_error_Some; congruence).
      rewrite (IH (S i)); [reflexivity | lia |].
      cbn [List.length] in Hl. lia.
    + reflexivity.
Qed.

(** X3.  With a mask of fewer than four bytes [apply_mask] raises
    [IndexError] as soon as the content is longer than the mask, and
    only then. *)
Theorem apply_mask_short_mask (m content : bytes) :
  (List.length m < 4)%nat ->
  (apply_mask m content = Raise IndexError
   <-> (List.length m < List.length content)%nat).
Proof.
  intros Hm. split.
  - intros H.
    destruct (Nat.lt_ge_cases (List.length m) (List.length content))
      as [Hlt | Hge]; [exact Hlt|].
    exfalso. revert H. unfold apply_mask.
    assert (G : forall c i, (i + List.length c <= List.length m)%nat ->
                exists out, apply_mask_from i m c = Ok out).
    { induction c as [|x r IH]; intros i Hi.
      - exists []. reflexivity.
      - cbn [apply_mask_from]. cbn [List.length] in Hi.
        rewrite Nat.mod_small by lia.
        destruct (nth_error m i) as [y|] eqn:E.
        + destruct (IH (S i)) as [out ->]; [lia|]. cbn [bind]. eauto.
        + apply nth_error_None in E. lia. }
    destruct (G content 0%nat) as [out ->]; [lia | discriminate].
  - intros H. apply apply_mask_from_short; lia.
Qed.

Lemma apply_mask_short_mask_witness :
  apply_mask [7; 7] [1; 2; 3] = Raise IndexError
  <-> (List.length [7; 7] < List.length [1; 2; 3])%nat.
Proof.
  apply (apply_mask_short_mask [7; 7] [1; 2; 3]). simpl. lia.
Defined.

(* ----------------------------------------------------------------- *)
(** ** Reading back what [build] wrote *)

Lemma load_build_short_app (f : Frame) (rest : bytes) :
  valid_Frame f -> len (payload f) <= 125 ->
  exists data, build f = Ok data
               /\ load (mkBinaryIO false (data ++ rest))
                  = Ok (f, mkBinaryIO false rest).
Proof.
  intros (H1 & H2 & H3 & (o & Ho & HR) & Hp & Hm) Hlen.
  destruct f as [fin [r1 r2 r3] op pl mk].
  cbn [final rsvs rsv1 rsv2 rsv3 opcode payload mask] in *.
  subst op.
  destruct (value o) as [v|] eqn:Hv; [|destruct o; try discriminate; congruence].
  destruct (header_byte fin r1 r2 r3 o v H1 H2 H3 Hv)
    as (Hb0 & Hf & Hr1 & Hr2 & Hr3 & Hop).
  assert (Hl : 0 <= len pl < 128) by (unfold len in *; lia).
  destruct (length_byte (len pl) (mask_flag mk) Hl (mask_flag_cases mk))
    as (Hb1 & Hfl & Hn).
  unfold build.
  cbn [final rsvs rsv1 rsv2 rsv3 opcode payload mask opcode_operand].
  rewrite Hv. cbn [bind].
  rewrite (pack_B _ Hb0). cbn [bind].
  replace (len pl <=? 125) with true by (symmetry; apply Z.leb_le; lia).
  rewrite (pack_B _ Hb1). cbn [bind app].
  assert (Hne126 : (len pl =? 126) = false) by (apply Z.eqb_neq; lia).
  assert (Hne127 : (len pl =? 127) = false) by (apply Z.eqb_neq; lia).
  destruct mk as [m|].
  - destruct Hm as [Hm4 Hmwf].
    destruct (apply_mask_from_length m Hm4 pl 0) as [masked [Hmasked Hlm]].
    unfold apply_mask. rewrite Hmasked. cbn [bind].
    eexists. split; [reflexivity|].
    cbn [app]. rewrite <- app_assoc.
    unfold load.
    rewrite (unpack_from_B _ _ Hb0). cbn [bind item0].
    rewrite (unpack_from_B _ _ Hb1). cbn [bind item0].
    rewrite Hfl, Hn, Hne126, Hne127. cbn [bind mask_flag].
    change (truthy_int 128) with true. cbv iota.
    rewrite (read_4 _ _ Hm4). cbn [bind].
    replace (len pl) with (len masked) by (unfold len; congruence).
    rewrite read_app. cbn [bind].
    unfold apply_mask.
    rewrite (apply_mask_from_involutive _ _ _ _ Hmasked). cbn [bind].
    rewrite Hf, Hr1, Hr2, Hr3, Hop. reflexivity.
  - eexists. split; [reflexivity|].
    cbn [app]. unfold load.
    rewrite (unpack_from_B _ _ Hb0). cbn [bind item0].
    rewrite (unpack_from_B _ _ Hb1). cbn [bind item0].
    rewrite Hfl, Hn, Hne126, Hne127. cbn [bind mask_flag].
    change (truthy_int 0) with false. cbv iota.
    rewrite read_app. cbn [bind].
    rewrite Hf, Hr1, Hr2, Hr3, Hop. reflexivity.
Qed.

Lemma load_build_long_app (f : Frame) (rest : bytes) :
  valid_Frame f -> 65536 <= len (payload f) < 2 ^ 64 ->
  exists data, build f = Ok data
               /\ load (mkBinaryIO false (data ++ rest))
                  = Ok (f, mkBinaryIO false rest).
Proof.
  intros (H1 & H2 & H3 & (o & Ho & HR) & Hp & Hm) Hlen.
  destruct f as [fin [r1 r2 r3] op pl mk].
  cbn [final rsvs rsv1 rsv2 rsv3 opcode payload mask] in *.
  subst op.
  destruct (value o) as [v|] eqn:Hv; [|destruct o; try discriminate; congruence].
  destruct (header_byte fin r1 r2 r3 o v H1 H2 H3 Hv)
    as (Hb0 & Hf & Hr1 & Hr2 & Hr3 & Hop).
  destruct (length_class_byte 127 (mask_flag mk) (or_intror eq_refl)
                              (mask_flag_cases mk))
    as (Hb1 & Hfl & Hn).
  assert (HQ : 0 <= len pl < 2 ^ (8 * Z.of_nat (calcsize fmt_Q)))
    by (change (2 ^ (8 * Z.of_nat (calcsize fmt_Q))) with (2 ^ 64); lia).
  unfold build.
  cbn [final rsvs rsv1 rsv2 rsv3 opcode payload mask opcode_operand].
  rewrite Hv. cbn [bind].
  rewrite (pack_B _ Hb0). cbn [bind].
  replace (len pl <=? 125) with false by (symmetry; apply Z.leb_gt; lia).
  replace (len pl <=? 65535) with false by (symmetry; apply Z.leb_gt; lia).
  rewrite (pack_B _ Hb1). cbn [bind].
  rewrite (pack_Ok fmt_Q _ HQ). cbn [bind].
  destruct mk as [m|].
  - destruct Hm as [Hm4 Hmwf].
    destruct (apply_mask_from_length m Hm4 pl 0) as [masked [Hmasked Hlm]].
    unfold apply_mask. rewrite Hmasked. cbn [bind].
    eexists. split; [reflexivity|].
    cbn [app]. rewrite <- !app_assoc.
    unfold load.
    rewrite (unpack_from_B _ _ Hb0). cbn [bind item0].
    rewrite (unpack_from_B _ _ Hb1). cbn [bind item0].
    rewrite Hfl, Hn. change (127 =? 126) with false.
    change (127 =? 127) with true. cbv iota.
    rewrite (unpack_from_app fmt_Q _ _ HQ). cbn [bind item0 mask_flag].
    change (truthy_int 128) with true. cbv iota.
    rewrite (read_4 _ _ Hm4). cbn [bind].
    replace (len pl) with (len masked) by (unfold len; congruence).
    rewrite read_app. cbn [bind].
    unfold apply_mask.
    rewrite (apply_mask_from_involutive _ _ _ _ Hmasked). cbn [bind].
    rewrite Hf, Hr1, Hr2, Hr3, Hop. reflexivity.
  - eexists. split; [reflexivity|].
    cbn [app]. rewrite <- !app_assoc. unfold load.
    rewrite (unpack_from_B _ _ Hb0). cbn [bind item0].
    rewrite (unpack_from_B _ _ Hb1). cbn [bind item0].
    rewrite Hfl, Hn. change (127 =? 126) with false.
    change (127 =? 127) with true. cbv iota.
    rewrite (unpack_from_app fmt_Q _ _ HQ). cbn [bind item0 mask_flag].
    change (truthy_int 0) with false. cbv iota.
    rewrite read_app. cbn [bind].
    rewrite Hf, Hr1, Hr2, Hr3, Hop. reflexivity.
Qed.

Lemma load_build_app (f : Frame) (rest : bytes) :
  valid_Frame f -> codec_length (len (payload f)) ->
  exists data, build f = Ok data
               /\ load (mkBinaryIO false (data ++ rest))
                  = Ok (f, mkBinaryIO false rest).
Proof.
  intros Hv [Hl | Hl].
  - apply load_build_short_app; assumption.
  - apply load_build_long_app; assumption.
Qed.

(** X4.  A valid frame whose payload has at most 125 or at least 65536
    bytes can be built, and [load] reads it back from the front of a
    stream: it returns the same frame, mask included, and leaves exactly
    the bytes that follow the frame. *)
Theorem load_reads_one_built_frame (f : Frame) (rest : bytes) :
  valid_Frame f -> codec_length (len (payload f)) ->
  exists data, build f = Ok data
               /\ load (mkBinaryIO false (data ++ rest))
                  = Ok (f, mkBinaryIO false rest).
Proof. apply load_build_app. Qed.

Lemma masked_frame_valid : valid_Frame masked_frame.
Proof.
  unfold valid_Frame, masked_frame, no_rsvs, sample_mask, bit.
  cbn [rsvs rsv1 rsv2 rsv3 opcode payload mask].
  split; [left; reflexivity|]. split; [left; reflexivity|].
  split; [left; reflexivity|].
  split; [exists BINARY; split; [reflexivity | discriminate]|].
  split; [|split; [reflexivity|]];
    apply Forall_forall; intros x Hx; cbn [In] in Hx; unfold wf_byte;
    intuition lia.
Qed.

Lemma load_reads_one_built_frame_witness :
  exists data, build masked_frame = Ok data
               /\ load (mkBinaryIO false (data ++ [137; 0]))
                  = Ok (masked_frame, mkBinaryIO false [137; 0]).
Proof.
  apply (load_reads_one_built_frame masked_frame [137; 0]).
  - exact masked_frame_valid.
  - left. unfold len. simpl. lia.
Defined.

(* ----------------------------------------------------------------- *)
(** ** What [load] returns, and when it fails *)

Lemma bind_Ok {A B : Type} (r : result A) (k : A -> result B) (b : B) :
  bind r k = Ok b -> exists a, r = Ok a /\ k a = Ok b.
Proof. destruct r as [a|e]; cbn [bind]; [eauto | discriminate]. Qed.

Lemma read_spec (n : Z) (s s' : BinaryIO) (d : bytes) :
  read n s = Ok (d, s') ->
  closed s = false /\ closed s' = false
  /\ buffer s = d ++ buffer s'
  /\ d = firstn (Z.to_nat n) (buffer s).
Proof.
  unfold read. destruct (closed s) eqn:E; [discriminate|].
  intros H. inversion H; subst. cbn [closed buffer].
  rewrite firstn_skipn. auto.
Qed.

Lemma unpack_from_spec (f : fmt) (s s' : BinaryIO) (t : list Z) :
  unpack_from f s = Ok (t, s') ->
  closed s = false /\ closed s' = false
  /\ exists d, buffer s = d ++ buffer s'
               /\ List.length d = calcsize f /\ t = [be_value d].
Proof.
  unfold unpack_from. destruct (closed s) eqn:E; [discriminate|].
  intros H. apply bind_Ok in H. destruct H as [[d s1] [Hr H]].
  apply bind_Ok in H. destruct H as [t' [Hu H]]. inversion H; subst.
  apply read_spec in Hr. destruct Hr as (_ & Hc & Hb & _).
  unfold unpack in Hu.
  destruct (Nat.eqb (List.length d) (calcsize f)) eqn:El; [|discriminate].
  apply Nat.eqb_eq in El. inversion Hu; subst.
  repeat split; auto. exists d. auto.
Qed.

Lemma item0_singleton (t : list Z) (x v : Z) :
  t = [v] -> item0 t = Ok x -> x = v.
Proof. intros -> H. inversion H. reflexivity. Qed.

Lemma apply_mask_from_wf (m : bytes) :
  wf_bytes m ->
  forall content i out,
  wf_bytes content -> apply_mask_from i m content = Ok out -> wf_bytes out.
Proof.
  intros Hm. induction content as [|c rest IH]; intros i out Hc H.
  - inversion H. constructor.
  - cbn [apply_mask_from] in H.
    destruct (nth_error m (Nat.modulo i 4)) as [x|] eqn:E; [|discriminate].
    apply bind_Ok in H. destruct H as [out' [Ho H]]. inversion H; subst.
    inversion Hc; subst. constructor.
    + apply lxor_byte; [assumption|]. apply nth_error_In in E.
      unfold wf_bytes in Hm. rewrite Forall_forall in Hm. auto.
    + apply (IH (S i)); assumption.
Qed.

Lemma bit01_bit (r : Z) : bit (bit01 r).
Proof. unfold bit01, bit. destruct (truthy_int r); auto. Qed.

Lemma from_value_not_RESERVED (v : Z) : from_value v <> Some RESERVED.
Proof.
  intros H. unfold from_value in H. apply find_some in H. destruct H as [_ H]. discriminate.
Qed.

Lemma wf_bytes_app (a b : bytes) :
  wf_bytes (a ++ b) -> wf_bytes a /\ wf_bytes b.
Proof. unfold wf_bytes. apply Forall_app. Qed.

(** What a successful [load] did: it took at least the two header bytes
    from the front of the stream, and the frame has the shape
    [loaded_Frame]. *)
Lemma load_progress (s s' : BinaryIO) (f : Frame) :
  load s = Ok (f, s') ->
  closed s = false /\ closed s' = false
  /\ (exists used, buffer s = used ++ buffer s'
                   /\ (2 <= List.length used)%nat)
  /\ loaded_Frame f
  /\ (wf_bytes (buffer s) -> wf_bytes (payload f)).
Proof.
  unfold load. intros H.
  apply bind_Ok in H. destruct H as [[t0 s0] [H0 H]].
  apply bind_Ok in H. destruct H as [b0 [Hb0 H]].
  apply bind_Ok in H. destruct H as [[t1 s1] [H1 H]].
  apply bind_Ok in H. destruct H as [b1 [Hb1 H]].
  apply bind_Ok in H. destruct H as [[n s2] [H2 H]].
  apply unpack_from_spec in H0.
  destruct H0 as (Hc & Hc0 & d0 & Hd0 & Hl0 & _).
  apply unpack_from_spec in H1.
  destruct H1 as (_ & Hc1 & d1 & Hd1 & Hl1 & _).
  cbn [calcsize] in Hl0, Hl1.
  assert (E2 : closed s2 = false
               /\ exists d2, buffer s1 = d2 ++ buffer s2).
  { destruct (Z.land b1 (Z.lnot 128) =? 126).
    - apply bind_Ok in H2. destruct H2 as [[t s3] [H2 H3]].
      apply bind_Ok in H3. destruct H3 as [x [_ H3]]. inversion H3; subst.
      apply unpack_from_spec in H2.
      destruct H2 as (_ & Hc2 & d2 & Hd2 & _). eauto.
    - destruct (Z.land b1 (Z.lnot 128) =? 127).
      + apply bind_Ok in H2. destruct H2 as [[t s3] [H2 H3]].
        apply bind_Ok in H3. destruct H3 as [x [_ H3]]. inversion H3; subst.
        apply unpack_from_spec in H2.
        destruct H2 as (_ & Hc2 & d2 & Hd2 & _). eauto.
      + inversion H2; subst. split; [assumption|]. exists []. reflexivity. }
  destruct E2 as [Hc2 [d2 Hd2]].
  assert (Hshape : forall pl mk,
             match mk with
             | None => True
             | Some m => (List.length m <= 4)%nat
             end ->
             loaded_Frame
               (mkFrame (truthy_int (Z.land b0 128))
                        (mkExtensionRsvs (bit01 (Z.land b0 64))
                                         (bit01 (Z.land b0 32))
                                         (bit01 (Z.land b0 16)))
                        (from_value (Z.land b0 15)) pl mk)).
  { intros pl mk Hmk. unfold loaded_Frame.
    cbn [rsvs rsv1 rsv2 rsv3 opcode mask].
    repeat split; try apply bit01_bit; try exact Hmk.
    apply from_value_not_RESERVED. }
  destruct (truthy_int (Z.land b1 128)).
  - apply bind_Ok in H. destruct H as [[m s3] [H3 H]].
    apply bind_Ok in H. destruct H as [[raw s4] [H4 H]].
    apply bind_Ok in H. destruct H as [pl [H5 H]].
    inversion H; subst. clear H.
    apply read_spec in H3. destruct H3 as (_ & Hc3 & Hd3 & Hm).
    apply read_spec in H4. destruct H4 as (_ & Hc4 & Hd4 & _).
    split; [assumption|]. split; [assumption|]. split.
    { exists (d0 ++ d1 ++ d2 ++ m ++ raw). split.
      - rewrite Hd0, Hd1, Hd2, Hd3, Hd4. rewrite <- !app_assoc. reflexivity.
      - rewrite !length_app. lia. }
    split.
    { apply Hshape. rewrite Hm, length_firstn.
      change (Z.to_nat 4) with 4%nat. lia. }
    intros Hw. rewrite Hd0, Hd1, Hd2, Hd3, Hd4 in Hw.
    apply wf_bytes_app in Hw. destruct Hw as [_ Hw].
    apply wf_bytes_app in Hw. destruct Hw as [_ Hw].
    apply wf_bytes_app in Hw. destruct Hw as [_ Hw].
    apply wf_bytes_app in Hw. destruct Hw as [Hwm Hw].
    apply wf_bytes_app in Hw. destruct Hw as [Hwr _].
    apply (apply_mask_from_wf m Hwm raw 0%nat pl Hwr H5).
  - apply bind_Ok in H. destruct H as [[pl s3] [H3 H]].
    inversion H; subst. clear H.
    apply read_spec in H3. destruct H3 as (_ & Hc3 & Hd3 & _).
    split; [assumption|]. split; [assumption|]. split.
    { exists (d0 ++ d1 ++ d2 ++ pl). split.
      - rewrite Hd0, Hd1, Hd2, Hd3. rewrite <- !app_assoc. reflexivity.
      - rewrite !length_app. lia. }
    split; [apply Hshape; exact I|].
    intros Hw. rewrite Hd0, Hd1, Hd2, Hd3 in Hw.
    apply wf_bytes_app in Hw. destruct Hw as [_ Hw].
    apply wf_bytes_app in Hw. destruct Hw as [_ Hw].
    apply wf_bytes_app in Hw. destruct Hw as [_ Hw].
    apply wf_bytes_app in Hw. destruct Hw as [Hwp _]. exact Hwp.
Qed.

(** X5.  Whenever [load] returns a frame, it has consumed a prefix of
    the stream of at least two bytes; the reserved bits of the frame are
    0 or 1, its opcode is one of the six or absent, never [RESERVED],
    its mask has at most four bytes, and its payload is made of bytes if
    the stream was. *)
Theorem load_result_shape (s s' : BinaryIO) (f : Frame) :
  load s = Ok (f, s') ->
  (exists used, buffer s = used ++ buffer s'
                /\ (2 <= List.length used)%nat)
  /\ loaded_Frame f
  /\ (wf_bytes (buffer s) -> wf_bytes (payload f)).
Proof.
  intros H. destruct (load_progress s s' f H) as (_ & _ & H1 & H2 & H3).
  auto.
Qed.

Lemma load_result_shape_witness :
  (exists used, [137; 0; 1] = used ++ [1] /\ (2 <= List.length used)%nat)
  /\ loaded_Frame (mkFrame true no_rsvs (Some PING) [] None)
  /\ (wf_bytes [137; 0; 1] -> wf_bytes []).
Proof.
  apply (load_result_shape (mkBinaryIO false [137; 0; 1])
                           (mkBinaryIO false [1])
                           (mkFrame true no_rsvs (Some PING) [] None)).
  reflexivity.
Defined.

(** X6.  On a stream with fewer than two bytes left [load] raises
    [struct.error] when the stream is open and [InterruptedError] when
    it is closed. *)
Theorem load_needs_two_bytes (s : BinaryIO) :
  (List.length (buffer s) < 2)%nat ->
  load s = if closed s then Raise InterruptedError else Raise struct_error.
Proof.
  destruct s as [c [|a [|b r]]]; cbn [buffer List.length closed];
    intros H; try lia; destruct c; reflexivity.
Qed.

Lemma load_needs_two_bytes_witness :
  load (mkBinaryIO false [129]) = Raise struct_error.
Proof.
  apply (load_needs_two_bytes (mkBinaryIO false [129])). simpl. lia.
Defined.

(** X7.  [load] does not notice a payload that is cut short: when the
    header of an unmasked frame announces [n] bytes, at most 125, and
    fewer are left, the frame is returned with the bytes that are
    there. *)
Theorem load_truncated_payload (b0 n : Z) (rest : bytes) :
  wf_byte b0 -> 0 <= n <= 125 -> len rest < n ->
  exists f,
    load (mkBinaryIO false (b0 :: n :: rest)) = Ok (f, mkBinaryIO false [])
    /\ payload f = rest /\ mask f = None.
Proof.
  intros Hb0 Hn Hl.
  assert (Hn' : 0 <= n < 128) by lia.
  destruct (length_byte n 0 Hn' (or_introl eq_refl)) as (Hb1 & Hfl & Hp).
  rewrite Z.lor_0_r in Hb1, Hfl, Hp.
  unfold load.
  rewrite (unpack_from_B _ _ Hb0). cbn [bind item0].
  rewrite (unpack_from_B _ _ Hb1). cbn [bind item0].
  rewrite Hfl, Hp.
  replace (n =? 126) with false by (symmetry; apply Z.eqb_neq; lia).
  replace (n =? 127) with false by (symmetry; apply Z.eqb_neq; lia).
  cbn [bind]. change (truthy_int 0) with false. cbv iota.
  unfold read. cbn [closed buffer bind].
  rewrite firstn_all2 by (unfold len in Hl; lia).
  rewrite skipn_all2 by (unfold len in Hl; lia).
  eexists. split; [reflexivity|]. split; reflexivity.
Qed.

Lemma load_truncated_payload_witness :
  exists f,
    load (mkBinaryIO false (129 :: 5 :: lit "Hel"))
    = Ok (f, mkBinaryIO false [])
    /\ payload f = lit "Hel" /\ mask f = None.
Proof.
  apply (load_truncated_payload 129 5 (lit "Hel")).
  - unfold wf_byte. lia.
  - lia.
  - vm_compute. reflexivity.
Defined.

(* ----------------------------------------------------------------- *)
(** ** What [recv_frame] does with a frame it accepts *)

(** X8.  A frame that is not a Continuation and sets no reserved bit
    passes [verify] in every assembler state and with any extensions; a
    new Text frame in the middle of an unfinished message is such a
    frame. *)
Theorem verify_accepts_without_rsv (c : Client) (frame : Frame)
    (o : FrameOpcode) :
  opcode frame = Some o -> o <> CONTINUATION ->
  rsvs frame = no_rsvs ->
  verify c frame = Ok (true, None).
Proof.
  intros Ho Hn Hr. unfold verify. rewrite Ho, Hr.
  assert (E : opcode_is (Some o) CONTINUATION = false)
    by (destruct o; try reflexivity; congruence).
  rewrite E. cbn [andb in_FrameOpcode bind negb no_rsvs rsv1 rsv2 rsv3].
  change (truthy_int 0) with false. rewrite !andb_false_r.
  destruct (last_frame (constructor c)); reflexivity.
Qed.

Lemma verify_accepts_without_rsv_witness :
  verify (client (connection [] CONNECTED
                             (mkWSConstructor [fragment_1]
                                              (Some fragment_1))))
         (whole_text "b")
  = Ok (true, None).
Proof.
  apply (verify_accepts_without_rsv _ (whole_text "b") TEXT).
  - reflexivity.
  - discriminate.
  - reflexivity.
Defined.

(** X9.  An accepted Ping or Pong is handed to every extension in
    registration order and then to the client, and becomes the last
    frame; nothing is written to the transport (no Pong answers a Ping),
    and status and pending frames stay as they were. *)
Theorem recv_frame_ping_pong (frame : Frame) (w : World) :
  opcode frame = Some PING \/ opcode frame = Some PONG ->
  verified (client w) frame = true ->
  recv_frame frame w
  = (Ok tt, accepted false frame (dispatched w (control_hook frame)) w).
Proof.
  intros Ho Hv. unfold recv_frame, bindM, get_client, lift.
  unfold verified in Hv.
  destruct (verify (client w) frame) as [[good reason]|ex]; [|discriminate].
  subst good. cbn [negb]. unfold control_hook.
  destruct Ho as [Ho | Ho]; rewrite Ho;
    cbn [opcode_is FrameOpcode_eqb orb];
    unfold trigger, record_call, modify_client, accepted, dispatched,
      set_last_frame;
    cbn [client calls entropy set_constructor constructor frame_setup];
    rewrite <- app_assoc; reflexivity.
Qed.

Lemma recv_frame_ping_pong_witness :
  recv_frame pong_frame (established [plain_extension])
  = (Ok tt,
     accepted false pong_frame
              (dispatched (established [plain_extension])
                          (control_hook pong_frame))
              (established [plain_extension])).
Proof.
  apply (recv_frame_ping_pong pong_frame (established [plain_extension])).
  - right. reflexivity.
  - reflexivity.
Defined.

Lemma recv_frame_data_steps (frame : Frame) (w : World) :
  is_data frame ->
  verified (client w) frame = true ->
  recv_frame frame w
  = bindM
      (if final frame then
         c <~ get_client ;;
         msg <~ lift (Message_init (frame_setup (constructor c))) ;;
         trigger (on_message msg) ;;;
         record_call (client_called (on_message msg))
       else ret tt)
      (fun _ => modify_client
                  (fun c => set_constructor
                              (set_last_frame frame (constructor c)) c))
      (mkWorld (set_constructor (append_frame frame (constructor (client w)))
                                (client w))
               (calls w) (entropy w)).
Proof.
  intros Ho Hv. unfold recv_frame. unfold bindM at 1. unfold get_client at 1.
  cbv beta iota. unfold bindM at 1. unfold lift at 1. unfold verified in Hv.
  destruct (verify (client w) frame) as [[good reason]|ex]; [|discriminate].
  subst good. cbv beta iota. cbn [negb].
  assert (E : opcode_is (opcode frame) TEXT || opcode_is (opcode frame) BINARY
              = true)
    by (destruct Ho as [-> | ->]; reflexivity).
  rewrite E. reflexivity.
Qed.

(** X10.  An accepted final Text or Binary frame joins the pending
    frames; the message is assembled from all of them, handed to every
    extension in registration order and then to the client, and the
    frame becomes the last frame.  Nothing is written to the transport
    and the pending frames are kept. *)
Theorem recv_frame_final_data (frame : Frame) (msg : Message) (w : World) :
  is_data frame -> final frame = true ->
  verified (client w) frame = true ->
  Message_init (frame_setup (constructor (client w)) ++ [frame]) = Ok msg ->
  recv_frame frame w
  = (Ok tt, accepted true frame (dispatched w (on_message msg)) w).
Proof.
  intros Ho Hf Hv Hm. rewrite (recv_frame_data_steps frame w Ho Hv).
  rewrite Hf. unfold bindM, get_client, lift.
  cbn [client set_constructor constructor append_frame frame_setup].
  rewrite Hm. unfold trigger, record_call, modify_client, accepted,
                dispatched, set_last_frame.
  cbn [client calls entropy set_constructor constructor frame_setup
       extensions].
  rewrite <- app_assoc. reflexivity.
Qed.

Lemma recv_frame_final_data_witness :
  recv_frame (whole_text "b") after_text
  = (Ok tt,
     accepted true (whole_text "b")
              (dispatched after_text
                 (on_message (mkMessage class_str (data_str (lit "ab")))))
              after_text).
Proof.
  apply (recv_frame_final_data (whole_text "b")
           (mkMessage class_str (data_str (lit "ab"))) after_text).
  - left. reflexivity.
  - reflexivity.
  - reflexivity.
  - reflexivity.
Defined.

(** X11.  An accepted Text or Binary frame that is not final only joins
    the pending frames and becomes the last frame: no callback is made
    and nothing is written. *)
Theorem recv_frame_fragment (frame : Frame) (w : World) :
  is_data frame -> final frame = false ->
  verified (client w) frame = true ->
  recv_frame frame w = (Ok tt, accepted true frame [] w).
Proof.
  intros Ho Hf Hv. rewrite (recv_frame_data_steps frame w Ho Hv).
  rewrite Hf. unfold bindM, ret, modify_client, accepted, set_last_frame.
  cbn [client calls entropy set_constructor constructor append_frame
       frame_setup].
  rewrite app_nil_r. reflexivity.
Qed.

Lemma recv_frame_fragment_witness :
  recv_frame fragment_1 (established [plain_extension])
  = (Ok tt, accepted true fragment_1 [] (established [plain_extension])).
Proof.
  apply (recv_frame_fragment fragment_1 (established [plain_extension])).
  - left. reflexivity.
  - reflexivity.
  - reflexivity.
Defined.

(** X12.  When the message cannot be assembled (a text that is not
    UTF-8), the exception leaves [recv_frame]: the frame stays among the
    pending frames, but it does not become the last frame, no callback
    is made and no Close frame is sent. *)
Theorem recv_frame_unassembled (frame : Frame) (e : exn) (w : World) :
  is_data frame -> final frame = true ->
  verified (client w) frame = true ->
  Message_init (frame_setup (constructor (client w)) ++ [frame]) = Raise e ->
  recv_frame frame w
  = (Raise e,
     mkWorld (set_constructor (append_frame frame (constructor (client w)))
                              (client w))
             (calls w) (entropy w)).
Proof.
  intros Ho Hf Hv Hm. rewrite (recv_frame_data_steps frame w Ho Hv).
  rewrite Hf. unfold bindM, get_client, lift.
  cbn [client set_constructor constructor append_frame frame_setup].
  rewrite Hm. reflexivity.
Qed.

Lemma recv_frame_unassembled_witness :
  recv_frame broken_text (established [])
  = (Raise UnicodeDecodeError,
     mkWorld (set_constructor
                (append_frame broken_text
                              (constructor (client (established []))))
                (client (established [])))
             (calls (established [])) (entropy (established []))).
Proof.
  apply (recv_frame_unassembled broken_text UnicodeDecodeError
                                (established [])).
  - left. reflexivity.
  - reflexivity.
  - reflexivity.
  - reflexivity.
Defined.

(** X13.  A Continuation frame that follows a final frame which is not
    a control frame is refused; on a writable transport the connection
    is closed with a Close frame of code 1002 and the reason "Sent
    continuation after final frame.". *)
Theorem continuation_after_final_closes_1002 (frame last : Frame)
    (w : World) :
  opcode frame = Some CONTINUATION ->
  last_frame (constructor (client w)) = Some last ->
  final last = true ->
  is_data last \/ opcode last = Some CONTINUATION ->
  writable (socket (client w)) = true ->
  rejected_1002 after_final_reason frame w.
Proof.
  intros Ho Hl Hf Hk Hw. apply rejected_sends_1002.
  - unfold verify. rewrite Ho, Hl, Hf.
    destruct Hk as [[-> | ->] | ->]; reflexivity.
  - exact Hw.
  - vm_compute. reflexivity.
  - reason_facts.
  - vm_compute. discriminate.
Qed.

Lemma continuation_after_final_closes_1002_witness :
  rejected_1002 after_final_reason continuation_frame after_text.
Proof.
  apply (continuation_after_final_closes_1002 continuation_frame
                                              (whole_text "a") after_text).
  - reflexivity.
  - reflexivity.
  - reflexivity.
  - left. left. reflexivity.
  - reflexivity.
Defined.

(* ----------------------------------------------------------------- *)
(** ** What receiving never does *)

Lemma steady_refl (w : World) : steady w w.
Proof. unfold steady. auto 10. Qed.

Lemma steady_trans (x y z : World) : steady x y -> steady y z -> steady x z.
Proof.
  unfold steady. intros (H1 & H2 & H3 & H4 & H5) (K1 & K2 & K3 & K4 & K5).
  repeat split; try congruence.
  destruct K1 as [K1 | K1]; [|right; exact K1].
  destruct H1 as [H1 | H1]; [left | right]; congruence.
Qed.

Lemma preserves_bind {A B : Type} (m : M A) (k : A -> M B) :
  preserves steady m -> (forall a, preserves steady (k a)) ->
  preserves steady (bindM m k).
Proof.
  intros Hm Hk w. unfold bindM. specialize (Hm w).
  destruct (m w) as [[a|e] w1]; cbn [snd] in *.
  - apply (steady_trans w w1); [exact Hm | apply Hk].
  - exact Hm.
Qed.

Lemma preserves_same_client {A : Type} (m : M A) :
  (forall w, client (snd (m w)) = client w) -> preserves steady m.
Proof.
  intros H w. unfold steady. rewrite (H w). auto 10.
Qed.

Lemma preserves_modify (f : Client -> Client) :
  (forall c, (status (f c) = status c \/ status (f c) = CLOSING)
             /\ socket (f c) = socket c
             /\ extensions (f c) = extensions c
             /\ uri (f c) = uri c) ->
  preserves steady (modify_client f).
Proof.
  intros H w. unfold steady, modify_client. cbn [snd client].
  destruct (H (client w)) as (H1 & H2 & H3 & H4).
  rewrite H2. auto 10.
Qed.

Lemma preserves_socket_send (data : bytes) :
  preserves steady (socket_send data).
Proof.
  intros w. unfold socket_send, bindM, get_client.
  destruct (writable (socket (client w))).
  - unfold steady. cbn. auto 10.
  - apply steady_refl.
Qed.

Lemma preserves_with_entropy {A : Type}
    (k : Entropy -> result A * Entropy) :
  preserves steady (with_entropy k).
Proof.
  apply preserves_same_client. intros w. unfold with_entropy.
  destruct (k (entropy w)). reflexivity.
Qed.

Ltac steady_step :=
  first
    [ apply preserves_socket_send
    | apply preserves_with_entropy
    | apply preserves_bind; [|intros ?]
    | apply preserves_same_client; intros ?; reflexivity
    | apply preserves_modify; intros ?; cbn; auto 10
    | match goal with
      | |- preserves steady (if ?b then _ else _) => destruct b
      end ].

Lemma preserves_close (code : Z) (reason : option str) :
  preserves steady (close code reason).
Proof.
  unfold close, enum_truthy, send_control. cbv iota. repeat steady_step.
Qed.

Lemma preserves_recv_frame (frame : Frame) :
  preserves steady (recv_frame frame).
Proof.
  unfold recv_frame. steady_step; [steady_step|].
  steady_step; [steady_step|].
  destruct a0 as [[|] reason]; cbn [negb].
  - unfold Client_on_close, close_default.
    repeat first [ apply preserves_close | steady_step ].
  - apply preserves_close.
Qed.

Lemma preserves_recv_frames (frames : list Frame) :
  preserves steady (recv_frames frames).
Proof.
  induction frames as [|f rest IH]; cbn [recv_frames].
  - steady_step.
  - steady_step; [apply preserves_recv_frame | exact IH].
Qed.

(** X14.  Whatever frames arrive, and whether or not handling them
    raises, the receiving side never closes or reconnects the transport,
    never changes the extensions, and changes the status only to
    [CLOSING]: in particular it never reaches [CLOSED]. *)
Theorem receiving_keeps_transport_open (frames : list Frame) (w : World) :
  steady w (snd (recv_frames frames w)).
Proof. apply preserves_recv_frames. Qed.

(** X15.  The pending frames only ever grow: after any sequence of
    frames they are the former pending frames followed by some of the
    frames received. *)
Theorem pending_is_never_emptied (frames : list Frame) (w : World) :
  exists more,
    frame_setup (constructor (client (snd (recv_frames frames w))))
    = frame_setup (constructor (client w)) ++ more.
Proof.
  revert w. induction frames as [|f rest IH]; intros w; cbn [recv_frames].
  - exists []. cbn. rewrite app_nil_r. reflexivity.
  - unfold bindM.
    pose proof (recv_frame_pending_grows f w) as G. cbv zeta in G.
    destruct (recv_frame f w) as [[u|e] w1]; cbn [snd] in *.
    + destruct (IH w1) as [more Hm]. rewrite Hm.
      destruct G as [-> | ->].
      * exists more. reflexivity.
      * exists ([f] ++ more). rewrite <- app_assoc. reflexivity.
    + destruct G as [-> | ->].
      * exists []. rewrite app_nil_r. reflexivity.
      * exists [f]. reflexivity.
Qed.

(** X16.  An accepted Close frame whose payload parses is handed to
    every extension, recorded as the close reason, and answered: the
    status becomes [CLOSING] and a Close frame with code 1000 and no
    reason is written, whatever code was received.  The transport is not
    closed, and the frame becomes the last frame. *)
Theorem recv_frame_close_answered (frame : Frame) (c : Close) (w : World) :
  opcode frame = Some CLOSE ->
  verified (client w) frame = true ->
  Close_init frame = Ok c ->
  writable (socket (client w)) = true ->
  exists w' data g,
    recv_frame frame w = (Ok tt, w')
    /\ close_reason (client w') = Some c
    /\ status (client w') = CLOSING
    /\ constructor (client w')
       = mkWSConstructor (frame_setup (constructor (client w))) (Some frame)
    /\ sock_sent (socket (client w'))
       = sock_sent (socket (client w)) ++ [data]
    /\ decodes_to data g
    /\ opcode g = Some CLOSE /\ payload g = [3; 232]
    /\ sock_closed (socket (client w')) = sock_closed (socket (client w))
    /\ calls w' = calls w ++ close_calls w c.
Proof.
  intros Ho Hv Hc Hw.
  set (w1 := mkWorld (set_status CLOSING
                        (set_close_reason (Some c) (client w)))
                     (calls w
                      ++ map (fun i => extension_called i (on_close c))
                             (seq 0 (List.length (extensions (client w)))))
                     (entropy w)).
  destruct (close_default_sends w1) as [w2 [Hcl Hs]]; [exact Hw|].
  destruct Hs as (data & g & Hsent & Hdec & _ & Hop & Hpl & Hst & Hclosed
                  & Hcons & Hext & Hreason & Hcalls).
  exists (mkWorld (set_constructor (set_last_frame frame
                                                   (constructor (client w2)))
                                   (client w2))
                  (calls w2) (entropy w2)), data, g.
  split.
  { unfold recv_frame. unfold bindM at 1. unfold get_client at 1.
    cbv beta iota. unfold bindM at 1. unfold lift at 1.
    unfold verified in Hv.
    destruct (verify (client w) frame) as [[good reason]|ex];
      [|discriminate].
    subst good. cbv beta iota. cbn [negb]. rewrite Ho.
    cbn [opcode_is FrameOpcode_eqb orb].
    rewrite (bindM_ok _ _ w w2 tt); [reflexivity|].
    rewrite (bindM_ok _ _ w w c) by (unfold lift; rewrite Hc; reflexivity).
    erewrite bindM_ok by reflexivity.
    unfold Client_on_close.
    erewrite bindM_ok by reflexivity.
    erewrite bindM_ok by reflexivity.
    exact Hcl. }
  cbn [client set_constructor close_reason status constructor socket
       set_last_frame calls].
  rewrite Hreason, Hst, Hcons, Hsent, Hclosed, Hcalls.
  unfold close_calls, before_close_calls.
  cbn [w1 client calls set_status set_close_reason close_reason constructor
       socket extensions].
  rewrite <- app_assoc.
  repeat split; auto.
Qed.

Lemma recv_frame_close_answered_witness :
  exists w' data g,
    recv_frame going_away (established []) = (Ok tt, w')
    /\ close_reason (client w')
       = Some (mkClose (Some CLOSE) [3; 233] (Some [1001]) None)
    /\ status (client w') = CLOSING
    /\ constructor (client w')
       = mkWSConstructor
           (frame_setup (constructor (client (established []))))
           (Some going_away)
    /\ sock_sent (socket (client w'))
       = sock_sent (socket (client (established []))) ++ [data]
    /\ decodes_to data g
    /\ opcode g = Some CLOSE /\ payload g = [3; 232]
    /\ sock_closed (socket (client w'))
       = sock_closed (socket (client (established [])))
    /\ calls w'
       = calls (established [])
         ++ close_calls (established [])
                        (mkClose (Some CLOSE) [3; 233] (Some [1001]) None).
Proof.
  apply (recv_frame_close_answered
           going_away (mkClose (Some CLOSE) [3; 233] (Some [1001]) None)
           (established [])).
  - reflexivity.
  - reflexivity.
  - reflexivity.
  - reflexivity.
Defined.

(* ----------------------------------------------------------------- *)
(** ** The read loop *)

Lemma collect_frames_enough (n : nat) :
  forall stream w,
  (List.length (buffer stream) < n)%nat ->
  exists r, forall m, (n <= m)%nat -> collect_frames m stream w = Some r.
Proof.
  induction n as [|n IH]; intros stream w Hn; [lia|].
  destruct (load stream) as [[f s']|e] eqn:El.
  - destruct (load_progress stream s' f El)
      as (_ & _ & (used & Hu & Hl) & _).
    destruct (recv_frame f w) as [[u|e] w'] eqn:Er.
    + destruct (IH s' w') as [r Hr].
      { rewrite Hu, length_app in Hn. lia. }
      exists r. intros m Hm. destruct m as [|m]; [lia|].
      cbn [collect_frames]. rewrite El, Er. apply Hr. lia.
    + exists (Raise e, w'). intros m Hm. destruct m as [|m]; [lia|].
      cbn [collect_frames]. rewrite El, Er. reflexivity.
  - exists (match e with struct_error => Ok tt | _ => Raise e end, w).
    intros m Hm. destruct m as [|m]; [lia|].
    cbn [collect_frames]. rewrite El. destruct e; reflexivity.
Qed.

(** X17.  The read loop ends on every stream: with more rounds than the
    stream has bytes it always returns a result, and more rounds do not
    change that result. *)
Theorem collect_frames_terminates (stream : BinaryIO) (w : World) :
  exists r,
    forall fuel, (List.length (buffer stream) < fuel)%nat ->
                 collect_frames fuel stream w = Some r.
Proof.
  destruct (collect_frames_enough (S (List.length (buffer stream)))
                                  stream w) as [r Hr]; [lia|].
  exists r. intros fuel Hf. apply Hr. lia.
Qed.

(** X18.  At the end of the data the read loop returns normally and
    leaves the world as it is; on a closed stream it does not return:
    [InterruptedError] leaves the loop. *)
Theorem collect_frames_at_end (fuel : nat) (stream : BinaryIO) (w : World) :
  (List.length (buffer stream) < 2)%nat ->
  collect_frames (S fuel) stream w
  = Some (if closed stream then Raise InterruptedError else Ok tt, w).
Proof.
  destruct stream as [c [|a [|b r]]]; cbn [buffer List.length closed];
    intros H; try lia; destruct c; reflexivity.
Qed.

Lemma collect_frames_at_end_witness :
  collect_frames 1 (mkBinaryIO false [129]) (established [])
  = Some (Ok tt, established []).
Proof.
  apply (collect_frames_at_end 0 (mkBinaryIO false [129]) (established [])).
  simpl. lia.
Defined.

Lemma load_empty : load (mkBinaryIO false []) = Raise struct_error.
Proof. reflexivity. Qed.

Lemma collect_frames_built (frames : list Frame) :
  Forall carried frames ->
  exists data,
    build_all frames = Ok data
    /\ forall w fuel,
         (List.length frames < fuel)%nat ->
         collect_frames fuel (mkBinaryIO false data) w
         = Some (recv_frames frames w).
Proof.
  induction frames as [|f rest IH]; intros H.
  - exists []. split; [reflexivity|]. intros w fuel Hf.
    destruct fuel as [|fuel]; [cbn in Hf; lia|]. reflexivity.
  - inversion H as [|? ? [Hv Hc] Hrest]; subst.
    destruct (IH Hrest) as [ds [Hds Hrun]].
    destruct (load_build_app f ds Hv Hc) as [d [Hd Hl]].
    exists (d ++ ds). split.
    + cbn [build_all]. rewrite Hd, Hds. reflexivity.
    + intros w fuel Hf. destruct fuel as [|fuel]; [cbn in Hf; lia|].
      cbn [collect_frames recv_frames]. rewrite Hl. unfold bindM.
      destruct (recv_frame f w) as [[u|e] w']; [|reflexivity].
      apply Hrun. cbn [List.length] in Hf. lia.
Qed.

(** X19.  Reading what was built: on a stream that holds the encodings
    of frames the codec carries faithfully, one after the other, the
    read loop does exactly what [recv_frame] does on these frames in
    order, and stops where [recv_frame] raises. *)
Theorem collect_frames_follows_frames (frames : list Frame) :
  Forall carried frames ->
  exists data,
    build_all frames = Ok data
    /\ forall w fuel,
         (List.length frames < fuel)%nat ->
         collect_frames fuel (mkBinaryIO false data) w
         = Some (recv_frames frames w).
Proof. apply collect_frames_built. Qed.

Lemma carried_masked_frame : carried masked_frame.
Proof.
  split; [exact masked_frame_valid|]. left. vm_compute. discriminate.
Qed.

Lemma collect_frames_follows_frames_witness :
  exists data,
    build_all [masked_frame; masked_frame] = Ok data
    /\ forall w fuel,
         (List.length [masked_frame; masked_frame] < fuel)%nat ->
         collect_frames fuel (mkBinaryIO false data) w
         = Some (recv_frames [masked_frame; masked_frame] w).
Proof.
  apply (collect_frames_follows_frames [masked_frame; masked_frame]).
  constructor; [apply carried_masked_frame|].
  constructor; [apply carried_masked_frame | constructor].
Defined.

(* ----------------------------------------------------------------- *)
(** ** UTF-8 there and back *)

Lemma between_true (lo x hi : Z) : lo <= x <= hi -> between lo x hi = true.
Proof. intros H. unfold between. apply andb_true_iff. lia. Qed.

Lemma between_false (lo x hi : Z) :
  x < lo \/ hi < x -> between lo x hi = false.
Proof. intros H. unfold between. apply andb_false_iff. lia. Qed.

Lemma between_iff (lo x hi : Z) : between lo x hi = true <-> lo <= x <= hi.
Proof. unfold between. rewrite andb_true_iff. lia. Qed.

Lemma between_not (lo x hi : Z) :
  between lo x hi = false <-> x < lo \/ hi < x.
Proof. unfold between. rewrite andb_false_iff. lia. Qed.

Ltac arith := Z.div_mod_to_equations; lia.

Ltac wf_list :=
  apply Forall_forall; intros ? Hx; cbn [In] in Hx; unfold wf_byte;
  repeat (destruct Hx as [<- | Hx]; [arith|]); contradiction.

Ltac decide_between :=
  repeat match goal with
         | |- context [between ?lo ?x ?hi] =>
             first
               [ rewrite (between_true lo x hi) by arith
               | rewrite (between_false lo x hi) by arith ]
         | |- context [?a =? ?b] =>
             first
               [ replace (a =? b) with true by (symmetry; apply Z.eqb_eq; arith)
               | replace (a =? b) with false
                   by (symmetry; apply Z.eqb_neq; arith) ]
         end.

(** One character: its encoding is made of bytes and decodes to it. *)
Lemma Ok_inj {A : Type} (a b : A) : Ok a = Ok b -> a = b.
Proof. intros H. congruence. Qed.

Lemma utf8_char_roundtrip (c : Z) (bs : bytes) :
  utf8_encode_char c = Ok bs ->
  wf_bytes bs
  /\ forall rest,
       utf8_decode (bs ++ rest) = (s <- utf8_decode rest ;; Ok (c :: s)).
Proof.
  unfold utf8_encode_char.
  destruct (between 0 c 127) eqn:E1.
  { intros H. apply Ok_inj in H. subst bs. apply between_iff in E1. split.
    - wf_list.
    - intros rest. cbn [app utf8_decode]. decide_between. reflexivity. }
  destruct (between 128 c 2047) eqn:E2.
  { intros H. apply Ok_inj in H. subst bs. apply between_iff in E2. split.
    - wf_list.
    - intros rest. cbn [app utf8_decode]. unfold is_cont.
      decide_between. cbn [andb].
      replace ((192 + c / 64 - 192) * 64 + (128 + c mod 64 - 128)) with c
        by arith.
      reflexivity. }
  destruct (between 55296 c 57343) eqn:E3; [discriminate|].
  destruct (between 2048 c 65535) eqn:E4.
  { intros H. apply Ok_inj in H. subst bs. apply between_iff in E4.
    apply between_not in E3. split.
    - wf_list.
    - intros rest. cbn [app utf8_decode]. unfold is_cont.
      destruct (Z.eq_dec (c / 4096) 0) as [Ea | Ea];
        destruct (Z.eq_dec (c / 4096) 13) as [Eb | Eb];
        try (exfalso; lia);
        decide_between; cbn [andb];
        replace ((224 + c / 4096 - 224) * 4096
                 + (128 + (c / 64) mod 64 - 128) * 64
                 + (128 + c mod 64 - 128)) with c by arith;
        reflexivity. }
  destruct (between 65536 c 1114111) eqn:E5; [|discriminate].
  intros H. apply Ok_inj in H. subst bs. apply between_iff in E5. split.
  - wf_list.
  - intros rest. cbn [app utf8_decode]. unfold is_cont.
    destruct (Z.eq_dec (c / 262144) 0) as [Ea | Ea];
      destruct (Z.eq_dec (c / 262144) 4) as [Eb | Eb];
      try (exfalso; lia);
      decide_between; cbn [andb];
      replace ((240 + c / 262144 - 240) * 262144
               + (128 + (c / 4096) mod 64 - 128) * 4096
               + (128 + (c / 64) mod 64 - 128) * 64
               + (128 + c mod 64 - 128)) with c by arith;
      reflexivity.
Qed.

Lemma utf8_roundtrip (s : str) (b : bytes) :
  utf8_encode s = Ok b -> wf_bytes b /\ utf8_decode b = Ok s.
Proof.
  revert b. induction s as [|c rest IH]; intros b H.
  - inversion H. split; [constructor | reflexivity].
  - cbn [utf8_encode] in H.
    apply bind_Ok in H. destruct H as [bc [Hc H]].
    apply bind_Ok in H. destruct H as [br [Hr H]]. inversion H; subst.
    destruct (utf8_char_roundtrip c bc Hc) as [Hw Hd].
    destruct (IH br Hr) as [Hwr Hdr]. split.
    + apply Forall_app. split; assumption.
    + rewrite Hd, Hdr. reflexivity.
Qed.

(* ----------------------------------------------------------------- *)
(** ** [send_message] *)

Lemma decode_encoded_built (f g : Frame) :
  decode_encoded f = Ok g -> exists data, build f = Ok data.
Proof.
  unfold decode_encoded. destruct (build f) as [data|e]; [eauto|discriminate].
Qed.

(** Every valid frame with a payload below 2^64 bytes can be built. *)
Lemma build_total (f : Frame) :
  valid_Frame f -> len (payload f) < 2 ^ 64 -> exists data, build f = Ok data.
Proof.
  intros Hv Hl.
  destruct (Z.le_gt_cases (len (payload f)) 125) as [H1 | H1].
  - apply (decode_encoded_built f f). apply decode_encoded_short; assumption.
  - destruct (Z.le_gt_cases (len (payload f)) 65535) as [H2 | H2].
    + destruct (decode_encoded_medium f Hv) as [g [Hg _]]; [lia|].
      apply (decode_encoded_built f g Hg).
    + apply (decode_encoded_built f f). apply decode_encoded_long;
        [assumption | lia].
Qed.

Lemma message_chunks_single (b : bytes) :
  b <> [] -> len b < 2 ^ 64 -> message_chunks b = [b].
Proof.
  intros Hb Hl. unfold message_chunks.
  destruct b as [|x r]; [congruence|].
  assert (Hpos : 0 < len (x :: r)) by (unfold len; cbn [List.length]; lia).
  cbn [List.length range_step].
  replace (0 <? len (x :: r)) with true by (symmetry; apply Z.ltb_lt; lia).
  assert (Hstop : range_step (List.length r) (0 + MAX_SIZE) (len (x :: r))
                             MAX_SIZE = []).
  { destruct (List.length r); [reflexivity|]. cbn [range_step].
    replace (0 + MAX_SIZE <? len (x :: r)) with false; [reflexivity|].
    symmetry. apply Z.ltb_ge. unfold MAX_SIZE. lia. }
  rewrite Hstop. cbn [map]. unfold slice.
  replace (Z.min (0 + MAX_SIZE) (len (x :: r)) - 0) with (len (x :: r))
    by (unfold MAX_SIZE; lia).
  change (Z.to_nat 0) with 0%nat. cbn [skipn]. unfold len.
  rewrite Nat2Z.id, firstn_all. reflexivity.
Qed.

Lemma message_rsvs_fold (extensions : list Extension) (a : bool * bool * bool) :
  fold_left (fun _ extension =>
               (should_set extension 0 class_Frame,
                should_set extension 1 class_Frame,
                should_set extension 2 class_Frame))
            extensions a
  = (fold_left (fun _ e => should_set e 0 class_Frame) extensions (fst (fst a)),
     fold_left (fun _ e => should_set e 1 class_Frame) extensions (snd (fst a)),
     fold_left (fun _ e => should_set e 2 class_Frame) extensions (snd a)).
Proof.
  revert a. induction extensions as [|e rest IH]; intros [[a1 a2] a3].
  - reflexivity.
  - cbn [fold_left]. rewrite IH. reflexivity.
Qed.

Lemma message_rsvs_spec (extensions : list Extension) :
  message_rsvs extensions
  = (set_by_extensions extensions 0 class_Frame,
     set_by_extensions extensions 1 class_Frame,
     set_by_extensions extensions 2 class_Frame).
Proof. unfold message_rsvs. rewrite message_rsvs_fold. reflexivity. Qed.

Lemma message_bytes_wf (msg : PyData) (b : bytes) :
  wf_data msg -> message_bytes msg = Ok b -> wf_bytes b.
Proof.
  destruct msg as [s|b']; cbn [wf_data message_bytes]; intros Hw H.
  - apply (utf8_roundtrip s b H).
  - apply Ok_inj in H. subst. exact Hw.
Qed.

(** X20.  An empty message, text or binary, is not sent: no frame is
    written to the transport, not even an empty one, [before_frame] is
    not triggered, and [send_message] returns with the connection as it
    was.  The extensions are asked [should_set] all the same; that is a
    query, which [calls] does not record. *)
Theorem send_message_empty (w : World) :
  send_message (data_bytes []) w = (Ok tt, w)
  /\ send_message (data_str []) w = (Ok tt, w).
Proof.
  unfold send_message, bindM, lift, get_client.
  cbn [utf8_encode message_chunks List.length range_step map len].
  destruct (message_rsvs (extensions (client w))) as [[r1 r2] r3].
  split; reflexivity.
Qed.

Lemma send_message_single (msg : PyData) (b : bytes) (w : World) :
  message_bytes msg = Ok b -> wf_data msg ->
  b <> [] -> len b < 2 ^ 64 ->
  writable (socket (client w)) = true ->
  exists mask data w',
    let frame := mkFrame true
                         (outgoing_rsvs (extensions (client w)) class_Frame)
                         (Some (message_opcode msg)) b mask in
    send_message msg w = (Ok tt, w')
    /\ build frame = Ok data
    /\ mask_fits (client w) mask
    /\ sock_sent (socket (client w'))
       = sock_sent (socket (client w)) ++ [data]
    /\ calls w' = calls w ++ before_frame_calls w frame
    /\ status (client w') = status (client w)
    /\ constructor (client w') = constructor (client w)
    /\ close_reason (client w') = close_reason (client w).
Proof.
  intros Hm Hd Hb Hl Hw.
  pose proof (message_bytes_wf msg b Hd Hm) as Hwf.
  assert (Hop : message_opcode msg <> RESERVED) by (destruct msg; discriminate).
  unfold send_message.
  change (match msg with
          | data_str s => utf8_encode s
          | data_bytes b0 => Ok b0
          end) with (message_bytes msg).
  rewrite (bindM_ok _ _ w w b) by (unfold lift; rewrite Hm; reflexivity).
  rewrite (message_chunks_single b Hb Hl).
  erewrite bindM_ok by reflexivity.
  rewrite message_rsvs_spec.
  fold (outgoing_rsvs (extensions (client w)) class_Frame).
  set (rs := outgoing_rsvs (extensions (client w)) class_Frame).
  replace (if match msg with
              | data_str _ => true
              | data_bytes _ => false
              end then TEXT else BINARY)
    with (message_opcode msg) by (destruct msg; reflexivity).
  cbn [send_parts].
  change (0 =? len [b] - 1) with true.
  erewrite bindM_ok by reflexivity.
  destruct w as [c evs e]. cbn [client calls entropy] in *.
  destruct (is_secure c) eqn:Es; cbn [negb].
  - assert (Hv : valid_Frame (mkFrame true rs (Some (message_opcode msg)) b
                                      None)).
    { unfold valid_Frame, rs, outgoing_rsvs.
      cbn [rsvs rsv1 rsv2 rsv3 opcode payload mask].
      repeat split; try apply bit_b2z; try exact Hwf. eauto. }
    destruct (build_total _ Hv Hl) as [data Hdata].
    exists None, data. eexists. cbv zeta.
    split.
    { erewrite bindM_ok by reflexivity.
      erewrite bindM_ok by reflexivity.
      erewrite bindM_ok by (unfold lift; rewrite Hdata; reflexivity).
      erewrite bindM_ok
        by (unfold socket_send, bindM, get_client, modify_client;
            cbn [client]; rewrite Hw; reflexivity).
      reflexivity. }
    cbn [client calls set_socket socket sock_sent status constructor
         close_reason].
    unfold mask_fits, before_frame_calls. cbn [client].
    repeat split; auto.
  - set (m := fst (urandom 4 e)).
    assert (Hv : valid_Frame (mkFrame true rs (Some (message_opcode msg)) b
                                      (Some m))).
    { unfold valid_Frame, rs, outgoing_rsvs.
      cbn [rsvs rsv1 rsv2 rsv3 opcode payload mask].
      repeat split; try apply bit_b2z; try exact Hwf;
        try apply urandom_wf. eauto. }
    destruct (build_total _ Hv Hl) as [data Hdata].
    exists (Some m), data. eexists. cbv zeta.
    split.
    { rewrite (bindM_ok _ _ (mkWorld c evs e)
                 (mkWorld c evs (snd (urandom 4 e))) (Some m))
        by reflexivity.
      erewrite bindM_ok by reflexivity.
      erewrite bindM_ok by (unfold lift; rewrite Hdata; reflexivity).
      erewrite bindM_ok
        by (unfold socket_send, bindM, get_client, modify_client;
            cbn [client]; rewrite Hw; reflexivity).
      reflexivity. }
    cbn [client calls set_socket socket sock_sent status constructor
         close_reason].
    unfold mask_fits, before_frame_calls. cbn [client].
    repeat split; auto. apply urandom_wf.
Qed.

(** X21.  A message that is not empty goes out as one final frame: Text
    for a [str], Binary for [bytes], with the whole message as payload,
    the reserved bits the extensions ask for, and a fresh four-byte mask
    unless the URI scheme is wss.  Every extension's [before_frame] hook
    sees the frame first; the status, the assembler and the close reason
    are not touched, and the status is not even looked at. *)
Theorem send_message_one_frame (msg : PyData) (b : bytes) (w : World) :
  message_bytes msg = Ok b -> wf_data msg ->
  b <> [] -> len b < 2 ^ 64 ->
  writable (socket (client w)) = true ->
  exists mask data w',
    let frame := mkFrame true
                         (outgoing_rsvs (extensions (client w)) class_Frame)
                         (Some (message_opcode msg)) b mask in
    send_message msg w = (Ok tt, w')
    /\ build frame = Ok data
    /\ mask_fits (client w) mask
    /\ sock_sent (socket (client w'))
       = sock_sent (socket (client w)) ++ [data]
    /\ calls w' = calls w ++ before_frame_calls w frame
    /\ status (client w') = status (client w)
    /\ constructor (client w') = constructor (client w)
    /\ close_reason (client w') = close_reason (client w).
Proof. apply send_message_single. Qed.

Lemma send_message_one_frame_witness :
  exists mask data w',
    let frame := mkFrame true
                   (outgoing_rsvs
                      (extensions (client (established [rsv2_setter])))
                      class_Frame)
                   (Some (message_opcode (data_str (lit "hi"))))
                   (lit "hi") mask in
    send_message (data_str (lit "hi")) (established [rsv2_setter])
    = (Ok tt, w')
    /\ build frame = Ok data
    /\ mask_fits (client (established [rsv2_setter])) mask
    /\ sock_sent (socket (client w'))
       = sock_sent (socket (client (established [rsv2_setter]))) ++ [data]
    /\ calls w'
       = calls (established [rsv2_setter])
         ++ before_frame_calls (established [rsv2_setter]) frame
    /\ status (client w') = status (client (established [rsv2_setter]))
    /\ constructor (client w')
       = constructor (client (established [rsv2_setter]))
    /\ close_reason (client w')
       = close_reason (client (established [rsv2_setter])).
Proof.
  apply (send_message_one_frame (data_str (lit "hi")) (lit "hi")
                                (established [rsv2_setter])).
  - reflexivity.
  - exact I.
  - discriminate.
  - vm_compute. reflexivity.
  - reflexivity.
Defined.

(** X22.  What one client sends, another receives: for a message whose
    bytes the codec carries faithfully, the frame written by
    [send_message], once read by [load] and assembled, is a message of
    the same kind with the same content; a text comes back as the same
    [str]. *)
Theorem sent_message_is_received (msg : PyData) (b : bytes) (w : World) :
  message_bytes msg = Ok b -> wf_data msg ->
  b <> [] -> codec_length (len b) ->
  writable (socket (client w)) = true ->
  exists data g,
    sock_sent (socket (client (snd (send_message msg w))))
    = sock_sent (socket (client w)) ++ [data]
    /\ decodes_to data g
    /\ Message_init [g] = Ok (message_of msg).
Proof.
  intros Hm Hd Hb Hc Hw.
  assert (Hl : len b < 2 ^ 64) by (destruct Hc; lia).
  destruct (send_message_single msg b w Hm Hd Hb Hl Hw)
    as (mk & data & w' & Hs & Hbuild & Hfit & Hsent & _).
  cbv zeta in Hs, Hbuild.
  set (frame := mkFrame true
                        (outgoing_rsvs (extensions (client w)) class_Frame)
                        (Some (message_opcode msg)) b mk) in *.
  assert (Hv : valid_Frame frame).
  { unfold valid_Frame, frame, outgoing_rsvs.
    cbn [rsvs rsv1 rsv2 rsv3 opcode payload mask].
    repeat split; try apply bit_b2z.
    - exists (message_opcode msg). split; [reflexivity|].
      destruct msg; discriminate.
    - apply (message_bytes_wf msg b Hd Hm).
    - destruct mk as [m|]; [|exact I]. destruct Hfit as (_ & H4 & Hwm).
      split; assumption. }
  destruct (load_build_app frame [] Hv Hc) as [data' [Hb' Hload]].
  rewrite Hbuild in Hb'. apply Ok_inj in Hb'. subst data'.
  rewrite app_nil_r in Hload.
  exists data, frame. rewrite Hs. cbn [snd].
  split; [exact Hsent|]. split; [eexists; exact Hload|].
  unfold Message_init, frame. cbn [opcode payload map List.concat].
  rewrite app_nil_r.
  destruct msg as [s|b']; cbn [message_opcode opcode_is FrameOpcode_eqb
                               message_of message_bytes] in *.
  - destruct (utf8_roundtrip s b Hm) as [_ ->]. reflexivity.
  - apply Ok_inj in Hm. subst. reflexivity.
Qed.

Lemma sent_message_is_received_witness :
  exists data g,
    sock_sent (socket (client (snd (send_message (data_str (lit "hi"))
                                                 (established [])))))
    = sock_sent (socket (client (established []))) ++ [data]
    /\ decodes_to data g
    /\ Message_init [g] = Ok (message_of (data_str (lit "hi"))).
Proof.
  apply (sent_message_is_received (data_str (lit "hi")) (lit "hi")
                                  (established [])).
  - reflexivity.
  - exact I.
  - discriminate.
  - left. vm_compute. discriminate.
  - reflexivity.
Defined.

(* ----------------------------------------------------------------- *)
(** ** Control frames and close codes *)

Lemma ControlFrame_build_frame (cls : FrameClass)
    (extensions : list Extension) (masked : option bytes)
    (content : option bytes) (e : Entropy) :
  ControlFrame_build cls extensions masked content e
  = (build (mkFrame true (outgoing_rsvs extensions cls) (OPCODE cls)
                    (payload_or_empty content)
                    (if mask_requested masked
                     then Some (fst (urandom 4 e)) else None)),
     if mask_requested masked then snd (urandom 4 e) else e).
Proof.
  unfold ControlFrame_build, outgoing_rsvs, payload_or_empty.
  destruct masked as [[|m ms]|]; reflexivity.
Qed.

Lemma control_frame_decodes (cls : FrameClass)
    (extensions : list Extension) (masked : option bytes)
    (content : option bytes) (e : Entropy) :
  control_class cls ->
  wf_bytes (payload_or_empty content) ->
  codec_length (len (payload_or_empty content)) ->
  exists data g,
    fst (ControlFrame_build cls extensions masked content e) = Ok data
    /\ decodes_to data g
    /\ final g = true
    /\ opcode g = OPCODE cls
    /\ payload g = payload_or_empty content
    /\ rsvs g = outgoing_rsvs extensions cls
    /\ (mask g = None <-> mask_requested masked = false).
Proof.
  intros Hc Hw Hl. rewrite ControlFrame_build_frame. cbn [fst].
  set (f := mkFrame true (outgoing_rsvs extensions cls) (OPCODE cls)
                    (payload_or_empty content)
                    (if mask_requested masked
                     then Some (fst (urandom 4 e)) else None)).
  assert (Hv : valid_Frame f).
  { unfold valid_Frame, f, outgoing_rsvs.
    cbn [rsvs rsv1 rsv2 rsv3 opcode payload mask].
    repeat split; try apply bit_b2z; try exact Hw.
    - destruct Hc as [-> | [-> | ->]]; eexists;
        (split; [reflexivity | discriminate]).
    - destruct (mask_requested masked); [|exact I].
      split; [reflexivity | apply urandom_wf]. }
  destruct (load_build_app f [] Hv Hl) as [data [Hb Hload]].
  rewrite app_nil_r in Hload.
  exists data, f. split; [exact Hb|]. split; [eexists; exact Hload|].
  unfold f. cbn [final opcode payload rsvs mask].
  repeat split; destruct (mask_requested masked); congruence.
Qed.

(** X23.  A Ping, Pong or Close frame built by [ControlFrame.build] is
    read back by [load] as a final frame with the opcode of its class,
    the given payload (empty when none is given) and the reserved bits
    the extensions ask for; it is masked exactly when the [mask]
    argument is true. *)
Theorem ControlFrame_build_decodes (cls : FrameClass)
    (extensions : list Extension) (masked : option bytes)
    (content : option bytes) (e : Entropy) :
  control_class cls ->
  wf_bytes (payload_or_empty content) ->
  codec_length (len (payload_or_empty content)) ->
  exists data g,
    fst (ControlFrame_build cls extensions masked content e) = Ok data
    /\ decodes_to data g
    /\ final g = true
    /\ opcode g = OPCODE cls
    /\ payload g = payload_or_empty content
    /\ rsvs g = outgoing_rsvs extensions cls
    /\ (mask g = None <-> mask_requested masked = false).
Proof. apply control_frame_decodes. Qed.

Lemma ControlFrame_build_decodes_witness :
  exists data g,
    fst (ControlFrame_build class_Ping [rsv2_setter] (Some sample_mask)
                            (Some (lit "ping")) quiet_entropy) = Ok data
    /\ decodes_to data g
    /\ final g = true
    /\ opcode g = OPCODE class_Ping
    /\ payload g = payload_or_empty (Some (lit "ping"))
    /\ rsvs g = outgoing_rsvs [rsv2_setter] class_Ping
    /\ (mask g = None <-> mask_requested (Some sample_mask) = false).
Proof.
  apply (ControlFrame_build_decodes class_Ping [rsv2_setter]
           (Some sample_mask) (Some (lit "ping")) quiet_entropy).
  - left. reflexivity.
  - vm_compute. repeat constructor; discriminate.
  - left. vm_compute. discriminate.
Defined.

Lemma Close_payload_code (code : Z) (reason : option str) :
  sendable_code code -> reason = None \/ reason = Some [] ->
  Close_payload (Some code) reason = Ok (be_bytes 2 code).
Proof.
  intros Hc Hr. unfold Close_payload, truthy_int, sendable_code in *.
  replace (code =? 0) with false by (symmetry; apply Z.eqb_neq; lia).
  cbn [negb]. unfold pack. cbn [calcsize].
  replace ((0 <=? code) && (code <? 2 ^ (8 * Z.of_nat 2))) with true.
  - destruct Hr as [-> | ->]; reflexivity.
  - symmetry. apply andb_true_iff. split; [apply Z.leb_le | apply Z.ltb_lt];
      change (2 ^ (8 * Z.of_nat 2)) with 65536; lia.
Qed.

(** X24.  A close code survives the trip: the frame [Close.build] makes
    for a code from 1 to 65535 and no reason is read back by [load] as
    a Close frame from which [Close] takes that code, in the one-item
    tuple [unpack] returns, and no reason. *)
Theorem Close_code_round_trip (extensions : list Extension)
    (masked : option bytes) (code : Z) (text : option str) (e : Entropy) :
  sendable_code code -> text = None \/ text = Some [] ->
  exists data g,
    fst (Close_build extensions masked (Some code) text e) = Ok data
    /\ decodes_to data g
    /\ Close_init g
       = Ok (mkClose (Some CLOSE) (be_bytes 2 code) (Some [code]) None).
Proof.
  intros Hc Hr. unfold Close_build.
  rewrite (Close_payload_code code text Hc Hr).
  destruct (control_frame_decodes class_Close extensions masked
              (Some (be_bytes 2 code)) e)
    as (data & g & Hb & Hd & _ & Ho & Hp & _).
  - right. right. reflexivity.
  - apply be_bytes_wf.
  - left. unfold payload_or_empty, len. rewrite be_bytes_length. lia.
  - exists data, g. split; [exact Hb|]. split; [exact Hd|].
    unfold Close_init, Close_load. rewrite Ho, Hp.
    cbn [payload_or_empty close_raw_data close_type OPCODE
         reason].
    unfold len. rewrite be_bytes_length. cbn [Z.of_nat Z.gtb Z.eqb
      Z.compare Pos.compare Pos.compare_cont Pos.of_succ_nat Pos.succ].
    unfold unpack. rewrite be_bytes_length. cbn [calcsize Nat.eqb bind].
    unfold sendable_code in Hc. rewrite be_value_be_bytes by lia.
    rewrite Z.mod_small by (change (2 ^ (8 * Z.of_nat 2)) with 65536; lia).
    reflexivity.
Qed.

Lemma Close_code_round_trip_witness :
  exists data g,
    fst (Close_build [] (Some sample_mask) (Some 1001) None quiet_entropy)
    = Ok data
    /\ decodes_to data g
    /\ Close_init g
       = Ok (mkClose (Some CLOSE) (be_bytes 2 1001) (Some [1001]) None).
Proof.
  apply (Close_code_round_trip [] (Some sample_mask) 1001 None
                               quiet_entropy).
  - unfold sendable_code. lia.
  - left. reflexivity.
Defined.

(** X25.  [close] with a code that does not fit two bytes fails before
    anything is written: [pack] raises [struct.error], no byte reaches
    the transport and the status stays what it was, although the
    extensions have already seen [before_control_frame]. *)
Theorem close_code_out_of_range (code : Z) (reason : option str)
    (w : World) :
  code < 0 \/ 65535 < code ->
  fst (close code reason w) = Raise struct_error
  /\ socket (client (snd (close code reason w))) = socket (client w)
  /\ status (client (snd (close code reason w))) = status (client w)
  /\ calls (snd (close code reason w)) = calls w ++ before_close_calls w.
Proof.
  intros Hc.
  assert (Hp : Close_payload (Some code) reason = Raise struct_error).
  { unfold Close_payload, truthy_int.
    replace (code =? 0) with false by (symmetry; apply Z.eqb_neq; lia).
    cbn [negb]. unfold pack. cbn [calcsize].
    replace ((0 <=? code) && (code <? 2 ^ (8 * Z.of_nat 2))) with false;
      [reflexivity|].
    symmetry. apply andb_false_iff.
    destruct Hc; [left; apply Z.leb_gt; lia
                 | right; apply Z.ltb_ge;
                   change (2 ^ (8 * Z.of_nat 2)) with 65536; lia]. }
  run. destruct w as [c evs e]. cbn [client calls entropy].
  rewrite Hp. unfold before_close_calls.
  destruct (negb (is_secure c)); cbn; auto.
Qed.

Lemma close_code_out_of_range_witness :
  fst (close 70000 None (established [])) = Raise struct_error
  /\ socket (client (snd (close 70000 None (established []))))
     = socket (client (established []))
  /\ status (client (snd (close 70000 None (established []))))
     = status (client (established []))
  /\ calls (snd (close 70000 None (established [])))
     = calls (established []) ++ before_close_calls (established []).
Proof. apply (close_code_out_of_range 70000 None (established [])). lia. Defined.

(* ----------------------------------------------------------------- *)
(** ** The key of the handshake *)

Lemma ascii_utf8_decode (s : str) : ascii_str s -> utf8_decode s = Ok s.
Proof.
  induction 1 as [|c rest Hc _ IH]; [reflexivity|].
  cbn [utf8_decode]. rewrite (between_true 0 c 127) by lia.
  rewrite IH. reflexivity.
Qed.

Lemma ascii_utf8_encode (s : str) : ascii_str s -> utf8_encode s = Ok s.
Proof.
  induction 1 as [|c rest Hc _ IH]; [reflexivity|].
  cbn [utf8_encode]. unfold utf8_encode_char.
  rewrite (between_true 0 c 127) by lia. rewrite IH. reflexivity.
Qed.

Lemma b64_char_ascii (i : Z) : 0 <= b64_char i <= 127.
Proof.
  unfold b64_char.
  destruct (nth_in_or_default (Z.to_nat i) b64_alphabet 0) as [H | ->];
    [|lia].
  revert H. generalize (nth (Z.to_nat i) b64_alphabet 0). intros c H.
  assert (A : Forall (fun c => 0 <= c <= 127) b64_alphabet).
  { vm_compute. repeat constructor; discriminate. }
  rewrite Forall_forall in A. apply A. exact H.
Qed.

Lemma b64_group_ascii (g : bytes) : ascii_str (b64_group g).
Proof.
  unfold b64_group, ascii_str.
  destruct g as [|a [|b [|c [|d r]]]];
    repeat constructor; try apply b64_char_ascii; lia.
Qed.

Lemma b64encode_ascii (bs : bytes) : ascii_str (b64encode bs).
Proof.
  unfold b64encode, ascii_str.
  induction (chunks (List.length bs) 3 bs) as [|g gs IH]; cbn [map List.concat].
  - constructor.
  - apply Forall_app. split; [apply b64_group_ascii | exact IH].
Qed.

(** Whatever the key, once it is encoded the accept value can be
    computed. *)
Lemma expecting_key_total (u : WebsocketUpgrade.t) :
  ascii_str (WebsocketUpgrade.key u) ->
  exists accept, WebsocketUpgrade.expecting_key u = Ok accept
                 /\ ascii_str accept.
Proof.
  intros H. unfold WebsocketUpgrade.expecting_key.
  rewrite (ascii_utf8_encode _ H). cbn [bind].
  rewrite ascii_utf8_decode by apply b64encode_ascii.
  eexists. split; [reflexivity | apply b64encode_ascii].
Qed.

(** What [WebsocketUpgrade.__init__] leaves in the object. *)
Lemma init_fields (wss_uri : ParseResult.t) (extensions : list Extension)
    (host origin : option str) (e : Entropy) (u : WebsocketUpgrade.t) :
  fst (WebsocketUpgrade.init wss_uri extensions host origin e) = Ok u ->
  WebsocketUpgrade.key u = b64encode (fst (urandom 16 e))
  /\ WebsocketUpgrade.path u
     = match rstrip_slash (ParseResult.path wss_uri) with
       | [] => lit "/"
       | p => p
       end
  /\ WebsocketUpgrade.method u = lit "GET"
  /\ WebsocketUpgrade.protocol u = lit "HTTP/1.1"
  /\ In (lit "Sec-Websocket-Key", Some (WebsocketUpgrade.key u))
        (WebsocketUpgrade.headers u).
Proof.
  unfold WebsocketUpgrade.init.
  destruct (urandom 16 e) as [random e'] eqn:Er. cbn [fst].
  rewrite ascii_utf8_decode by apply b64encode_ascii. cbn [bind].
  intros H. apply bind_Ok in H. destruct H as [o [_ H]].
  apply bind_Ok in H. destruct H as [h [Hh H]].
  apply Ok_inj in H. subst u.
  cbn [WebsocketUpgrade.key WebsocketUpgrade.path WebsocketUpgrade.method
       WebsocketUpgrade.protocol WebsocketUpgrade.headers].
  repeat split.
  destruct extensions as [|x xs].
  - apply Ok_inj in Hh. subst h. cbn [In]. auto 10.
  - apply bind_Ok in Hh. destruct Hh as [names [_ Hh]].
    apply Ok_inj in Hh. subst h. apply in_or_app. left. cbn [In]. auto 10.
Qed.

Lemma generated_key_confirm (wss_uri : ParseResult.t)
    (extensions : list Extension) (host origin : option str) (e : Entropy)
    (u : WebsocketUpgrade.t) :
  fst (WebsocketUpgrade.init wss_uri extensions host origin e) = Ok u ->
  exists accept,
    WebsocketUpgrade.expecting_key u = Ok accept
    /\ ascii_str accept
    /\ In (lit "Sec-Websocket-Key", Some (WebsocketUpgrade.key u))
          (WebsocketUpgrade.headers u)
    /\ forall response,
         exists b, WebsocketUpgrade.confirm u response = Ok b
                   /\ (b = true <-> headers_match accept response).
Proof.
  intros H. destruct (init_fields _ _ _ _ _ _ H) as (Hk & _ & _ & _ & Hin).
  destruct (expecting_key_total u) as [accept [Ha Hascii]].
  { rewrite Hk. apply b64encode_ascii. }
  exists accept. repeat split; try assumption.
  intros response. apply confirm_iff. exact Ha.
Qed.

(** X26.  For every upgrade object [WebsocketUpgrade.__init__] can
    make, whatever the random bytes of the key: the key is among the
    request headers, the expected accept value can always be computed
    and is ASCII, and [confirm] returns a boolean that is true exactly
    when the response carries the three matching headers. *)
Theorem generated_key_is_confirmed (wss_uri : ParseResult.t)
    (extensions : list Extension) (host origin : option str) (e : Entropy)
    (u : WebsocketUpgrade.t) :
  fst (WebsocketUpgrade.init wss_uri extensions host origin e) = Ok u ->
  exists accept,
    WebsocketUpgrade.expecting_key u = Ok accept
    /\ ascii_str accept
    /\ In (lit "Sec-Websocket-Key", Some (WebsocketUpgrade.key u))
          (WebsocketUpgrade.headers u)
    /\ forall response,
         exists b, WebsocketUpgrade.confirm u response = Ok b
                   /\ (b = true <-> headers_match accept response).
Proof. apply generated_key_confirm. Qed.

Lemma generated_key_is_confirmed_witness :
  exists accept,
    WebsocketUpgrade.expecting_key sample_request_upgrade = Ok accept
    /\ ascii_str accept
    /\ In (lit "Sec-Websocket-Key",
           Some (WebsocketUpgrade.key sample_request_upgrade))
          (WebsocketUpgrade.headers sample_request_upgrade)
    /\ forall response,
         exists b, WebsocketUpgrade.confirm sample_request_upgrade response
                   = Ok b
                   /\ (b = true <-> headers_match accept response).
Proof.
  apply (generated_key_is_confirmed sample_uri [] None None quiet_entropy
                                    sample_request_upgrade).
  vm_compute. reflexivity.
Defined.

(* ----------------------------------------------------------------- *)
(** ** An accepted handshake *)

Lemma connect_accepted (w : World) (response : ServerResponse.t)
    (u : WebsocketUpgrade.t) (e' : Entropy) (data : bytes) :
  sock_connected (socket (client w)) = false ->
  sock_closed (socket (client w)) = false ->
  WebsocketUpgrade.init (uri (client w)) (extensions (client w))
                        (overwrites_host (client w))
                        (overwrites_origin (client w)) (entropy w)
  = (Ok u, e') ->
  WebsocketUpgrade.build u = Ok data ->
  ServerResponse.code response = 101 ->
  WebsocketUpgrade.confirm u response = Ok true ->
  connect response w
  = (Ok tt,
     mkWorld (set_connect_greenlet true
                (set_status CONNECTED (client (awaiting_response w data e'))))
             (calls w ++ connection_calls w) e').
Proof.
  intros Hc Hk Hi Hb H101 Hconf. destruct w as [c evs e].
  cbn [client calls entropy] in *.
  unfold connect.
  erewrite bindM_ok by reflexivity.
  erewrite bindM_ok
    by (unfold socket_connect, bindM, get_client, modify_client;
        cbn [client set_status socket]; rewrite Hc, Hk; reflexivity).
  erewrite bindM_ok by reflexivity.
  erewrite bindM_ok
    by (unfold with_entropy;
        cbn [client entropy calls uri extensions overwrites_host
             overwrites_origin set_socket set_status];
        rewrite Hi; reflexivity).
  erewrite bindM_ok by (unfold lift; rewrite Hb; reflexivity).
  rewrite (bindM_ok _ _ _ (awaiting_response (mkWorld c evs e) data e') tt)
    by reflexivity.
  rewrite H101. cbn [Z.eqb Pos.eqb negb].
  erewrite bindM_ok by (unfold lift; rewrite Hconf; reflexivity).
  cbn [negb].
  unfold bindM, modify_client, record_call, trigger, awaiting_response,
    connection_calls.
  cbn [client calls entropy set_status set_socket set_connect_greenlet
       extensions].
  rewrite <- !app_assoc. reflexivity.
Qed.

(** X27.  An accepted handshake: on a transport that can be connected,
    when the server answers 101 and [confirm] says yes, [connect]
    returns with the status [CONNECTED], the upgrade request as the only
    bytes written, the transport open and the reader task started
    before the [on_connection] hooks of the extensions and of the
    client ran, in that order; [run_forever] then passes its guard
    and finds a task to wait for. *)
Theorem connect_accepted_handshake (w : World)
    (response : ServerResponse.t) (u : WebsocketUpgrade.t) (e' : Entropy)
    (data : bytes) :
  sock_connected (socket (client w)) = false ->
  sock_closed (socket (client w)) = false ->
  WebsocketUpgrade.init (uri (client w)) (extensions (client w))
                        (overwrites_host (client w))
                        (overwrites_origin (client w)) (entropy w)
  = (Ok u, e') ->
  WebsocketUpgrade.build u = Ok data ->
  ServerResponse.code response = 101 ->
  WebsocketUpgrade.confirm u response = Ok true ->
  exists w',
    connect response w = (Ok tt, w')
    /\ status (client w') = CONNECTED
    /\ socket (client w')
       = mkSocket true false (sock_sent (socket (client w)) ++ [data])
    /\ calls w' = calls w ++ connection_calls w
    /\ constructor (client w') = constructor (client w)
    /\ fst (run_forever w') = Ok tt.
Proof.
  intros Hc Hk Hi Hb H101 Hconf. eexists.
  split; [apply (connect_accepted w response u e' data); assumption|].
  cbn [client calls status socket constructor set_connect_greenlet
       set_status awaiting_response set_socket].
  repeat split.
Qed.

Lemma connect_accepted_handshake_witness :
  exists w',
    connect switching_protocols (new_world [plain_extension]) = (Ok tt, w')
    /\ status (client w') = CONNECTED
    /\ socket (client w')
       = mkSocket true false
           (sock_sent (socket (client (new_world [plain_extension])))
            ++ [lit "GET /chat HTTP/1.1" ++ WebsocketUpgrade.crlf
                ++ lit "Host: example.com" ++ WebsocketUpgrade.crlf
                ++ lit "Upgrade: websocket" ++ WebsocketUpgrade.crlf
                ++ lit "Connection: Upgrade" ++ WebsocketUpgrade.crlf
                ++ lit "Sec-Websocket-Key: AAAAAAAAAAAAAAAAAAAAAA=="
                ++ WebsocketUpgrade.crlf
                ++ lit "Origin: http://example.com" ++ WebsocketUpgrade.crlf
                ++ lit "Sec-WebSocket-Version: 13" ++ WebsocketUpgrade.crlf
                ++ lit "Sec-WebSocket-Extensions: "
                ++ WebsocketUpgrade.crlf ++ WebsocketUpgrade.crlf])
    /\ calls w'
       = calls (new_world [plain_extension])
         ++ connection_calls (new_world [plain_extension])
    /\ constructor (client w')
       = constructor (client (new_world [plain_extension]))
    /\ fst (run_forever w') = Ok tt.
Proof.
  apply (connect_accepted_handshake (new_world [plain_extension])
           switching_protocols
           (match fst (WebsocketUpgrade.init sample_uri [plain_extension]
                         None None quiet_entropy) with
            | Ok u => u
            | Raise _ => sample_upgrade
            end)
           (snd (WebsocketUpgrade.init sample_uri [plain_extension]
                   None None quiet_entropy))).
  - reflexivity.
  - reflexivity.
  - vm_compute. reflexivity.
  - vm_compute. reflexivity.
  - reflexivity.
  - vm_compute. reflexivity.
Defined.

(* ----------------------------------------------------------------- *)
(** ** Construction, and the path of the request *)

Lemma Extension_init_cases (x : Extension) :
  (named x /\ Extension_init x = Ok x)
  \/ (~ named x
      /\ Extension_init x
         = Raise (InvalidExtension
                    (lit "Negotiable extensions must specify a name"))).
Proof.
  unfold Extension_init, named.
  destruct (NEGOTIATE x); destruct (NAME x) as [n|]; cbn [andb].
  - left. split; [discriminate | reflexivity].
  - right. split; [|reflexivity]. intros H. apply H; reflexivity.
  - left. split; [discriminate | reflexivity].
  - left. split; [discriminate | reflexivity].
Qed.

Lemma instantiate_cases (extensions : list Extension) :
  (Forall named extensions /\ instantiate extensions = Ok extensions)
  \/ (Exists (fun e => ~ named e) extensions
      /\ instantiate extensions
         = Raise (InvalidExtension
                    (lit "Negotiable extensions must specify a name"))).
Proof.
  induction extensions as [|x rest IH].
  - left. split; [constructor | reflexivity].
  - cbn [instantiate].
    destruct (Extension_init_cases x) as [[Hx ->] | [Hx ->]]; cbn [bind].
    + destruct IH as [[Hf ->] | [He ->]]; cbn [bind].
      * left. split; [constructor; assumption | reflexivity].
      * right. split; [apply Exists_cons_tl; exact He | reflexivity].
    + right. split; [apply Exists_cons_hd; exact Hx | reflexivity].
Qed.

Lemma Client_init_spec (lib : Libraries) (ws_uri : str)
    (extensions : list Extension) (origin host : option str)
    (context : option SSLContext) :
  Client_init_outcome lib ws_uri extensions origin host context
    (Client_init lib ws_uri extensions origin host context).
Proof.
  unfold Client_init.
  destruct (urlparse lib ws_uri) as [uri|e] eqn:Eu; cbn [bind];
    [|apply init_unparsed; exact Eu].
  destruct (str_eqb (ParseResult.scheme uri) (lit "wss")) eqn:E1;
    [|destruct (str_eqb (ParseResult.scheme uri) (lit "ws")) eqn:E2];
    cbn [orb negb].
  3:{ apply (init_bad_scheme _ _ _ _ _ _ uri Eu).
      intros [H | H]; apply str_eqb_eq in H; congruence. }
  all: (assert (Hs : ws_scheme uri)
         by (unfold ws_scheme;
             first [ apply str_eqb_eq in E1; right; exact E1
                   | apply str_eqb_eq in E2; left; exact E2 ]));
    destruct (instantiate_cases extensions) as [[Hf ->] | [He ->]];
    cbn [bind];
    try (apply (init_bad_extension _ _ _ _ _ _ uri Eu); assumption);
    destruct (socket_socket lib) as [[]|e] eqn:Es; cbn [bind];
    try (apply (init_no_socket _ _ _ _ _ _ uri e Eu); assumption).
  - apply str_eqb_eq in E1.
    destruct (wrap_socket lib uri host context) as [[]|e] eqn:Ew; cbn [bind].
    + apply (init_done _ _ _ _ _ _ uri Eu); auto.
    + apply (init_not_wrapped _ _ _ _ _ _ uri e Eu); assumption.
  - apply (init_done _ _ _ _ _ _ uri Eu); auto.
    intros H. apply str_eqb_eq in H. congruence.
Qed.

(** X28.  [Client.__init__] returns a client only when nothing on its
    way raised, and then the client is in status [CLOSED] with the
    extensions in the order given, an empty assembler and no close
    reason.  Otherwise it raises, and the causes are looked at in this
    order: what [urlparse] raises; [NotImplementedError] for a scheme
    other than ws and wss, whatever the extensions; [InvalidExtension]
    when a negotiable extension has no name; what creating the socket
    raises; and, for wss only, what the TLS context raises when it wraps
    the socket for the host name [host or uri.hostname]. *)
Theorem Client_init_outcomes (lib : Libraries) (ws_uri : str)
    (extensions : list Extension) (origin host : option str)
    (context : option SSLContext) :
  Client_init_outcome lib ws_uri extensions origin host context
    (Client_init lib ws_uri extensions origin host context).
Proof. apply Client_init_spec. Qed.

(** With the default context, a wss URI without a host name and no
    [host] argument is refused by the TLS library. *)
Lemma Client_init_wss_without_host (ws_uri : str) (origin : option str) :
  Client_init (mkLibraries
                 (fun _ => Ok (ParseResult.mk (lit "wss") None (lit "/")))
                 (Ok tt) (Ok checking_context))
              ws_uri [] origin None None
  = Raise ValueError.
Proof. reflexivity. Qed.

Lemma not_connected_unless_connecting (w : World) :
  status (client w) = CLOSED \/ status (client w) = CLOSING ->
  run_forever w
  = (Raise (NotConnected (lit "Must connect before running forever.")), w).
Proof.
  intros H. unfold run_forever, bindM, get_client, raise.
  destruct H as [-> | ->]; reflexivity.
Qed.

(** X29.  A client that was only constructed cannot wait for messages:
    on whatever [Client.__init__] returns, [run_forever] raises
    [NotConnected] and changes nothing. *)
Theorem run_forever_needs_connect (lib : Libraries) (ws_uri : str)
    (extensions : list Extension) (origin host : option str)
    (context : option SSLContext) (c : Client)
    (evs : list event) (e : Entropy) :
  Client_init lib ws_uri extensions origin host context = Ok c ->
  run_forever (mkWorld c evs e)
  = (Raise (NotConnected (lit "Must connect before running forever.")),
     mkWorld c evs e).
Proof.
  intros H. apply not_connected_unless_connecting. left. cbn [client].
  pose proof (Client_init_spec lib ws_uri extensions origin host context)
    as S.
  rewrite H in S. inversion S; subst. reflexivity.
Qed.

Lemma run_forever_needs_connect_witness :
  run_forever (mkWorld (new_client [plain_extension]) [] quiet_entropy)
  = (Raise (NotConnected (lit "Must connect before running forever.")),
     mkWorld (new_client [plain_extension]) [] quiet_entropy).
Proof.
  apply (run_forever_needs_connect sample_libraries
           (lit "ws://example.com/chat") [plain_extension] None None None
           (new_client [plain_extension]) [] quiet_entropy).
  reflexivity.
Defined.

Lemma repeat_snoc {A : Type} (x : A) (n : nat) :
  repeat x n ++ [x] = x :: repeat x n.
Proof. induction n as [|n IH]; cbn; [reflexivity | rewrite IH; reflexivity]. Qed.

Lemma rev_repeat_same {A : Type} (x : A) (n : nat) :
  rev (repeat x n) = repeat x n.
Proof.
  induction n as [|n IH]; [reflexivity|]. cbn [repeat rev]. rewrite IH.
  apply repeat_snoc.
Qed.

(** [rstrip("/")] removes slashes from the end, and all of them. *)
Lemma rstrip_slash_spec (s : str) :
  (exists n, s = rstrip_slash s ++ repeat 47 n)
  /\ no_trailing_slash (rstrip_slash s).
Proof.
  unfold rstrip_slash.
  set (strip := fix strip (r : str) : str :=
                  match r with
                  | c :: r' => if c =? 47 then strip r' else r
                  | [] => []
                  end).
  assert (S : forall r, (exists n, r = repeat 47 n ++ strip r)
                        /\ forall t, strip r <> 47 :: t).
  { induction r as [|c r IH].
    - split; [exists 0%nat; reflexivity | discriminate].
    - cbn [strip]. destruct (c =? 47) eqn:E.
      + apply Z.eqb_eq in E. subst c. destruct IH as [[n Hn] Ht].
        split; [|exact Ht]. exists (S n). cbn [repeat app].
        rewrite <- Hn. reflexivity.
      + apply Z.eqb_neq in E. split; [exists 0%nat; reflexivity|].
        intros t H. inversion H. contradiction. }
  destruct (S (rev s)) as [[n Hn] Ht]. split.
  - exists n. rewrite <- (rev_involutive s) at 1. rewrite Hn at 1.
    rewrite rev_app_distr, rev_repeat_same. reflexivity.
  - intros t H. apply (Ht (rev t)).
    rewrite <- (rev_involutive (strip (rev s))), H, rev_app_distr.
    reflexivity.
Qed.

(** X30.  The path of the upgrade request is the path of the URI
    without its trailing slashes, and a single slash when nothing is
    left of it: it is never empty, and it ends with a slash only when it
    is that single slash. *)
Theorem upgrade_path_normalised (wss_uri : ParseResult.t)
    (extensions : list Extension) (host origin : option str) (e : Entropy)
    (u : WebsocketUpgrade.t) :
  fst (WebsocketUpgrade.init wss_uri extensions host origin e) = Ok u ->
  WebsocketUpgrade.path u <> []
  /\ exists n,
       (ParseResult.path wss_uri = WebsocketUpgrade.path u ++ repeat 47 n
        /\ no_trailing_slash (WebsocketUpgrade.path u))
       \/ (ParseResult.path wss_uri = repeat 47 n
           /\ WebsocketUpgrade.path u = lit "/").
Proof.
  intros H. destruct (init_fields _ _ _ _ _ _ H) as (_ & Hp & _).
  rewrite Hp.
  destruct (rstrip_slash_spec (ParseResult.path wss_uri)) as [[n Hn] Ht].
  destruct (rstrip_slash (ParseResult.path wss_uri)) as [|c r].
  - split; [discriminate|]. exists n. right. split; [exact Hn | reflexivity].
  - split; [discriminate|]. exists n. left. split; [exact Hn | exact Ht].
Qed.

Lemma upgrade_path_normalised_witness :
  WebsocketUpgrade.path
    (WebsocketUpgrade.mk (lit "GET") (lit "/chat") (lit "HTTP/1.1")
       (lit "AAAAAAAAAAAAAAAAAAAAAA==") true
       [(lit "Host", Some (lit "example.com"));
        (lit "Upgrade", Some (lit "websocket"));
        (lit "Connection", Some (lit "Upgrade"));
        (lit "Sec-Websocket-Key", Some (lit "AAAAAAAAAAAAAAAAAAAAAA=="));
        (lit "Origin", Some (lit "https://example.com"));
        (lit "Sec-WebSocket-Version", Some (lit "13"))] []) <> []
  /\ exists n,
       (ParseResult.path slashed_uri
        = WebsocketUpgrade.path
            (WebsocketUpgrade.mk (lit "GET") (lit "/chat") (lit "HTTP/1.1")
               (lit "AAAAAAAAAAAAAAAAAAAAAA==") true
               [(lit "Host", Some (lit "example.com"));
                (lit "Upgrade", Some (lit "websocket"));
                (lit "Connection", Some (lit "Upgrade"));
                (lit "Sec-Websocket-Key",
                 Some (lit "AAAAAAAAAAAAAAAAAAAAAA=="));
                (lit "Origin", Some (lit "https://example.com"));
                (lit "Sec-WebSocket-Version", Some (lit "13"))] [])
          ++ repeat 47 n
        /\ no_trailing_slash
             (WebsocketUpgrade.path
                (WebsocketUpgrade.mk (lit "GET") (lit "/chat")
                   (lit "HTTP/1.1") (lit "AAAAAAAAAAAAAAAAAAAAAA==") true
                   [(lit "Host", Some (lit "example.com"));
                    (lit "Upgrade", Some (lit "websocket"));
                    (lit "Connection", Some (lit "Upgrade"));
                    (lit "Sec-Websocket-Key",
                     Some (lit "AAAAAAAAAAAAAAAAAAAAAA=="));
                    (lit "Origin", Some (lit "https://example.com"));
                    (lit "Sec-WebSocket-Version", Some (lit "13"))] [])))
       \/ (ParseResult.path slashed_uri = repeat 47 n
           /\ WebsocketUpgrade.path
                (WebsocketUpgrade.mk (lit "GET") (lit "/chat")
                   (lit "HTTP/1.1") (lit "AAAAAAAAAAAAAAAAAAAAAA==") true
                   [(lit "Host", Some (lit "example.com"));
                    (lit "Upgrade", Some (lit "websocket"));
                    (lit "Connection", Some (lit "Upgrade"));
                    (lit "Sec-Websocket-Key",
                     Some (lit "AAAAAAAAAAAAAAAAAAAAAA=="));
                    (lit "Origin", Some (lit "https://example.com"));
                    (lit "Sec-WebSocket-Version", Some (lit "13"))] [])
              = lit "/").
Proof.
  apply (upgrade_path_normalised slashed_uri [] None None quiet_entropy).
  vm_compute. reflexivity.
Defined.
